(** * TensorNetwork: the bilinear tensor layer of chainer/functions/tensor_network.py

    A shallow embedding of [TensorNetwork] (constructor, parameter and
    gradient names, type check, gradient reset, CPU forward and backward
    pass, device forward pass) together with the fragment of numpy and of
    the device runtime the class calls.

    Array elements are 32-bit floats, as in the source: IEEE 754 binary32
    values with the Standard Library's specification of their addition and
    multiplication (round to nearest, ties to even; infinities, NaN and
    signed zeros included).  Arrays are C-contiguous buffers with a shape,
    as numpy stores them.

    The order in which numpy and the device library add up the products of
    a contraction is theirs, not the class's: it is an input of the model
    (a [sum_of_products]).  What is proved about values holds for every
    such routine that is exact whenever all partial results are integers
    below 2^24 in magnitude, as every IEEE 754 accumulation is; the
    left-to-right one is shown to be. *)

From Stdlib Require Import ZArith Lia String SpecFloat.
From stdpp Require Import base list.

Local Open Scope Z_scope.
Local Open Scope nat_scope.

(** ** Exceptions and results *)

Inductive exn : Type :=
  | AssertionError
  | AttributeError
  | DeviceError
  | IndexError
  | InvalidType
  | TypeError
  | ValueError
  | ZeroDivisionError.

Inductive res (A : Type) : Type :=
  | Ok (a : A)
  | Err (e : exn).
Arguments Ok {A} a.
Arguments Err {A} e.

Definition rbind {A B} (m : res A) (k : A -> res B) : res B :=
  match m with
  | Ok a => k a
  | Err e => Err e
  end.

Declare Scope res_scope.
Delimit Scope res_scope with res.
Notation "x <- m ;; k" := (rbind m (fun x => k))
  (at level 100, m at next level, right associativity) : res_scope.
Notation "'assert!' c ;; k" := (if c then k else Err AssertionError)
  (at level 100, c at next level, right associativity) : res_scope.

(** ** 32-bit floats *)

(** [numpy.float32]: precision 24, exponents up to 128. *)
Definition f32 : Type := spec_float.

Definition fadd : f32 -> f32 -> f32 := SFadd 24 128.
Definition fmul : f32 -> f32 -> f32 := SFmul 24 128.

(** [0.0] *)
Definition f0 : f32 := S754_zero false.

(** The float nearest to an integer. *)
Definition of_Z (z : Z) : f32 := binary_normalize 24 128 z 0 false.

(** The integer a float holds, for a float that holds one ([is_int]);
    both zeros hold 0. *)
Definition zv (x : f32) : Z :=
  match x with
  | S754_finite s m e =>
      cond_Zopp s (if (e <? 0)%Z then Zpos m / 2 ^ (- e) else Zpos m * 2 ^ e)%Z
  | _ => 0%Z
  end.

Definition is_int (x : f32) : bool :=
  match x with
  | S754_zero _ => true
  | S754_finite s m e =>
      bounded 24 128 m e && ((0 <=? e)%Z || (Zpos m mod 2 ^ (- e) =? 0)%Z)
  | _ => false
  end.

(** An integer below 2^24 in magnitude: sums and products of such floats
    are exact as long as they stay in that range. *)
Definition small (x : f32) : bool := is_int x && (Z.abs (zv x) <? 2 ^ 24)%Z.

Definition is_zero (x : f32) : bool :=
  match x with S754_zero _ => true | _ => false end.

(** ** Sums of products

    A contraction adds up products of array elements.  The routine that
    does it gets the list of terms, each the list of its factors, in index
    order; in which order, and how grouped, it multiplies and adds is its
    own affair. *)
Definition sum_of_products : Type := list (list f32) -> f32.

(** Multiplying and adding from left to right, starting from 0.0. *)
Definition prod_lr (t : list f32) : f32 :=
  match t with
  | [] => of_Z 1
  | x :: r => foldl fmul x r
  end.
Definition sum_lr : sum_of_products :=
  fun ts => foldl (fun acc t => fadd acc (prod_lr t)) f0 ts.

(** The exact value of a sum of products of integers, and a bound on every
    partial result of it, in any order and grouping: the same sum with
    max(1, |x|) for every factor x. *)
Definition zprod (t : list f32) : Z := foldr (fun x p => (zv x * p)%Z) 1%Z t.
Definition zsum (ts : list (list f32)) : Z :=
  foldr (fun t a => (zprod t + a)%Z) 0%Z ts.
Definition wprod (t : list f32) : Z :=
  foldr (fun x p => (Z.max 1 (Z.abs (zv x)) * p)%Z) 1%Z t.
Definition weight (ts : list (list f32)) : Z :=
  foldr (fun t a => (wprod t + a)%Z) 0%Z ts.

(** A routine that is exact on small integers. *)
Definition exact_on_small_integers (sop : sum_of_products) : Prop :=
  forall ts,
    Forall (Forall (fun x => is_int x = true)) ts ->
    (weight ts < 2 ^ 24)%Z ->
    is_int (sop ts) = true /\ zv (sop ts) = zsum ts.

(** ** Arrays *)

Record ndarray : Type := mk_nd { shape : list nat; data : list f32 }.

Definition prod (l : list nat) : nat := foldr Nat.mul 1 l.

(** [x.size], [x.ndim] and [x.shape[k]] *)
Definition size (x : ndarray) : nat := prod (shape x).
Definition ndim (x : ndarray) : nat := length (shape x).
Definition dim (k : nat) (x : ndarray) : nat := nth k (shape x) 0.

(** The buffer of an array holds exactly [size] elements. *)
Definition wf (x : ndarray) : Prop := length (data x) = size x.
Definition wfb (x : ndarray) : bool := length (data x) =? size x.

(** Element reads in C order: [x[l]], [x[i,j]], [x[j,k,l]]. *)
Definition at1 (x : ndarray) (l : nat) : f32 := nth l (data x) f0.
Definition at2 (x : ndarray) (i j : nat) : f32 :=
  nth (i * dim 1 x + j) (data x) f0.
Definition at3 (x : ndarray) (j k l : nat) : f32 :=
  nth ((j * dim 1 x + k) * dim 2 x + l) (data x) f0.

(** [tab n f] is the buffer [f 0, ..., f (n-1)]. *)
Definition tab {A} (n : nat) (f : nat -> A) : list A := map f (seq 0 n).

(** [sum_upto n f] is f 0 + ... + f (n-1), over the integers. *)
Fixpoint sum_upto (n : nat) (f : nat -> Z) : Z :=
  match n with
  | O => 0%Z
  | S m => (sum_upto m f + f m)%Z
  end.

(** *** Index arithmetic *)

(** Multi-index of a flat C-order position, and back. *)
Fixpoint unravel (sh : list nat) (p : nat) : list nat :=
  match sh with
  | [] => []
  | _ :: rest => p / prod rest :: unravel rest (p mod prod rest)
  end.

Fixpoint ravel (sh idx : list nat) : nat :=
  match sh, idx with
  | _ :: rest, i :: idx' => i * prod rest + ravel rest idx'
  | _, _ => 0
  end.

(** Broadcasting: a dimension of extent 1 is stretched, its index is 0. *)
Definition bdim (a b : nat) : res nat :=
  if a =? b then Ok a
  else if a =? 1 then Ok b
  else if b =? 1 then Ok a
  else Err ValueError.

Definition bix (d i : nat) : nat := if d =? 1 then 0 else i.

(** Broadcasting reads of a 2- or 3-dimensional operand. *)
Definition rd2 (x : ndarray) (i j : nat) : f32 :=
  at2 x (bix (dim 0 x) i) (bix (dim 1 x) j).
Definition rd3 (x : ndarray) (j k l : nat) : f32 :=
  at3 x (bix (dim 0 x) j) (bix (dim 1 x) k) (bix (dim 2 x) l).

(** ** The numpy operations the class uses *)

(** [x.reshape(sh)] *)
Definition reshape (x : ndarray) (sh : list nat) : res ndarray :=
  if prod sh =? size x then Ok (mk_nd sh (data x)) else Err ValueError.

(** [x.fill(0)] *)
Definition fill0 (x : ndarray) : ndarray :=
  mk_nd (shape x) (map (fun _ => f0) (data x)).

(** [numpy.zeros(sh)] *)
Definition zeros (sh : list nat) : ndarray :=
  mk_nd sh (tab (prod sh) (fun _ => f0)).

(** [numpy.empty_like(x)]: a buffer of the shape of [x] whose contents are
    whatever the allocator hands out, here the values [junk 0, junk 1, ...]. *)
Definition empty_like (junk : nat -> f32) (x : ndarray) : ndarray :=
  mk_nd (shape x) (tab (size x) junk).

(** [x.T]: all axes reversed. *)
Definition transpose (x : ndarray) : ndarray :=
  let sh' := rev (shape x) in
  mk_nd sh'
    (tab (size x)
       (fun p => nth (ravel (shape x) (rev (unravel sh' p))) (data x) f0)).

(** [x.sum(0)] *)
Definition sum0 (sop : sum_of_products) (x : ndarray) : res ndarray :=
  match shape x with
  | [] => Err ValueError
  | n :: rest =>
      Ok (mk_nd rest
            (tab (prod rest)
               (fun r => sop (tab n (fun i =>
                  [nth (i * prod rest + r) (data x) f0])))))
  end.

(** [a.dot(b)]: sum over the last axis of [a] and the second-to-last of
    [b] (the only axis of a one-dimensional [b]); a zero-dimensional
    operand is a scalar factor.  The contracted extents must agree: [dot]
    does not broadcast. *)
Definition dot (sop : sum_of_products) (a b : ndarray) : res ndarray :=
  match shape a, shape b with
  | [], _ => Ok (mk_nd (shape b) (map (fmul (nth 0 (data a) f0)) (data b)))
  | _, [] => Ok (mk_nd (shape a) (map (fun v => fmul v (nth 0 (data b) f0)) (data a)))
  | sa, [kb] =>
      let K := List.last sa 0 in
      if K =? kb then
        let sh := removelast sa in
        Ok (mk_nd sh
              (tab (prod sh)
                 (fun r => sop (tab K (fun k =>
                    [nth (r * K + k) (data a) f0; nth k (data b) f0])))))
      else Err ValueError
  | sa, sb =>
      let K := List.last sa 0 in
      let m := List.last sb 0 in
      let sb' := removelast (removelast sb) in
      let B := prod sb' in
      if K =? List.last (removelast sb) 0 then
        let sh := removelast sa ++ sb' ++ [m] in
        Ok (mk_nd sh
              (tab (prod sh)
                 (fun r => sop (tab K (fun k =>
                    [nth (r / (B * m) * K + k) (data a) f0;
                     nth (((r / m) mod B * K + k) * m + r mod m) (data b) f0])))))
      else Err ValueError
  end.

(** [a.dot(o)] for an attribute [o] that may be [None].  numpy turns
    [None] into a zero-dimensional array of objects, that is a scalar
    factor, and multiplies element by element: [TypeError] at the first
    element, an array without elements when [a] has none. *)
Definition dot_attr (sop : sum_of_products) (a : ndarray)
    (o : option ndarray) : res ndarray :=
  match o with
  | Some v => dot sop a v
  | None => if size a =? 0 then Ok (mk_nd (shape a) []) else Err TypeError
  end.

(** [a += b]: [b] is broadcast to the shape of [a], which does not change. *)
Definition broadcastable (sa sb : list nat) : bool :=
  (length sb <=? length sa)
  && forallb (fun '(da, db) => (db =? da) || (db =? 1))
       (combine (drop (length sa - length sb) sa) sb).

Definition iadd (a b : ndarray) : res ndarray :=
  let sa := shape a in
  let sb := shape b in
  if broadcastable sa sb then
    Ok (mk_nd sa
          (tab (size a)
             (fun p =>
                let idx := drop (length sa - length sb) (unravel sa p) in
                fadd (nth p (data a) f0)
                     (nth (ravel sb (zip_with bix sb idx)) (data b) f0))))
  else Err ValueError.

(** [self.g += t] for an attribute that may be [None].  [None] has no
    in-place addition, so Python evaluates [None + t] and assigns the
    result; numpy adds element by element: [TypeError] at the first
    element, and for a [t] without elements an array of the shape of [t],
    which becomes the attribute. *)
Definition iadd_attr (o : option ndarray) (t : ndarray) : res ndarray :=
  match o with
  | Some a => iadd a t
  | None => if size t =? 0 then Ok (mk_nd (shape t) []) else Err TypeError
  end.

(** The three-operand contractions of the class, one per subscript string.
    An operand of the wrong rank, or labels whose extents differ and are
    not 1, raise [ValueError]; an extent of 1 is broadcast.  The terms of a
    cell are listed in C order of the summed labels. *)

(** [numpy.einsum('ij,ik,jkl->il', a, b, w)] *)
Definition einsum_ij_ik_jkl_il (sop : sum_of_products) (a b w : ndarray)
    : res ndarray :=
  match shape a, shape b, shape w with
  | [i1; j1], [i2; k2], [j3; k3; l3] =>
      (i <- bdim i1 i2 ;; j <- bdim j1 j3 ;; k <- bdim k2 k3 ;;
       Ok (mk_nd [i; l3]
             (tab (i * l3) (fun p =>
                let n := p / l3 in let l := p mod l3 in
                sop (tab (j * k) (fun q =>
                  [rd2 a n (q / k); rd2 b n (q mod k);
                   rd3 w (q / k) (q mod k) l]))))))%res
  | _, _, _ => Err ValueError
  end.

(** [numpy.einsum('ij,ik,il->jkl', a, b, g)] *)
Definition einsum_ij_ik_il_jkl (sop : sum_of_products) (a b g : ndarray)
    : res ndarray :=
  match shape a, shape b, shape g with
  | [i1; j1], [i2; k2], [i3; l3] =>
      (i12 <- bdim i1 i2 ;; i <- bdim i12 i3 ;;
       Ok (mk_nd [j1; k2; l3]
             (tab (j1 * k2 * l3) (fun p =>
                let j := p / (k2 * l3) in
                let k := p / l3 mod k2 in
                let l := p mod l3 in
                sop (tab i (fun n => [rd2 a n j; rd2 b n k; rd2 g n l]))))))%res
  | _, _, _ => Err ValueError
  end.

(** [numpy.einsum('ik,jkl,il->ij', b, w, g)] *)
Definition einsum_ik_jkl_il_ij (sop : sum_of_products) (b w g : ndarray)
    : res ndarray :=
  match shape b, shape w, shape g with
  | [i1; k1], [j2; k2; l2], [i3; l3] =>
      (i <- bdim i1 i3 ;; k <- bdim k1 k2 ;; l <- bdim l2 l3 ;;
       Ok (mk_nd [i; j2]
             (tab (i * j2) (fun p =>
                let n := p / j2 in let j := p mod j2 in
                sop (tab (k * l) (fun q =>
                  [rd2 b n (q / l); rd3 w j (q / l) (q mod l);
                   rd2 g n (q mod l)]))))))%res
  | _, _, _ => Err ValueError
  end.

(** [numpy.einsum('ij,jkl,il->ik', a, w, g)] *)
Definition einsum_ij_jkl_il_ik (sop : sum_of_products) (a w g : ndarray)
    : res ndarray :=
  match shape a, shape w, shape g with
  | [i1; j1], [j2; k2; l2], [i3; l3] =>
      (i <- bdim i1 i3 ;; j <- bdim j1 j2 ;; l <- bdim l2 l3 ;;
       Ok (mk_nd [i; k2]
             (tab (i * k2) (fun p =>
                let n := p / k2 in let k := p mod k2 in
                sop (tab (j * l) (fun q =>
                  [rd2 a n (q / l); rd3 w (q / l) k (q mod l);
                   rd2 g n (q mod l)]))))))%res
  | _, _, _ => Err ValueError
  end.

(** ** Module-level helpers of tensor_network.py *)

(** [_as_vec(x) = x.reshape(x.size)] *)
Definition _as_vec (x : ndarray) : res ndarray := reshape x [size x].

(** [_as_mat(x) = x.reshape(x.shape[0], x.size // x.shape[0])] *)
Definition _as_mat (x : ndarray) : res ndarray :=
  match shape x with
  | [] => Err IndexError
  | s0 :: _ =>
      if s0 =? 0 then Err ZeroDivisionError
      else reshape x [s0; size x / s0]
  end.

(** [_empty_like(x)].  The source picks [cuda.empty_like] or
    [numpy.empty_like] by the device of [x]; both return an uninitialised
    buffer of the shape of [x].  Of [None] numpy makes a zero-dimensional
    array. *)
Definition _empty_like (junk : nat -> f32) (x : option ndarray) : ndarray :=
  match x with
  | Some a => empty_like junk a
  | None => empty_like junk (mk_nd [] [f0])
  end.

(** ** The layer *)

Record TensorNetwork : Type := mk_tn {
  W : ndarray;
  gW : ndarray;
  V1 : option ndarray;
  gV1 : option ndarray;
  V2 : option ndarray;
  gV2 : option ndarray;
  b : option ndarray;
  gb : option ndarray;
  in_shape : list nat
}.

Definition set_gW (v : ndarray) (s : TensorNetwork) : TensorNetwork :=
  mk_tn (W s) v (V1 s) (gV1 s) (V2 s) (gV2 s) (b s) (gb s) (in_shape s).
Definition set_gV1 (v : option ndarray) (s : TensorNetwork) : TensorNetwork :=
  mk_tn (W s) (gW s) (V1 s) v (V2 s) (gV2 s) (b s) (gb s) (in_shape s).
Definition set_gV2 (v : option ndarray) (s : TensorNetwork) : TensorNetwork :=
  mk_tn (W s) (gW s) (V1 s) (gV1 s) (V2 s) v (b s) (gb s) (in_shape s).
Definition set_gb (v : option ndarray) (s : TensorNetwork) : TensorNetwork :=
  mk_tn (W s) (gW s) (V1 s) (gV1 s) (V2 s) (gV2 s) (b s) v (in_shape s).

(** [TensorNetwork.__init__].  [rng] stands for the draws of
    [numpy.random.normal] (cast to float32), [junk k] for the contents of
    the [k]-th buffer that [_empty_like] allocates. *)
Definition __init__ (in_shape : list nat) (out_size : nat) (nobias : bool)
    (initialW : option ndarray) (initial_bias : option (list ndarray))
    (rng : nat -> f32) (junk : nat -> nat -> f32) : res TensorNetwork :=
  (assert! (length in_shape =? 2) ;;
   let d1 := nth 0 in_shape 0 in
   let d2 := nth 1 in_shape 0 in
   w <- match initialW with
        | Some w0 =>
            assert! (bool_decide (shape w0 = [d1; d2; out_size])) ;; Ok w0
        | None =>
            Ok (mk_nd [d1; d2; out_size] (tab (d1 * d2 * out_size) rng))
        end ;;
   bias <- match initial_bias with
           | Some l =>
               assert! (length l =? 3) ;;
               Ok (l !! 0, l !! 1, l !! 2)
           | None =>
               if negb nobias then
                 Ok (Some (zeros [d1; out_size]),
                     Some (zeros [d2; out_size]),
                     Some (zeros [out_size]))
               else Ok (None, None, None)
           end ;;
   let '(v1, v2, b0) := bias in
   let gw := _empty_like (junk 0) (Some w) in
   if negb nobias then
     Ok (mk_tn w gw
           v1 (Some (_empty_like (junk 1) v1))
           v2 (Some (_empty_like (junk 2) v2))
           b0 (Some (_empty_like (junk 3) b0))
           in_shape)
   else
     Ok (mk_tn w gw v1 None v2 None b0 None in_shape))%res.

(** [parameter_names] *)
Definition parameter_names (self : TensorNetwork) : res (list string) :=
  match b self with
  | None => Ok ["W"%string]
  | Some _ =>
      (assert! (bool_decide (V1 self <> None)) ;;
       assert! (bool_decide (V2 self <> None)) ;;
       Ok ["W"; "V1"; "V2"; "b"]%string)%res
  end.

(** [gradient_names] *)
Definition gradient_names (self : TensorNetwork) : res (list string) :=
  match gb self with
  | None => Ok ["gW"%string]
  | Some _ =>
      (assert! (bool_decide (gV1 self <> None)) ;;
       assert! (bool_decide (gV2 self <> None)) ;;
       Ok ["gW"; "gV1"; "gV2"; "gb"]%string)%res
  end.

(** [check_type_forward], on the shapes of the inputs. *)
Definition check_type_forward (self : TensorNetwork)
    (in_types : list (list nat)) : res unit :=
  let t0 := nth 0 in_types [] in
  let t1 := nth 1 in_types [] in
  if (length in_types =? 2)
     && (2 <=? length t0)
     && (2 <=? length t1)
     && (nth 0 t0 0 =? nth 0 t1 0)
  then
    if (prod (tail t0) =? nth 0 (in_shape self) 0)
       && (prod (tail t1) =? nth 1 (in_shape self) 0)
    then Ok tt
    else Err InvalidType
  else Err InvalidType.

(** [check_type_backward]: the body is [pass]. *)
Definition check_type_backward (self : TensorNetwork)
    (in_types out_types : list (list nat)) : res unit :=
  Ok tt.

(** ** Methods that update the layer

    A method that assigns to attributes of [self] is a function from the
    layer before the call to the layer after it and the outcome; the layer
    after it is there also when the call raises. *)

Definition M (A : Type) : Type := TensorNetwork -> TensorNetwork * res A.

Definition mret {A} (a : A) : M A := fun s => (s, Ok a).
Definition mbind {A B} (m : M A) (k : A -> M B) : M B :=
  fun s =>
    match m s with
    | (s', Ok a) => k a s'
    | (s', Err e) => (s', Err e)
    end.
Definition raise {A} (e : exn) : M A := fun s => (s, Err e).
Definition lift {A} (r : res A) : M A := fun s => (s, r).
Definition self_ : M TensorNetwork := fun s => (s, Ok s).
Definition assign (f : TensorNetwork -> TensorNetwork) : M unit :=
  fun s => (f s, Ok tt).

Declare Scope tn_scope.
Delimit Scope tn_scope with tn.
Notation "x <~ m ;; k" := (mbind m (fun x => k))
  (at level 100, m at next level, right associativity) : tn_scope.
Notation "m ;;; k" := (mbind m (fun _ => k))
  (at level 100, right associativity) : tn_scope.

(** [obj.fill(0)] on an attribute that may be [None] *)
Definition fill0_attr (o : option ndarray) : res ndarray :=
  match o with
  | Some a => Ok (fill0 a)
  | None => Err AttributeError
  end.

(** [zero_grads] *)
Definition zero_grads : M unit :=
  (self <~ self_ ;;
   assign (set_gW (fill0 (gW self))) ;;;
   match gb self with
   | None => mret tt
   | Some _ =>
       g1 <~ lift (fill0_attr (gV1 self)) ;;
       assign (set_gV1 (Some g1)) ;;;
       g2 <~ lift (fill0_attr (gV2 self)) ;;
       assign (set_gV2 (Some g2)) ;;;
       g3 <~ lift (fill0_attr (gb self)) ;;
       assign (set_gb (Some g3))
   end)%tn.

(** [x[k]] on a tuple of arrays *)
Definition item (x : list ndarray) (k : nat) : res ndarray :=
  match x !! k with
  | Some a => Ok a
  | None => Err IndexError
  end.

(** [o.T] on an attribute that may be [None] *)
Definition T_attr (o : option ndarray) : res ndarray :=
  match o with
  | Some a => Ok (transpose a)
  | None => Err AttributeError
  end.

(** [forward_cpu] *)
Definition forward_cpu (sop : sum_of_products) (self : TensorNetwork)
    (x : list ndarray) : res (list ndarray) :=
  (x0 <- item x 0 ;; e1 <- _as_mat x0 ;;
   x1 <- item x 1 ;; e2 <- _as_mat x1 ;;
   y <- einsum_ij_ik_jkl_il sop e1 e2 (W self) ;;
   match b self with
   | None => Ok [y]
   | Some bv =>
       t1 <- dot_attr sop e1 (V1 self) ;; y <- iadd y t1 ;;
       t2 <- dot_attr sop e2 (V2 self) ;; y <- iadd y t2 ;;
       y <- iadd y bv ;;
       Ok [y]
   end)%res.

(** [backward_cpu] *)
Definition backward_cpu (sop : sum_of_products) (x gy : list ndarray)
    : M (ndarray * ndarray) :=
  (x0 <~ lift (item x 0) ;; e1 <~ lift (_as_mat x0) ;;
   x1 <~ lift (item x 1) ;; e2 <~ lift (_as_mat x1) ;;
   self <~ self_ ;;
   g <~ lift (item gy 0) ;;
   c <~ lift (einsum_ij_ik_il_jkl sop e1 e2 g) ;;
   gw <~ lift (iadd (gW self) c) ;;
   assign (set_gW gw) ;;;
   match b self with
   | None => mret tt
   | Some _ =>
       t1 <~ lift (dot sop (transpose e1) g) ;;
       g1 <~ lift (iadd_attr (gV1 self) t1) ;;
       assign (set_gV1 (Some g1)) ;;;
       t2 <~ lift (dot sop (transpose e2) g) ;;
       g2 <~ lift (iadd_attr (gV2 self) t2) ;;
       assign (set_gV2 (Some g2)) ;;;
       t3 <~ lift (sum0 sop g) ;;
       g3 <~ lift (iadd_attr (gb self) t3) ;;
       assign (set_gb (Some g3))
   end ;;;
   ge1 <~ lift (einsum_ik_jkl_il_ij sop e2 (W self) g) ;;
   ge2 <~ lift (einsum_ij_jkl_il_ik sop e1 (W self) g) ;;
   match b self with
   | None => mret (ge1, ge2)
   | Some _ =>
       u1 <~ lift (vt <- T_attr (V1 self) ;; dot sop g vt)%res ;;
       ge1 <~ lift (iadd ge1 u1) ;;
       u2 <~ lift (vt <- T_attr (V2 self) ;; dot sop g vt)%res ;;
       ge2 <~ lift (iadd ge2 u2) ;;
       mret (ge1, ge2)
   end)%tn.

(** ** The device path *)

(** What the source does not fix about the device: the contents of a
    buffer fresh from [cuda.empty] ([fresh k], for the [k]-th buffer),
    what a kernel reads outside an array ([stray k], for its [k]-th array
    argument), what a division or remainder by zero yields in a kernel,
    whether the runtime takes a buffer without elements, and the order in
    which the matrix product of the device library adds up. *)
Record device : Type := mk_dev {
  fresh : nat -> nat -> f32;
  stray : nat -> Z -> f32;
  by_zero : Z -> Z;
  takes_empty : bool;
  gemm : sum_of_products
}.

(** A C [int]: 32 bits, two's complement. *)
Definition int32 (z : Z) : Z := ((z + 2 ^ 31) mod 2 ^ 32 - 2 ^ 31)%Z.
Definition imul (a c : Z) : Z := int32 (a * c).
Definition iplus (a c : Z) : Z := int32 (a + c).
Definition iminus (a c : Z) : Z := int32 (a - c).
Definition idiv (dev : device) (a c : Z) : Z :=
  if (c =? 0)%Z then by_zero dev a else int32 (Z.quot a c).
Definition irem (dev : device) (a c : Z) : Z :=
  if (c =? 0)%Z then by_zero dev a else int32 (Z.rem a c).

(** A read [v[k]] in a kernel; outside the array it yields what happens to
    be in device memory there. *)
Definition fetch (wild : Z -> f32) (v : list f32) (k : Z) : f32 :=
  if ((0 <=? k) && (k <? Z.of_nat (length v)))%Z
  then nth (Z.to_nat k) v f0
  else wild k.

(** [cuda.elementwise(...)(y, ...)]: the body runs once for every index
    [i] of the first array.  The work items write disjoint cells, so they
    are run here one after the other. *)
Definition elementwise (body : Z -> list f32 -> list f32) (y : ndarray)
    : ndarray :=
  mk_nd (shape y)
    (foldl (fun buf i => body (Z.of_nat i) buf) (data y) (seq 0 (size y))).

(** Kernel [row_wise_outer_product]:
<<
    int I = i / e1c / e2c;
    int J = (i-I*e1c*e2c) / e2c;
    int K = i % e2c;
    y[i] = e1[I*e1c+J] * e2[I*e2c+K];
>> *)
Definition row_wise_outer_product (dev : device) (e1 e2 : list f32)
    (e1c e2c : Z) (i : Z) (y : list f32) : list f32 :=
  let I := idiv dev (idiv dev i e1c) e2c in
  let J := idiv dev (iminus i (imul (imul I e1c) e2c)) e2c in
  let K := irem dev i e2c in
  <[Z.to_nat i := fmul (fetch (stray dev 1) e1 (iplus (imul I e1c) J))
                       (fetch (stray dev 2) e2 (iplus (imul I e2c) K))]> y.

(** Kernel [linear_bias]: [y[i] += b[i % n_channel]] *)
Definition linear_bias (dev : device) (bv : list f32) (n_channel : Z)
    (i : Z) (y : list f32) : list f32 :=
  <[Z.to_nat i := fadd (fetch (stray dev 0) y i)
                       (fetch (stray dev 1) bv (irem dev i n_channel))]> y.

(** [cuda.empty(sh)]: an uninitialised device buffer, the [k]-th of the
    call. *)
Definition cuda_empty (dev : device) (k : nat) (sh : list nat) : res ndarray :=
  if (prod sh =? 0) && negb (takes_empty dev) then Err DeviceError
  else Ok (mk_nd sh (tab (prod sh) (fresh dev k))).

(** [x.shape[k]] *)
Definition shape_at (x : ndarray) (k : nat) : res nat :=
  match shape x !! k with
  | Some d => Ok d
  | None => Err IndexError
  end.

(** The matrix product of the device library takes matrices; a vector
    counts as a single row.  Misaligned operands raise [ValueError]. *)
Definition as_row (x : ndarray) : ndarray :=
  match shape x with
  | [n] => mk_nd [1; n] (data x)
  | _ => x
  end.

Definition cu_matmul (dev : device) (a c : ndarray) : res ndarray :=
  let a := as_row a in
  let c := as_row c in
  if (ndim a =? 2) && (ndim c =? 2) then dot (gemm dev) a c
  else Err ValueError.

(** [culinalg.dot(a, c, out=y)] *)
Definition culinalg_dot (dev : device) (a c out : ndarray) : res ndarray :=
  (r <- cu_matmul dev a c ;;
   if bool_decide (shape out = shape r) then Ok r else Err ValueError)%res.

(** [culinalg.add_dot(a, c, y)]: [y = a.c + y] *)
Definition culinalg_add_dot (dev : device) (a : ndarray) (c : option ndarray)
    (y : ndarray) : res ndarray :=
  match c with
  | None => Err AttributeError
  | Some c =>
      (r <- cu_matmul dev a c ;;
       if bool_decide (shape y = shape r)
       then Ok (mk_nd (shape y)
                  (tab (size y) (fun p =>
                     fadd (nth p (data r) f0) (nth p (data y) f0))))
       else Err ValueError)%res
  end.

(** [forward_gpu] *)
Definition forward_gpu (self : TensorNetwork) (x : list ndarray)
    (dev : device) : res (list ndarray) :=
  (x0 <- item x 0 ;; e1 <- _as_vec x0 ;;
   x1 <- item x 1 ;; e2 <- _as_vec x1 ;;
   n <- shape_at x0 0 ;; c1 <- shape_at x0 1 ;; c2 <- shape_at x1 1 ;;
   e1e2 <- cuda_empty dev 0 [n * c1 * c2] ;;
   let e1e2 :=
     elementwise
       (row_wise_outer_product dev (data e1) (data e2)
          (Z.of_nat c1) (Z.of_nat c2))
       e1e2 in
   e1e2 <- reshape e1e2 [n; c1 * c2] ;;
   w0 <- shape_at (W self) 0 ;; w1 <- shape_at (W self) 1 ;;
   w2 <- shape_at (W self) 2 ;;
   W_mat <- reshape (W self) [w0 * w1; w2] ;;
   y <- cuda_empty dev 1 [n; w2] ;;
   y <- culinalg_dot dev e1e2 W_mat y ;;
   match b self with
   | None => Ok [y]
   | Some bv =>
       e1 <- _as_mat x0 ;;
       e2 <- _as_mat x1 ;;
       y <- culinalg_add_dot dev e1 (V1 self) y ;;
       y <- culinalg_add_dot dev e2 (V2 self) y ;;
       Ok [elementwise (linear_bias dev (data bv) (Z.of_nat (size bv))) y]
   end)%res.

(** ** Invariants of the data model *)

(** An attribute that is not [None]. *)
Definition present (o : option ndarray) : bool :=
  match o with Some _ => true | None => false end.

(** [x] is an array of shape [sh] with a buffer of the right length. *)
Definition has_shape (sh : list nat) (x : ndarray) : bool :=
  bool_decide (shape x = sh) && wfb x.

Definition opt_has_shape (sh : list nat) (o : option ndarray) : bool :=
  match o with
  | Some a => has_shape sh a
  | None => false
  end.

(** The parameters of a layer with extents d1, d2, out: W is (d1, d2, out)
    and, when the bias terms are there, V1 is (d1, out), V2 is (d2, out) and
    b is (out). *)
Definition params_ok (d1 d2 out : nat) (s : TensorNetwork) : bool :=
  bool_decide (in_shape s = [d1; d2])
  && has_shape [d1; d2; out] (W s)
  && match b s with
     | None => true
     | Some bv =>
         has_shape [out] bv
         && opt_has_shape [d1; out] (V1 s)
         && opt_has_shape [d2; out] (V2 s)
     end.

(** There is a gradient accumulator for every parameter that is present,
    of the shape of that parameter, and no other. *)
Definition grads_ok (d1 d2 out : nat) (s : TensorNetwork) : bool :=
  has_shape [d1; d2; out] (gW s)
  && match b s with
     | None =>
         negb (present (gb s)) && negb (present (gV1 s))
         && negb (present (gV2 s))
     | Some _ =>
         opt_has_shape [out] (gb s)
         && opt_has_shape [d1; out] (gV1 s)
         && opt_has_shape [d2; out] (gV2 s)
     end.

Definition is_ok {A} (r : res A) : bool :=
  match r with Ok _ => true | Err _ => false end.

(** A valid batch of size [N]: two well-formed arrays that pass
    [check_type_forward]. *)
Definition valid_batch (s : TensorNetwork) (N : nat) (x0 x1 : ndarray) : bool :=
  wfb x0 && wfb x1
  && is_ok (check_type_forward s [shape x0; shape x1])
  && (dim 0 x0 =? N).

(** ** Reads *)

(** [e[n,j]] of the per-sample flattening of [x] to [d] columns. *)
Definition flat (d : nat) (x : ndarray) (n j : nat) : f32 :=
  nth (n * d + j) (data x) f0.

Definition opt_at2 (o : option ndarray) (i j : nat) : f32 :=
  match o with Some a => at2 a i j | None => f0 end.
Definition opt_at1 (o : option ndarray) (l : nat) : f32 :=
  match o with Some a => at1 a l | None => f0 end.

(** The integers the cells hold. *)
Definition zat1 (x : ndarray) (l : nat) : Z := zv (at1 x l).
Definition zat2 (x : ndarray) (i j : nat) : Z := zv (at2 x i j).
Definition zat3 (x : ndarray) (j k l : nat) : Z := zv (at3 x j k l).
Definition zflat (d : nat) (x : ndarray) (n j : nat) : Z := zv (flat d x n j).
Definition zopt_at2 (o : option ndarray) (i j : nat) : Z := zv (opt_at2 o i j).
Definition zopt_at1 (o : option ndarray) (l : nat) : Z := zv (opt_at1 o l).

(** ** Reference semantics, in the words of the specification

    The formulas of the specification, over the integers that the cells of
    the arrays hold. *)

Section Reference.
Variables (d1 d2 out : nat) (s : TensorNetwork) (x0 x1 : ndarray).

Let e1 := zflat d1 x0.
Let e2 := zflat d2 x1.

(** y[n,l] = sum_j sum_k e1[n,j]*e2[n,k]*W[j,k,l] *)
Definition ref_trilinear (n l : nat) : Z :=
  sum_upto d1 (fun j => sum_upto d2 (fun k =>
    (e1 n j * e2 n k * zat3 (W s) j k l)%Z)).

(** sum_j e1[n,j]*V1[j,l] + sum_k e2[n,k]*V2[k,l] + b[l] *)
Definition ref_bias (n l : nat) : Z :=
  (sum_upto d1 (fun j => e1 n j * zopt_at2 (V1 s) j l)
   + sum_upto d2 (fun k => e2 n k * zopt_at2 (V2 s) k l)
   + zopt_at1 (b s) l)%Z.

Definition ref_forward (n l : nat) : Z :=
  match b s with
  | None => ref_trilinear n l
  | Some _ => (ref_trilinear n l + ref_bias n l)%Z
  end.

Variable gy : ndarray.

(** sum_n e1[n,j]*e2[n,k]*grad_y[n,l] *)
Definition ref_gW (N j k l : nat) : Z :=
  sum_upto N (fun n => (e1 n j * e2 n k * zat2 gy n l)%Z).
(** sum_n e1[n,j]*grad_y[n,l] *)
Definition ref_gV1 (N j l : nat) : Z :=
  sum_upto N (fun n => (e1 n j * zat2 gy n l)%Z).
(** sum_n e2[n,k]*grad_y[n,l] *)
Definition ref_gV2 (N k l : nat) : Z :=
  sum_upto N (fun n => (e2 n k * zat2 gy n l)%Z).
(** sum_n grad_y[n,l] *)
Definition ref_gb (N l : nat) : Z :=
  sum_upto N (fun n => zat2 gy n l).

(** grad_e1[n,j] = sum_k sum_l e2[n,k]*W[j,k,l]*grad_y[n,l]
    (+ sum_l grad_y[n,l]*V1[j,l]) *)
Definition ref_ge1 (n j : nat) : Z :=
  (sum_upto d2 (fun k => sum_upto out (fun l =>
     e2 n k * zat3 (W s) j k l * zat2 gy n l))
   + match b s with
     | None => 0
     | Some _ => sum_upto out (fun l => zat2 gy n l * zopt_at2 (V1 s) j l)
     end)%Z.

(** grad_e2[n,k] = sum_j sum_l e1[n,j]*W[j,k,l]*grad_y[n,l]
    (+ sum_l grad_y[n,l]*V2[k,l]) *)
Definition ref_ge2 (n k : nat) : Z :=
  (sum_upto d1 (fun j => sum_upto out (fun l =>
     e1 n j * zat3 (W s) j k l * zat2 gy n l))
   + match b s with
     | None => 0
     | Some _ => sum_upto out (fun l => zat2 gy n l * zopt_at2 (V2 s) k l)
     end)%Z.
End Reference.

(** ** What the passes compute, cell by cell

    The same contractions as floats: each sum of products is handed to the
    library routine [sop], each in-place addition is one float addition. *)

Section Cells.
Variables (sop : sum_of_products) (d1 d2 out : nat) (s : TensorNetwork)
  (x0 x1 : ndarray).

Let e1 := flat d1 x0.
Let e2 := flat d2 x1.

Definition fl_trilinear (n l : nat) : f32 :=
  sop (tab (d1 * d2) (fun q =>
    [e1 n (q / d2); e2 n (q mod d2); at3 (W s) (q / d2) (q mod d2) l])).

Definition fl_forward (n l : nat) : f32 :=
  match b s with
  | None => fl_trilinear n l
  | Some bv =>
      fadd
        (fadd
           (fadd (fl_trilinear n l)
              (sop (tab d1 (fun j => [e1 n j; opt_at2 (V1 s) j l]))))
           (sop (tab d2 (fun k => [e2 n k; opt_at2 (V2 s) k l]))))
        (at1 bv l)
  end.

Variable gy : ndarray.

Definition fl_gW (N j k l : nat) : f32 :=
  sop (tab N (fun n => [e1 n j; e2 n k; at2 gy n l])).
Definition fl_gV1 (N j l : nat) : f32 :=
  sop (tab N (fun n => [e1 n j; at2 gy n l])).
Definition fl_gV2 (N k l : nat) : f32 :=
  sop (tab N (fun n => [e2 n k; at2 gy n l])).
Definition fl_gb (N l : nat) : f32 :=
  sop (tab N (fun n => [at2 gy n l])).

Definition fl_ge1 (n j : nat) : f32 :=
  let t := sop (tab (d2 * out) (fun q =>
             [e2 n (q / out); at3 (W s) j (q / out) (q mod out);
              at2 gy n (q mod out)])) in
  match b s with
  | None => t
  | Some _ => fadd t (sop (tab out (fun l => [at2 gy n l; opt_at2 (V1 s) j l])))
  end.

Definition fl_ge2 (n k : nat) : f32 :=
  let t := sop (tab (d1 * out) (fun q =>
             [e1 n (q / out); at3 (W s) (q / out) k (q mod out);
              at2 gy n (q mod out)])) in
  match b s with
  | None => t
  | Some _ => fadd t (sop (tab out (fun l => [at2 gy n l; opt_at2 (V2 s) k l])))
  end.
End Cells.

(** ** What the device path computes, cell by cell

    The outer product is rounded first; the matrix product of the device
    library ([gemm]) then adds up products of two factors.  [add_dot] adds
    the bias products in front of what is there. *)

Section DeviceCells.
Variables (gemm : sum_of_products) (d1 d2 : nat) (s : TensorNetwork)
  (x0 x1 : ndarray).

Let e1 := flat d1 x0.
Let e2 := flat d2 x1.

Definition fl_outer (n q : nat) : f32 := fmul (e1 n (q / d2)) (e2 n (q mod d2)).

Definition fl_gpu_trilinear (n l : nat) : f32 :=
  gemm (tab (d1 * d2) (fun q =>
    [fl_outer n q; at3 (W s) (q / d2) (q mod d2) l])).

Definition fl_gpu (n l : nat) : f32 :=
  match b s with
  | None => fl_gpu_trilinear n l
  | Some bv =>
      fadd
        (fadd (gemm (tab d2 (fun k => [e2 n k; opt_at2 (V2 s) k l])))
           (fadd (gemm (tab d1 (fun j => [e1 n j; opt_at2 (V1 s) j l])))
              (fl_gpu_trilinear n l)))
        (at1 bv l)
  end.
End DeviceCells.

(** ** What one backward pass leaves in the accumulators *)

Section Accumulate.
Variables (sop : sum_of_products) (d1 d2 out N : nat) (x0 x1 gy : ndarray).

(** gW[j,k,l] + sum_n e1[n,j]*e2[n,k]*grad_y[n,l] *)
Definition acc_gW (g : ndarray) : ndarray :=
  mk_nd [d1; d2; out]
    (tab (d1 * d2 * out) (fun p =>
       fadd (nth p (data g) f0)
         (fl_gW sop d1 d2 x0 x1 gy N (p / (d2 * out)) (p / out mod d2) (p mod out)))).

(** gV1[j,l] + sum_n e1[n,j]*grad_y[n,l] *)
Definition acc_gV1 (g : ndarray) : ndarray :=
  mk_nd [d1; out]
    (tab (d1 * out) (fun p =>
       fadd (nth p (data g) f0) (fl_gV1 sop d1 x0 gy N (p / out) (p mod out)))).

(** gV2[k,l] + sum_n e2[n,k]*grad_y[n,l] *)
Definition acc_gV2 (g : ndarray) : ndarray :=
  mk_nd [d2; out]
    (tab (d2 * out) (fun p =>
       fadd (nth p (data g) f0) (fl_gV2 sop d2 x1 gy N (p / out) (p mod out)))).

(** gb[l] + sum_n grad_y[n,l] *)
Definition acc_gb (g : ndarray) : ndarray :=
  mk_nd [out] (tab out (fun l => fadd (nth l (data g) f0) (fl_gb sop gy N l))).

Definition accumulated (s : TensorNetwork) : TensorNetwork :=
  match b s with
  | None => set_gW (acc_gW (gW s)) s
  | Some _ =>
      set_gb (acc_gb <$> gb s)
        (set_gV2 (acc_gV2 <$> gV2 s)
           (set_gV1 (acc_gV1 <$> gV1 s)
              (set_gW (acc_gW (gW s)) s)))
  end.

(** The input gradients, as arrays. *)
Definition grad_x0 (s : TensorNetwork) : ndarray :=
  mk_nd [N; d1]
    (tab (N * d1) (fun p => fl_ge1 sop d2 out s x1 gy (p / d1) (p mod d1))).
Definition grad_x1 (s : TensorNetwork) : ndarray :=
  mk_nd [N; d2]
    (tab (N * d2) (fun p => fl_ge2 sop d1 out s x0 gy (p / d2) (p mod d2))).
End Accumulate.

(** ** Small integers

    Arrays of integers, and bounds under which every partial result of a
    pass stays below 2^24 in magnitude, whatever the order of the
    additions: there float32 arithmetic is exact. *)

Definition ints (x : ndarray) : bool := forallb is_int (data x).
Definition oints (o : option ndarray) : bool :=
  match o with Some a => ints a | None => true end.

(** The largest magnitude in an array, and at least 1. *)
Definition amax (x : ndarray) : Z :=
  foldr (fun v m => Z.max (Z.abs (zv v)) m) 1%Z (data x).
Definition oamax (o : option ndarray) : Z :=
  match o with Some a => amax a | None => 1%Z end.

(** The forward pass stays exact. *)
Definition fwd_small (d1 d2 : nat) (s : TensorNetwork) (x0 x1 : ndarray)
    : bool :=
  ints x0 && ints x1 && ints (W s)
  && oints (V1 s) && oints (V2 s) && oints (b s)
  && (Z.of_nat (d1 * d2) * amax x0 * amax x1 * amax (W s)
      + Z.of_nat d1 * amax x0 * oamax (V1 s)
      + Z.of_nat d2 * amax x1 * oamax (V2 s)
      + oamax (b s) <? 2 ^ 24)%Z.

(** The updates of the accumulators stay exact. *)
Definition acc_small (N : nat) (s : TensorNetwork) (x0 x1 gy : ndarray)
    : bool :=
  ints x0 && ints x1 && ints gy && ints (gW s)
  && oints (gV1 s) && oints (gV2 s) && oints (gb s)
  && (amax (gW s) + Z.of_nat N * amax x0 * amax x1 * amax gy <? 2 ^ 24)%Z
  && (oamax (gV1 s) + Z.of_nat N * amax x0 * amax gy <? 2 ^ 24)%Z
  && (oamax (gV2 s) + Z.of_nat N * amax x1 * amax gy <? 2 ^ 24)%Z
  && (oamax (gb s) + Z.of_nat N * amax gy <? 2 ^ 24)%Z.

(** The input gradients stay exact. *)
Definition grad_small (d1 d2 out : nat) (s : TensorNetwork)
    (x0 x1 gy : ndarray) : bool :=
  ints x0 && ints x1 && ints gy && ints (W s)
  && oints (V1 s) && oints (V2 s)
  && (Z.of_nat (d2 * out) * amax x1 * amax (W s) * amax gy
      + Z.of_nat out * amax gy * oamax (V1 s) <? 2 ^ 24)%Z
  && (Z.of_nat (d1 * out) * amax x0 * amax (W s) * amax gy
      + Z.of_nat out * amax gy * oamax (V2 s) <? 2 ^ 24)%Z.

(** A float that holds the integer [z]. *)
Definition holds (x : f32) (z : Z) : Prop := is_int x = true /\ zv x = z.

(** The cells of the accumulators of [s] are related by [R] to [fW], [f1],
    [f2] and [fb]; the last three are read only when the bias terms are
    present. *)
Definition grads_rel {A} (R : f32 -> A -> Prop) (d1 d2 out : nat)
    (s : TensorNetwork)
    (fW : nat -> nat -> nat -> A) (f1 f2 : nat -> nat -> A) (fb : nat -> A)
    : Prop :=
  (forall j k l, j < d1 -> k < d2 -> l < out -> R (at3 (gW s) j k l) (fW j k l))
  /\ (b s <> None ->
      (forall j l, j < d1 -> l < out -> R (opt_at2 (gV1 s) j l) (f1 j l))
      /\ (forall k l, k < d2 -> l < out -> R (opt_at2 (gV2 s) k l) (f2 k l))
      /\ (forall l, l < out -> R (opt_at1 (gb s) l) (fb l))).

(** The accumulators are these floats, or hold these integers. *)
Definition grads_eq := @grads_rel f32 eq.
Definition grads_are := @grads_rel Z holds.

(** [s'] has the parameters of [s]. *)
Definition same_params (s s' : TensorNetwork) : Prop :=
  W s' = W s /\ V1 s' = V1 s /\ V2 s' = V2 s /\ b s' = b s
  /\ in_shape s' = in_shape s.

(** The layer after [zero_grads]. *)
Definition zeroed (s : TensorNetwork) : TensorNetwork :=
  match gb s with
  | None => set_gW (fill0 (gW s)) s
  | Some _ =>
      set_gb (fill0 <$> gb s)
        (set_gV2 (fill0 <$> gV2 s)
           (set_gV1 (fill0 <$> gV1 s)
              (set_gW (fill0 (gW s)) s)))
  end.

(** The four accumulators of a layer. *)
Definition accumulators (s : TensorNetwork)
    : ndarray * option ndarray * option ndarray * option ndarray :=
  (gW s, gV1 s, gV2 s, gb s).

(** ** Linear combinations *)

(** [a*x + c*x'] for two arrays of one shape, as numpy computes it *)
Definition lincomb (a : f32) (x : ndarray) (c : f32) (x' : ndarray) : ndarray :=
  mk_nd (shape x)
    (zip_with (fun u v => fadd (fmul a u) (fmul c v)) (data x) (data x')).

(** The combination stays exact. *)
Definition lin_small (a : f32) (x : ndarray) (c : f32) (x' : ndarray) : bool :=
  small a && small c
  && forallb (fun '(u, v) =>
       small u && small v
       && (Z.abs (zv a * zv u) <? 2 ^ 24)%Z
       && (Z.abs (zv c * zv v) <? 2 ^ 24)%Z
       && (Z.abs (zv a * zv u + zv c * zv v) <? 2 ^ 24)%Z)
     (combine (data x) (data x')).

Definition zero_filled (x : ndarray) : bool := forallb is_zero (data x).

(** The bias terms are absent, or present and all zero. *)
Definition bias_vanishes (s : TensorNetwork) : bool :=
  match b s with
  | None => true
  | Some bv =>
      zero_filled bv
      && match V1 s with Some v => zero_filled v | None => false end
      && match V2 s with Some v => zero_filled v | None => false end
  end.

(** ** Layers that can come about *)

(** A layer is built by the constructor and then changed only by
    [zero_grads] and [backward_cpu] (whether or not the call raises). *)
Inductive reachable (sop : sum_of_products) : TensorNetwork -> Prop :=
  | reach_init in_shape out_size nobias initialW initial_bias rng junk s :
      __init__ in_shape out_size nobias initialW initial_bias rng junk = Ok s ->
      reachable sop s
  | reach_zero_grads s :
      reachable sop s -> reachable sop (zero_grads s).1
  | reach_backward_cpu x gy s :
      reachable sop s -> reachable sop (backward_cpu sop x gy s).1.

Definition all_zero (x : ndarray) : Prop := Forall (eq f0) (data x).
Definition opt_all_zero (o : option ndarray) : Prop :=
  match o with Some a => all_zero a | None => True end.
Definition opt_shape (o : option ndarray) : option (list nat) := shape <$> o.

(** What an updating method may do to a gradient buffer: keep it, with its
    shape, or, where there was none, leave one without elements. *)
Definition buffer_kept (o o' : option ndarray) : Prop :=
  match o, o' with
  | Some a, Some a' => shape a' = shape a
  | None, None => True
  | None, Some a' => data a' = [] /\ size a' = 0
  | Some _, None => False
  end.

(** ** Test layers and inputs *)

Module Examples.

(** An array of integers. *)
Definition from_ints (sh : list nat) (l : list Z) : ndarray :=
  mk_nd sh (map of_Z l).

Definition W322 : ndarray :=
  from_ints [3; 2; 2] [5; 7; 11; 13; 17; 19; 23; 29; 31; 37; 41; 43]%Z.
Definition V1_32 : ndarray := from_ints [3; 2] [1; 2; 3; 4; 5; 6]%Z.
Definition V2_22 : ndarray := from_ints [2; 2] [10; 20; 30; 40]%Z.
Definition b_2 : ndarray := from_ints [2] [100; 200]%Z.

Definition no_rng : nat -> f32 := fun _ => f0.
Definition junk7 : nat -> nat -> f32 :=
  fun k i => of_Z (7 + Z.of_nat k + Z.of_nat i).

(** A device whose memory holds 7, 8, ... and 9 outside the arrays, and
    whose matrix product adds from left to right. *)
Definition dev7 : device :=
  mk_dev junk7 (fun _ _ => of_Z 9) (fun _ => 0%Z) true sum_lr.

(** [TensorNetwork((3, 2), 2, nobias=True, initialW=W322)] *)
Definition plain : TensorNetwork :=
  mk_tn W322 (empty_like (junk7 0) W322) None None None None None None [3; 2].

(** [TensorNetwork((3, 2), 2, initialW=W322,
    initial_bias=(V1_32, V2_22, b_2))] *)
Definition biased : TensorNetwork :=
  mk_tn W322 (empty_like (junk7 0) W322)
    (Some V1_32) (Some (empty_like (junk7 1) V1_32))
    (Some V2_22) (Some (empty_like (junk7 2) V2_22))
    (Some b_2) (Some (empty_like (junk7 3) b_2))
    [3; 2].

(** [TensorNetwork((3, 2), 2, nobias=True, initialW=W322,
    initial_bias=(V1_32, V2_22, b_2))] *)
Definition lopsided : TensorNetwork :=
  mk_tn W322 (empty_like (junk7 0) W322)
    (Some V1_32) None (Some V2_22) None (Some b_2) None [3; 2].

(** [TensorNetwork((3, 2), 2, initialW=W322,
    initial_bias=(V2_22, V2_22, b_2))]: the first bias term has the shape
    (2, 2) where the layer needs (3, 2). *)
Definition misfit : TensorNetwork :=
  mk_tn W322 (empty_like (junk7 0) W322)
    (Some V2_22) (Some (empty_like (junk7 1) V2_22))
    (Some V2_22) (Some (empty_like (junk7 2) V2_22))
    (Some b_2) (Some (empty_like (junk7 3) b_2))
    [3; 2].

(** A batch of two samples and an output gradient for it. *)
Definition X0 : ndarray := from_ints [2; 3] [1; 0; 0; 1; 2; 3]%Z.
Definition X1 : ndarray := from_ints [2; 2] [1; 0; 4; 5]%Z.
Definition GY : ndarray := from_ints [2; 2] [1; 0; 2; 3]%Z.

(** An output gradient of shape (2, 1), for a layer with out = 2. *)
Definition GY_narrow : ndarray := from_ints [2; 1] [1; 2]%Z.

(** An output gradient of shape (2, 3). *)
Definition GY_wide : ndarray := from_ints [2; 3] [1; 2; 3; 4; 5; 6]%Z.

(** Two more inputs for the batch of two samples. *)
Definition X0' : ndarray := from_ints [2; 3] [2; -1; 0; 4; 0; 1]%Z.
Definition X1' : ndarray := from_ints [2; 2] [0; 3; -2; 1]%Z.

(** [TensorNetwork((3, 2), 2, initialW=W322)], the bias left at zero. *)
Definition zero_bias : TensorNetwork :=
  mk_tn W322 (empty_like (junk7 0) W322)
    (Some (zeros [3; 2])) (Some (empty_like (junk7 1) (zeros [3; 2])))
    (Some (zeros [2; 2])) (Some (empty_like (junk7 2) (zeros [2; 2])))
    (Some (zeros [2])) (Some (empty_like (junk7 3) (zeros [2])))
    [3; 2].

(** The first input of the batch given with shape (2, 1, 3). *)
Definition X0_rank3 : ndarray := from_ints [2; 1; 3] [1; 0; 0; 1; 2; 3]%Z.

(** The unit vectors of the concrete scenario. *)
Definition E1 : ndarray := from_ints [1; 3] [1; 0; 0]%Z.
Definition E2 : ndarray := from_ints [1; 2] [1; 0]%Z.

(** A batch without samples. *)
Definition X0_none : ndarray := mk_nd [0; 3] [].
Definition X1_none : ndarray := mk_nd [0; 2] [].
Definition GY_none : ndarray := mk_nd [0; 2] [].

(** One sample whose products leave the range in which float32 holds
    every integer: 4097 * 4097 = 2^24 + 8193. *)
Definition X0_4097 : ndarray := from_ints [1; 3] [4097; 0; 0]%Z.
Definition X1_4097 : ndarray := from_ints [1; 2] [4097; 0]%Z.
Definition X0_4096 : ndarray := from_ints [1; 3] [4096; 0; 0]%Z.
Definition X1_4096 : ndarray := from_ints [1; 2] [4096; 0]%Z.
Definition X0_1 : ndarray := from_ints [1; 3] [1; 0; 0]%Z.
Definition X1_1 : ndarray := from_ints [1; 2] [1; 0]%Z.
Definition GY_1 : ndarray := from_ints [1; 2] [1; 0]%Z.
Definition GY_4097 : ndarray := from_ints [1; 2] [4097; 0]%Z.

(** [TensorNetwork((0, 2), 2, nobias=True, initialW=W022,
    initial_bias=(V1_02, V2_22, b_2))]: the first input has no features. *)
Definition W022 : ndarray := mk_nd [0; 2; 2] [].
Definition V1_02 : ndarray := mk_nd [0; 2] [].
Definition hollow : TensorNetwork :=
  mk_tn W022 (empty_like (junk7 0) W022)
    (Some V1_02) None (Some V2_22) None (Some b_2) None [0; 2].

(** One sample for it. *)
Definition X0_hollow : ndarray := mk_nd [1; 0] [].

End Examples.

(** * Lemmas *)

(** ** Float arithmetic on small integers *)

Section FloatArithmetic.
Local Open Scope Z_scope.

Lemma digits2_size p : digits2_pos p = Pos.size p.
Proof. induction p; cbn; congruence. Qed.

Lemma digits2_log2 p : Zpos (digits2_pos p) = Z.succ (Z.log2 (Zpos p)).
Proof.
  rewrite digits2_size. destruct p; cbn [Z.log2 Pos.size];
    rewrite ?Pos2Z.inj_succ; reflexivity.
Qed.

Lemma iter_pos_iter {A} (f : A -> A) p x : SpecFloat.iter_pos f p x = Pos.iter f x p.
Proof.
  revert x. induction p as [p IH|p IH|]; intros x; cbn [SpecFloat.iter_pos Pos.iter].
  - rewrite !IH, <- !Pos.iter_swap. reflexivity.
  - rewrite !IH. reflexivity.
  - reflexivity.
Qed.

Lemma iter_xO q p : (Zpos (Pos.iter xO q p) = Zpos q * 2 ^ Zpos p)%Z.
Proof.
  induction p as [|p IH] using Pos.peano_ind.
  - cbn [Pos.iter]. lia.
  - rewrite Pos.iter_succ, Pos2Z.inj_succ, Z.pow_succ_r by lia.
    rewrite Pos2Z.inj_xO, IH. lia.
Qed.

(** Shifting out zeros loses nothing. *)
Lemma shr_exact q p :
  SpecFloat.iter_pos shr_1 p (Build_shr_record (Zpos (Pos.iter xO q p)) false false)
  = Build_shr_record (Zpos q) false false.
Proof.
  rewrite iter_pos_iter.
  induction p as [|p IH] using Pos.peano_ind.
  - reflexivity.
  - rewrite Pos.iter_succ at 1. rewrite Pos.iter_succ, <- Pos.iter_swap.
    cbn [shr_1 orb]. exact IH.
Qed.

Lemma digits2_shift m0 n :
  (0 <= n)%Z -> (Zdigits2 (Zpos m0 * 2 ^ n) = Zpos (digits2_pos m0) + n)%Z.
Proof.
  intros Hn.
  assert (H : (0 < Zpos m0 * 2 ^ n)%Z)
    by (apply Z.mul_pos_pos; [lia | apply Z.pow_pos_nonneg; lia]).
  destruct (Zpos m0 * 2 ^ n)%Z as [|p|p] eqn:E; try lia.
  cbn [Zdigits2]. rewrite !digits2_log2, <- E.
  rewrite Z.log2_mul_pow2 by lia. lia.
Qed.

Lemma shr_fexp_shift m0 e n :
  (0 <= n)%Z ->
  fexp 24 128 (Zpos (digits2_pos m0) + n + e) = (e + n)%Z ->
  shr_fexp 24 128 (Zpos m0 * 2 ^ n) e loc_Exact
  = (Build_shr_record (Zpos m0) false false, (e + n)%Z).
Proof.
  intros Hn Hf. unfold shr_fexp.
  rewrite digits2_shift, Hf by exact Hn.
  replace (e + n - e)%Z with n by lia.
  cbn [shr_record_of_loc].
  destruct n as [|p|p]; try lia.
  - rewrite Z.pow_0_r, Z.mul_1_r, Z.add_0_r. reflexivity.
  - unfold shr. rewrite <- iter_xO, shr_exact. reflexivity.
Qed.

(** An integer 0 < v < 2^24, given as m * 2^e with at least 24 digits in
    m, is rounded to itself. *)
Lemma round_exact s m e v :
  (0 < v < 2 ^ 24)%Z -> (e <= 0)%Z -> (Zpos m = v * 2 ^ (- e))%Z ->
  (24 <= Z.log2 v + 1 - e)%Z ->
  is_int (binary_round_aux 24 128 s (Zpos m) e loc_Exact) = true
  /\ zv (binary_round_aux 24 128 s (Zpos m) e loc_Exact) = cond_Zopp s v.
Proof.
  intros Hv He Hm Hd.
  set (dv := (Z.log2 v + 1)%Z) in *.
  assert (Hdv : (1 <= dv <= 24)%Z).
  { subst dv. pose proof (Z.log2_nonneg v).
    assert (Z.log2 v < 24)%Z by (apply Z.log2_lt_pow2; lia). lia. }
  set (n := (dv - 24 - e)%Z) in *.
  set (k := (24 - dv)%Z).
  assert (Hk : (0 <= k)%Z) by (subst k; lia).
  assert (Hpos : (0 < v * 2 ^ k)%Z)
    by (apply Z.mul_pos_pos; [lia | apply Z.pow_pos_nonneg; lia]).
  destruct (v * 2 ^ k)%Z as [|m0|m0] eqn:Em0; try lia.
  assert (Hd0 : Zpos (digits2_pos m0) = 24%Z).
  { rewrite digits2_log2, <- Em0, Z.log2_mul_pow2 by lia. subst k dv. lia. }
  assert (Hmm : (Zpos m = Zpos m0 * 2 ^ n)%Z).
  { rewrite Hm, <- Em0, <- Z.mul_assoc, <- Z.pow_add_r by (subst n; lia).
    do 2 f_equal. subst k n. lia. }
  assert (Hr : binary_round_aux 24 128 s (Zpos m) e loc_Exact
               = S754_finite s m0 (- k)).
  { unfold binary_round_aux. rewrite Hmm.
    rewrite (shr_fexp_shift m0 e n)
      by (subst n; try lia; rewrite Hd0; unfold fexp, emin; lia).
    cbn [shr_m loc_of_shr_record round_nearest_even].
    replace (Zpos m0) with (Zpos m0 * 2 ^ 0)%Z at 1
      by (rewrite Z.pow_0_r; lia).
    rewrite (shr_fexp_shift m0 (e + n) 0)
      by (try lia; rewrite Hd0; unfold fexp, emin; subst n; lia).
    cbn [shr_m].
    replace (e + n + 0)%Z with (- k)%Z by (subst n k; lia).
    destruct (Z.leb_spec (- k) (128 - 24)) as [_|]; [reflexivity | lia]. }
  rewrite Hr. cbn [is_int zv]. split.
  - unfold bounded, canonical_mantissa. rewrite Hd0.
    apply andb_true_intro; split; [apply andb_true_intro; split|].
    + apply Z.eqb_eq. unfold fexp, emin. lia.
    + apply Z.leb_le. lia.
    + apply orb_true_intro. right. apply Z.eqb_eq.
      rewrite Z.opp_involutive, <- Em0. apply Z.mod_mul.
      apply Z.pow_nonzero; lia.
  - f_equal. destruct (Z.ltb_spec (- k) 0).
    + rewrite Z.opp_involutive, <- Em0. apply Z.div_mul.
      apply Z.pow_nonzero; lia.
    + assert (k = 0%Z) as Hk0 by lia. rewrite <- Em0, Hk0. cbn. lia.
Qed.

Lemma shl_align_fst m e e' :
  (e' <= e)%Z -> (Zpos (shl_align m e e').1 = Zpos m * 2 ^ (e - e'))%Z.
Proof.
  intros H. unfold shl_align.
  destruct (e' - e)%Z as [|d|d] eqn:E; try lia; cbn [fst].
  - replace (e - e')%Z with 0%Z by lia. lia.
  - rewrite iter_xO. do 2 f_equal. lia.
Qed.

Lemma binary_round_exact s p e v :
  (0 < v < 2 ^ 24)%Z -> (e <= 0)%Z -> (Zpos p = v * 2 ^ (- e))%Z ->
  is_int (binary_round 24 128 s p e) = true
  /\ zv (binary_round 24 128 s p e) = cond_Zopp s v.
Proof.
  intros Hv He Hp. unfold binary_round.
  assert (Hd : (Zpos (digits2_pos p) = Z.log2 v + 1 - e)%Z).
  { rewrite digits2_log2, Hp, Z.log2_mul_pow2 by lia. lia. }
  assert (Hdv : (0 <= Z.log2 v < 24)%Z).
  { split; [apply Z.log2_nonneg | apply Z.log2_lt_pow2; lia]. }
  rewrite Hd.
  replace (fexp 24 128 (Z.log2 v + 1 - e + e)) with (Z.log2 v - 23)%Z
    by (unfold fexp, emin; lia).
  unfold shl_align.
  destruct (Z.log2 v - 23 - e)%Z as [|d|d] eqn:E.
  - apply (round_exact s p e v); try assumption; lia.
  - apply (round_exact s p e v); try assumption; lia.
  - apply (round_exact s _ (Z.log2 v - 23) v); try assumption; try lia.
    rewrite iter_xO, Hp, <- Z.mul_assoc, <- Z.pow_add_r by lia.
    do 2 f_equal. lia.
Qed.

Lemma binary_normalize_exact M e v :
  (Z.abs v < 2 ^ 24)%Z -> (e <= 0)%Z -> (M = v * 2 ^ (- e))%Z ->
  is_int (binary_normalize 24 128 M e false) = true
  /\ zv (binary_normalize 24 128 M e false) = v.
Proof.
  intros Hv He HM.
  assert (Hpw : (0 < 2 ^ (- e))%Z) by (apply Z.pow_pos_nonneg; lia).
  unfold binary_normalize. destruct M as [|p|p].
  - assert (v = 0%Z) by nia. subst v. split; reflexivity.
  - assert (0 < v)%Z by nia.
    apply (binary_round_exact false p e v); [lia | assumption | assumption].
  - assert (v < 0)%Z by nia.
    destruct (binary_round_exact true p e (- v)) as [H1 H2];
      [lia | assumption | lia |].
    split; [exact H1|]. rewrite H2. cbn. lia.
Qed.

(** What a float that holds a small integer looks like. *)
Lemma small_finite s m e :
  small (S754_finite s m e) = true ->
  (e <= 0)%Z
  /\ exists v, (0 < v < 2 ^ 24)%Z /\ (Zpos m = v * 2 ^ (- e))%Z
               /\ zv (S754_finite s m e) = cond_Zopp s v.
Proof.
  unfold small. intros H. apply andb_prop in H as [Hi Hb].
  apply Z.ltb_lt in Hb. cbn [is_int] in Hi.
  apply andb_prop in Hi as [Hbd Hdiv].
  unfold bounded, canonical_mantissa in Hbd.
  apply andb_prop in Hbd as [Hc Hle].
  apply Z.eqb_eq in Hc. apply Z.leb_le in Hle.
  pose proof (digits2_log2 m) as Hd.
  pose proof (Z.log2_spec (Zpos m) eq_refl) as [Hlo Hhi].
  cbn [zv] in *.
  assert (He : (e <= 0)%Z).
  { destruct (Z.ltb_spec e 0); [lia|].
    destruct (Z.eq_dec e 0); [lia|].
    exfalso.
    assert (Hdig : Z.log2 (Zpos m) = 23%Z) by (unfold fexp, emin in Hc; lia).
    rewrite Hdig in Hlo.
    assert (2 ^ 1 <= 2 ^ e)%Z by (apply Z.pow_le_mono_r; lia).
    assert (Habs : Z.abs (cond_Zopp s (Zpos m * 2 ^ e)) = (Zpos m * 2 ^ e)%Z).
    { destruct s; cbn [cond_Zopp]; nia. }
    rewrite Habs in Hb. change (2 ^ 23)%Z with 8388608%Z in Hlo. nia. }
  split; [exact He|].
  destruct (Z.ltb_spec e 0) as [Hneg|Hnn].
  - apply orb_prop in Hdiv as [Hdiv|Hdiv]; [apply Z.leb_le in Hdiv; lia|].
    apply Z.eqb_eq in Hdiv.
    assert (Hpw : (0 < 2 ^ (- e))%Z) by (apply Z.pow_pos_nonneg; lia).
    exists (Zpos m / 2 ^ (- e))%Z.
    assert (Hm : (Zpos m = Zpos m / 2 ^ (- e) * 2 ^ (- e))%Z).
    { pose proof (Z.div_mod (Zpos m) (2 ^ (- e))). lia. }
    assert (Hq : (0 < Zpos m / 2 ^ (- e))%Z) by nia.
    repeat split; try assumption.
    destruct s; cbn [cond_Zopp] in Hb; lia.
  - assert (e = 0%Z) as -> by lia.
    exists (Zpos m). rewrite Z.pow_0_r, Z.mul_1_r in *.
    cbn [Z.opp]. rewrite Z.pow_0_r, Z.mul_1_r.
    repeat split; try lia. destruct s; cbn [cond_Zopp] in Hb; lia.
Qed.

Lemma small_inv x :
  small x = true -> is_int x = true /\ (Z.abs (zv x) < 2 ^ 24)%Z.
Proof.
  unfold small. intros H. apply andb_prop in H as [H1 H2].
  apply Z.ltb_lt in H2. split; assumption.
Qed.

Lemma small_intro x :
  is_int x = true -> (Z.abs (zv x) < 2 ^ 24)%Z -> small x = true.
Proof.
  intros H1 H2. unfold small. rewrite H1. apply Z.ltb_lt. exact H2.
Qed.

(** The product of two small integers, when it is small, is exact. *)
Lemma fmul_exact x y :
  small x = true -> small y = true -> (Z.abs (zv x * zv y) < 2 ^ 24)%Z ->
  is_int (fmul x y) = true /\ zv (fmul x y) = (zv x * zv y)%Z.
Proof.
  intros Hx Hy Hb.
  destruct x as [sx|sx| |sx mx ex]; try discriminate;
    destruct y as [sy|sy| |sy my ey]; try discriminate;
    try (cbn; split; [reflexivity | lia]).
  destruct (small_finite _ _ _ Hx) as (Hex & vx & Hvx & Emx & Zx).
  destruct (small_finite _ _ _ Hy) as (Hey & vy & Hvy & Emy & Zy).
  rewrite Zx, Zy in *. unfold fmul, SFmul.
  assert (Hv : (0 < vx * vy < 2 ^ 24)%Z).
  { split; [nia|]. destruct sx, sy; cbn [cond_Zopp] in Hb; lia. }
  assert (Hm : (Zpos (mx * my) = vx * vy * 2 ^ (- (ex + ey)))%Z).
  { rewrite Pos2Z.inj_mul, Emx, Emy.
    replace (- (ex + ey))%Z with (- ex + - ey)%Z by lia.
    rewrite Z.pow_add_r by lia. ring. }
  assert (Hd : (24 <= Z.log2 (vx * vy) + 1 - (ex + ey))%Z).
  { assert (Z.log2 (Zpos (mx * my)) = (Z.log2 (vx * vy) - (ex + ey))%Z)
      by (rewrite Hm, Z.log2_mul_pow2 by lia; lia).
    assert (Hbx : is_int (S754_finite sx mx ex) = true) by (apply small_inv, Hx).
    assert (Hby : is_int (S754_finite sy my ey) = true) by (apply small_inv, Hy).
    cbn [is_int] in Hbx, Hby.
    apply andb_prop in Hbx as [Hbx _]. apply andb_prop in Hby as [Hby _].
    unfold bounded, canonical_mantissa in Hbx, Hby.
    apply andb_prop in Hbx as [Hbx _]. apply andb_prop in Hby as [Hby _].
    apply Z.eqb_eq in Hbx, Hby. rewrite digits2_log2 in Hbx, Hby.
    assert (Z.log2 (Zpos mx) + Z.log2 (Zpos my) <= Z.log2 (Zpos (mx * my)))%Z.
    { rewrite Pos2Z.inj_mul. apply Z.log2_mul_below; lia. }
    assert (Z.log2 (Zpos mx) = (Z.log2 vx - ex)%Z)
      by (rewrite Emx, Z.log2_mul_pow2 by lia; lia).
    assert (Z.log2 (Zpos my) = (Z.log2 vy - ey)%Z)
      by (rewrite Emy, Z.log2_mul_pow2 by lia; lia).
    pose proof (Z.log2_nonneg vx). pose proof (Z.log2_nonneg vy).
    unfold fexp, emin in Hbx, Hby. lia. }
  destruct (round_exact (xorb sx sy) (mx * my) (ex + ey) (vx * vy) Hv
              ltac:(lia) Hm Hd) as [H1 H2].
  split; [exact H1|]. rewrite H2. destruct sx, sy; cbn; lia.
Qed.

(** The sum of two small integers, when it is small, is exact. *)
Lemma fadd_exact x y :
  small x = true -> small y = true -> (Z.abs (zv x + zv y) < 2 ^ 24)%Z ->
  is_int (fadd x y) = true /\ zv (fadd x y) = (zv x + zv y)%Z.
Proof.
  intros Hx Hy Hb.
  destruct x as [sx|sx| |sx mx ex]; try discriminate;
    destruct y as [sy|sy| |sy my ey]; try discriminate.
  - destruct sx, sy; split; reflexivity.
  - split; [apply small_inv, Hy | reflexivity].
  - split; [apply small_inv, Hx | cbn [fadd SFadd zv]; lia].
  - destruct (small_finite _ _ _ Hx) as (Hex & vx & Hvx & Emx & Zx).
    destruct (small_finite _ _ _ Hy) as (Hey & vy & Hvy & Emy & Zy).
    rewrite Zx, Zy in *. unfold fadd, SFadd.
    apply binary_normalize_exact; [exact Hb | lia |].
    rewrite !shl_align_fst by lia. rewrite Emx, Emy.
    rewrite <- !Z.mul_assoc, <- !Z.pow_add_r by lia.
    replace (- ex + (ex - Z.min ex ey))%Z with (- Z.min ex ey)%Z by lia.
    replace (- ey + (ey - Z.min ex ey))%Z with (- Z.min ex ey)%Z by lia.
    destruct sx, sy; cbn [cond_Zopp]; ring.
Qed.

Lemma of_Z_exact z :
  (Z.abs z < 2 ^ 24)%Z -> is_int (of_Z z) = true /\ zv (of_Z z) = z.
Proof.
  intros H. unfold of_Z. apply binary_normalize_exact; [exact H | lia |].
  cbn. lia.
Qed.

(** Adding to 0.0, as the first pass after a reset does. *)
Lemma fadd_f0_l x :
  is_int x = true -> is_int (fadd f0 x) = true /\ zv (fadd f0 x) = zv x.
Proof. destruct x as [[|]| | |]; try discriminate; intros H; split; auto. Qed.

End FloatArithmetic.

(** ** Sums of products of small integers *)

Section SumsOfProducts.
Local Open Scope Z_scope.

Lemma wprod_pos t : 1 <= wprod t.
Proof.
  induction t as [|x t IH]; unfold wprod in *; cbn [foldr]; [lia | nia].
Qed.

Lemma zprod_le_wprod t : Z.abs (zprod t) <= wprod t.
Proof.
  induction t as [|x t IH]; unfold wprod, zprod in *; cbn [foldr]; [lia|].
  rewrite Z.abs_mul. pose proof (wprod_pos t) as H. unfold wprod in H. nia.
Qed.

Lemma weight_nonneg ts : 0 <= weight ts.
Proof.
  induction ts as [|t ts IH]; unfold weight in *; cbn [foldr]; [lia|].
  pose proof (wprod_pos t). lia.
Qed.

(** Multiplying on from left to right. *)
Lemma foldl_fmul_exact r : forall acc B,
  is_int acc = true -> Forall (fun x => is_int x = true) r ->
  Z.abs (zv acc) <= B -> 1 <= B -> B * wprod r < 2 ^ 24 ->
  is_int (foldl fmul acc r) = true
  /\ zv (foldl fmul acc r) = zv acc * zprod r.
Proof.
  induction r as [|y r IH]; intros acc B Ha Hr Hb HB Hw;
    cbn [foldl zprod wprod foldr] in *.
  - split; [exact Ha | lia].
  - apply Forall_cons in Hr as [Hy Hr].
    fold (wprod r) in Hw. fold (zprod r).
    pose proof (wprod_pos r) as Hp.
    set (wy := Z.max 1 (Z.abs (zv y))) in *.
    assert (Hwy : Z.abs (zv y) <= wy /\ 1 <= wy) by (subst wy; lia).
    assert (Hay : Z.abs (zv acc * zv y) <= B * wy)
      by (rewrite Z.abs_mul; nia).
    destruct (fmul_exact acc y) as [H1 H2].
    + apply small_intro; [exact Ha | nia].
    + apply small_intro; [exact Hy | nia].
    + nia.
    + destruct (IH (fmul acc y) (B * wy)) as [H3 H4];
        [exact H1 | exact Hr | rewrite H2; exact Hay | nia | nia |].
      split; [exact H3|]. rewrite H4, H2. ring.
Qed.

Lemma prod_lr_exact t :
  Forall (fun x => is_int x = true) t -> wprod t < 2 ^ 24 ->
  is_int (prod_lr t) = true /\ zv (prod_lr t) = zprod t.
Proof.
  intros Ht Hw. destruct t as [|x r]; [split; reflexivity|].
  apply Forall_cons in Ht as [Hx Hr]. cbn [prod_lr zprod foldr wprod] in *.
  fold (wprod r) in Hw. fold (zprod r).
  apply (foldl_fmul_exact r x (Z.max 1 (Z.abs (zv x)))); try assumption; lia.
Qed.

Lemma foldl_fadd_exact ts : forall acc B,
  is_int acc = true ->
  Forall (Forall (fun x => is_int x = true)) ts ->
  Z.abs (zv acc) <= B -> B + weight ts < 2 ^ 24 ->
  is_int (foldl (fun a t => fadd a (prod_lr t)) acc ts) = true
  /\ zv (foldl (fun a t => fadd a (prod_lr t)) acc ts) = zv acc + zsum ts.
Proof.
  induction ts as [|t ts IH]; intros acc B Ha Hts Hb Hw;
    cbn [foldl zsum weight foldr] in *.
  - split; [exact Ha | lia].
  - apply Forall_cons in Hts as [Ht Hts].
    fold (weight ts) in Hw. fold (zsum ts).
    pose proof (weight_nonneg ts) as Hn.
    pose proof (zprod_le_wprod t) as Hz.
    destruct (prod_lr_exact t Ht) as [P1 P2]; [lia|].
    destruct (fadd_exact acc (prod_lr t)) as [H1 H2].
    + apply small_intro; [exact Ha | lia].
    + apply small_intro; [exact P1 | lia].
    + rewrite P2. lia.
    + destruct (IH (fadd acc (prod_lr t)) (B + wprod t)) as [H3 H4];
        [exact H1 | exact Hts | rewrite H2, P2; lia | lia |].
      split; [exact H3|]. rewrite H4, H2, P2. ring.
Qed.

(** Adding up from left to right is exact on small integers. *)
Lemma sum_lr_exact : exact_on_small_integers sum_lr.
Proof.
  intros ts Hts Hw. unfold sum_lr.
  destruct (foldl_fadd_exact ts f0 0) as [H1 H2];
    [reflexivity | exact Hts | cbn; lia | lia |].
  split; [exact H1 | rewrite H2; reflexivity].
Qed.

End SumsOfProducts.

(** ** Buffers and sums *)

Lemma length_tab {A} n (f : nat -> A) : length (tab n f) = n.
Proof. unfold tab. rewrite length_map, length_seq. reflexivity. Qed.

Lemma nth_tab {A} n (f : nat -> A) i d : i < n -> nth i (tab n f) d = f i.
Proof.
  intros Hi. unfold tab.
  rewrite (nth_indep _ d (f 0)) by (rewrite length_map, length_seq; lia).
  rewrite map_nth, seq_nth by lia. reflexivity.
Qed.

Lemma tab_ext {A} n (f g : nat -> A) :
  (forall i, i < n -> f i = g i) -> tab n f = tab n g.
Proof.
  intros H. unfold tab. apply map_ext_in. intros i Hi.
  apply in_seq in Hi. apply H. lia.
Qed.

Lemma tab_S {A} n (f : nat -> A) : tab (S n) f = tab n f ++ [f n].
Proof. unfold tab. rewrite seq_S, map_app. reflexivity. Qed.

Lemma tab_nth n (l : list f32) : length l = n -> tab n (fun i => nth i l f0) = l.
Proof.
  intros <-. apply (nth_ext _ _ f0 f0).
  - apply length_tab.
  - intros i Hi. rewrite length_tab in Hi.
    rewrite nth_tab by exact Hi. reflexivity.
Qed.

Lemma sum_upto_ext n f g :
  (forall i, i < n -> f i = g i) -> sum_upto n f = sum_upto n g.
Proof.
  induction n as [|n IH]; intros H; simpl; [reflexivity|].
  rewrite IH, H by (intros; try apply H; lia). reflexivity.
Qed.

Lemma sum_upto_zero n : sum_upto n (fun _ => 0%Z) = 0%Z.
Proof. induction n as [|n IH]; simpl; lia. Qed.

Lemma sum_upto_plus n f g :
  sum_upto n (fun i => (f i + g i)%Z) = (sum_upto n f + sum_upto n g)%Z.
Proof. induction n as [|n IH]; simpl; lia. Qed.

Lemma sum_upto_scale n c f :
  sum_upto n (fun i => (c * f i)%Z) = (c * sum_upto n f)%Z.
Proof. induction n as [|n IH]; simpl; lia. Qed.

Lemma sum_upto_swap n m (f : nat -> nat -> Z) :
  sum_upto n (fun i => sum_upto m (fun j => f i j))
  = sum_upto m (fun j => sum_upto n (fun i => f i j)).
Proof.
  induction n as [|n IH]; simpl.
  - symmetry. apply sum_upto_zero.
  - rewrite IH, <- sum_upto_plus. reflexivity.
Qed.

Lemma sum_upto_bound n f B :
  (forall i, i < n -> (Z.abs (f i) <= B)%Z) ->
  (Z.abs (sum_upto n f) <= Z.of_nat n * B)%Z.
Proof.
  induction n as [|n IH]; intros H; simpl sum_upto; [lia|].
  assert (Z.abs (sum_upto n f) <= Z.of_nat n * B)%Z by (apply IH; intros; apply H; lia).
  assert (Z.abs (f n) <= B)%Z by (apply H; lia). lia.
Qed.

(** ** Index arithmetic *)

Lemma div_row n m l : l < m -> (n * m + l) / m = n.
Proof. intros H. rewrite Nat.div_add_l by lia. rewrite Nat.div_small; lia. Qed.

Lemma mod_row n m l : l < m -> (n * m + l) mod m = l.
Proof.
  intros H. rewrite Nat.add_comm, Nat.Div0.mod_add. apply Nat.mod_small, H.
Qed.

Lemma row_lt n m N l : n < N -> l < m -> n * m + l < N * m.
Proof. nia. Qed.

Lemma div_lt_rows p N m : p < N * m -> p / m < N.
Proof. intros H. apply Nat.Div0.div_lt_upper_bound. lia. Qed.

Lemma mod_lt_cols p N m : p < N * m -> p mod m < m.
Proof. intros H. apply Nat.mod_upper_bound. destruct m; lia. Qed.

Lemma row_decomp p m : p / m * m + p mod m = p.
Proof. pose proof (Nat.div_mod_eq p m). lia. Qed.

Lemma bix_lt d i : i < d -> bix d i = i.
Proof.
  intros H. unfold bix. destruct (Nat.eqb_spec d 1); [lia | reflexivity].
Qed.

Lemma bdim_same a : bdim a a = Ok a.
Proof. unfold bdim. rewrite Nat.eqb_refl. reflexivity. Qed.

Lemma sum_upto_app n m f :
  sum_upto (n + m) f = (sum_upto n f + sum_upto m (fun i => f (n + i)%nat))%Z.
Proof.
  induction m as [|m IH].
  - rewrite Nat.add_0_r. cbn. lia.
  - rewrite Nat.add_succ_r. cbn [sum_upto]. rewrite IH. lia.
Qed.

(** A sum over pairs in C order is a double sum. *)
Lemma sum_upto_pair a c (f : nat -> nat -> Z) :
  sum_upto (a * c) (fun q => f (q / c) (q mod c))
  = sum_upto a (fun j => sum_upto c (fun k => f j k)).
Proof.
  induction a as [|a IH]; [reflexivity|].
  replace (S a * c) with (a * c + c) by lia.
  rewrite sum_upto_app, IH. cbn [sum_upto]. f_equal.
  apply sum_upto_ext. intros k Hk.
  rewrite div_row, mod_row by assumption. reflexivity.
Qed.

(** ** Arrays of small integers *)

Section SmallArrays.
Local Open Scope Z_scope.

Lemma ints_nth x p : ints x = true -> is_int (nth p (data x) f0) = true.
Proof.
  unfold ints. revert p. induction (data x) as [|v l IH]; intros p H.
  - destruct p; reflexivity.
  - cbn in H. apply andb_prop in H as [Hv Hl].
    destruct p; [exact Hv | apply IH, Hl].
Qed.

Lemma amax_pos x : 1 <= amax x.
Proof. unfold amax. induction (data x) as [|v l IH]; cbn [foldr]; lia. Qed.

Lemma amax_nth x p : Z.abs (zv (nth p (data x) f0)) <= amax x.
Proof.
  unfold amax. revert p. induction (data x) as [|v l IH]; intros p.
  - destruct p; cbn; lia.
  - cbn [foldr]. destruct p; cbn [nth]; [lia|]. specialize (IH p). lia.
Qed.

Lemma oamax_pos o : 1 <= oamax o.
Proof. destruct o; [apply amax_pos | cbn; lia]. Qed.

Lemma oints_at2 o i j : oints o = true -> is_int (opt_at2 o i j) = true.
Proof. destruct o; [apply ints_nth | reflexivity]. Qed.

Lemma oamax_at2 o i j : Z.abs (zv (opt_at2 o i j)) <= oamax o.
Proof. destruct o; [apply amax_nth | cbn; lia]. Qed.

Lemma oints_at1 o l : oints o = true -> is_int (opt_at1 o l) = true.
Proof. destruct o; [apply ints_nth | reflexivity]. Qed.

Lemma oamax_at1 o l : Z.abs (zv (opt_at1 o l)) <= oamax o.
Proof. destruct o; [apply amax_nth | cbn; lia]. Qed.

(** *** What an exact routine returns on a list of terms *)

Lemma zsum_app ts t : zsum (ts ++ [t]) = zsum ts + zprod t.
Proof.
  unfold zsum. induction ts as [|u ts IH]; cbn [app foldr]; [lia|].
  rewrite IH. lia.
Qed.

Lemma weight_app ts t : weight (ts ++ [t]) = weight ts + wprod t.
Proof.
  unfold weight. induction ts as [|u ts IH]; cbn [app foldr]; [lia|].
  rewrite IH. lia.
Qed.

Lemma zsum_tab n f : zsum (tab n f) = sum_upto n (fun q => zprod (f q)).
Proof.
  induction n as [|n IH]; [reflexivity|].
  rewrite tab_S, zsum_app, IH. reflexivity.
Qed.

Lemma weight_tab n f B :
  (forall q, (q < n)%nat -> wprod (f q) <= B) ->
  weight (tab n f) <= Z.of_nat n * B.
Proof.
  induction n as [|n IH]; intros H; [cbn; lia|].
  rewrite tab_S, weight_app.
  assert (weight (tab n f) <= Z.of_nat n * B) by (apply IH; intros; apply H; lia).
  assert (wprod (f n) <= B) by (apply H; lia). lia.
Qed.

Lemma Forall_tab {A} (P : A -> Prop) n f :
  (forall q, (q < n)%nat -> P (f q)) -> Forall P (tab n f).
Proof.
  induction n as [|n IH]; intros H; [constructor|].
  rewrite tab_S. apply Forall_app. split.
  - apply IH. intros q Hq. apply H. lia.
  - constructor; [apply H; lia | constructor].
Qed.

Lemma sop_exact sop n f B :
  exact_on_small_integers sop ->
  (forall q, (q < n)%nat -> Forall (fun x => is_int x = true) (f q)) ->
  (forall q, (q < n)%nat -> wprod (f q) <= B) ->
  Z.of_nat n * B < 2 ^ 24 ->
  holds (sop (tab n f)) (sum_upto n (fun q => zprod (f q)))
  /\ Z.abs (sum_upto n (fun q => zprod (f q))) <= Z.of_nat n * B.
Proof.
  intros Hs Hi Hw Hb. split.
  - unfold holds. rewrite <- zsum_tab. apply Hs.
    + apply Forall_tab, Hi.
    + pose proof (weight_tab n f B Hw). lia.
  - apply sum_upto_bound. intros q Hq.
    pose proof (zprod_le_wprod (f q)). specialize (Hw q Hq). lia.
Qed.

Lemma wprod1 a A : Z.abs (zv a) <= A -> 1 <= A -> wprod [a] <= A.
Proof. unfold wprod. cbn [foldr]. lia. Qed.

Lemma wprod2 a c A C :
  Z.abs (zv a) <= A -> 1 <= A -> Z.abs (zv c) <= C -> 1 <= C ->
  wprod [a; c] <= A * C.
Proof. unfold wprod. cbn [foldr]. nia. Qed.

Lemma wprod3 a c d A C D :
  Z.abs (zv a) <= A -> 1 <= A -> Z.abs (zv c) <= C -> 1 <= C ->
  Z.abs (zv d) <= D -> 1 <= D ->
  wprod [a; c; d] <= A * C * D.
Proof.
  unfold wprod. cbn [foldr]. intros.
  assert (Z.max 1 (Z.abs (zv a)) <= A) by lia.
  assert (Z.max 1 (Z.abs (zv c)) <= C) by lia.
  assert (Z.max 1 (Z.abs (zv d)) <= D) by lia.
  assert (1 <= Z.max 1 (Z.abs (zv a))) by lia.
  assert (1 <= Z.max 1 (Z.abs (zv c))) by lia.
  assert (1 <= Z.max 1 (Z.abs (zv d))) by lia.
  rewrite Z.mul_1_r.
  transitivity (A * (Z.max 1 (Z.abs (zv c)) * Z.max 1 (Z.abs (zv d)))); [nia|].
  transitivity (A * (C * Z.max 1 (Z.abs (zv d)))); nia.
Qed.

Lemma holds_small x z : holds x z -> Z.abs z < 2 ^ 24 -> small x = true.
Proof. intros [H1 <-] H2. apply small_intro; assumption. Qed.

Lemma holds_fadd x y a c :
  holds x a -> holds y c ->
  Z.abs a < 2 ^ 24 -> Z.abs c < 2 ^ 24 -> Z.abs (a + c) < 2 ^ 24 ->
  holds (fadd x y) (a + c).
Proof.
  intros Hx Hy Ha Hc Hac.
  pose proof (holds_small _ _ Hx Ha). pose proof (holds_small _ _ Hy Hc).
  destruct Hx as [_ <-], Hy as [_ <-]. apply fadd_exact; assumption.
Qed.

End SmallArrays.

(** ** The numpy operations on operands of matching shapes *)

Lemma has_shape_inv sh x :
  has_shape sh x = true -> shape x = sh /\ length (data x) = prod sh.
Proof.
  unfold has_shape, wfb, size. intros H.
  apply andb_prop in H as [H1 H2].
  apply bool_decide_eq_true in H1. apply Nat.eqb_eq in H2.
  subst sh. split; [reflexivity | exact H2].
Qed.

Lemma opt_has_shape_inv sh o :
  opt_has_shape sh o = true ->
  exists a, o = Some a /\ shape a = sh /\ length (data a) = prod sh.
Proof.
  destruct o as [a|]; simpl; [|discriminate].
  intros H. exists a. split; [reflexivity | apply has_shape_inv, H].
Qed.

Lemma as_mat_ok x N rest :
  shape x = N :: rest -> 0 < N ->
  _as_mat x = Ok (mk_nd [N; prod rest] (data x)).
Proof.
  intros Hs HN. unfold _as_mat, reshape, size. rewrite Hs.
  destruct (Nat.eqb_spec N 0) as [|_]; [lia|].
  cbn [prod foldr].
  replace (N * foldr Nat.mul 1 rest / N) with (foldr Nat.mul 1 rest)
    by (rewrite Nat.mul_comm, Nat.div_mul; lia).
  rewrite Nat.mul_1_r, Nat.eqb_refl. reflexivity.
Qed.

Lemma as_mat_empty x rest :
  shape x = 0 :: rest -> _as_mat x = Err ZeroDivisionError.
Proof. intros Hs. unfold _as_mat. rewrite Hs. reflexivity. Qed.

Lemma einsum_fwd_ok sop a c w N d1 d2 out :
  shape a = [N; d1] -> shape c = [N; d2] -> shape w = [d1; d2; out] ->
  einsum_ij_ik_jkl_il sop a c w
  = Ok (mk_nd [N; out]
          (tab (N * out) (fun p =>
             sop (tab (d1 * d2) (fun q =>
               [at2 a (p / out) (q / d2); at2 c (p / out) (q mod d2);
                at3 w (q / d2) (q mod d2) (p mod out)]))))).
Proof.
  intros Ha Hc Hw. unfold einsum_ij_ik_jkl_il. rewrite Ha, Hc, Hw.
  rewrite !bdim_same. cbn [rbind]. do 2 f_equal.
  apply tab_ext. intros p Hp.
  pose proof (div_lt_rows _ _ _ Hp). pose proof (mod_lt_cols _ _ _ Hp).
  cbv zeta. f_equal. apply tab_ext. intros q Hq.
  pose proof (div_lt_rows _ _ _ Hq). pose proof (mod_lt_cols _ _ _ Hq).
  unfold rd2, rd3, dim. rewrite Ha, Hc, Hw. cbn [nth].
  rewrite !bix_lt by assumption. reflexivity.
Qed.

Lemma einsum_gW_ok sop a c g N d1 d2 out :
  shape a = [N; d1] -> shape c = [N; d2] -> shape g = [N; out] ->
  einsum_ij_ik_il_jkl sop a c g
  = Ok (mk_nd [d1; d2; out]
          (tab (d1 * d2 * out) (fun p =>
             sop (tab N (fun n =>
               [at2 a n (p / (d2 * out)); at2 c n (p / out mod d2);
                at2 g n (p mod out)]))))).
Proof.
  intros Ha Hc Hg. unfold einsum_ij_ik_il_jkl. rewrite Ha, Hc, Hg.
  rewrite !bdim_same. cbn [rbind]. rewrite bdim_same. cbn [rbind].
  do 2 f_equal. apply tab_ext. intros p Hp.
  assert (p / (d2 * out) < d1)
    by (apply Nat.Div0.div_lt_upper_bound; lia).
  assert (p mod out < out) by (apply Nat.mod_upper_bound; destruct out; lia).
  assert (p / out mod d2 < d2) by (apply Nat.mod_upper_bound; destruct d2; lia).
  cbv zeta. f_equal. apply tab_ext. intros n Hn.
  unfold rd2, dim. rewrite Ha, Hc, Hg. cbn [nth].
  rewrite !bix_lt by assumption. reflexivity.
Qed.

Lemma einsum_ge1_ok sop c w g N d1 d2 out :
  shape c = [N; d2] -> shape w = [d1; d2; out] -> shape g = [N; out] ->
  einsum_ik_jkl_il_ij sop c w g
  = Ok (mk_nd [N; d1]
          (tab (N * d1) (fun p =>
             sop (tab (d2 * out) (fun q =>
               [at2 c (p / d1) (q / out); at3 w (p mod d1) (q / out) (q mod out);
                at2 g (p / d1) (q mod out)]))))).
Proof.
  intros Hc Hw Hg. unfold einsum_ik_jkl_il_ij. rewrite Hc, Hw, Hg.
  rewrite !bdim_same. cbn [rbind]. do 2 f_equal.
  apply tab_ext. intros p Hp.
  pose proof (div_lt_rows _ _ _ Hp). pose proof (mod_lt_cols _ _ _ Hp).
  cbv zeta. f_equal. apply tab_ext. intros q Hq.
  pose proof (div_lt_rows _ _ _ Hq). pose proof (mod_lt_cols _ _ _ Hq).
  unfold rd2, rd3, dim. rewrite Hc, Hw, Hg. cbn [nth].
  rewrite !bix_lt by assumption. reflexivity.
Qed.

Lemma einsum_ge2_ok sop a w g N d1 d2 out :
  shape a = [N; d1] -> shape w = [d1; d2; out] -> shape g = [N; out] ->
  einsum_ij_jkl_il_ik sop a w g
  = Ok (mk_nd [N; d2]
          (tab (N * d2) (fun p =>
             sop (tab (d1 * out) (fun q =>
               [at2 a (p / d2) (q / out); at3 w (q / out) (p mod d2) (q mod out);
                at2 g (p / d2) (q mod out)]))))).
Proof.
  intros Ha Hw Hg. unfold einsum_ij_jkl_il_ik. rewrite Ha, Hw, Hg.
  rewrite !bdim_same. cbn [rbind]. do 2 f_equal.
  apply tab_ext. intros p Hp.
  pose proof (div_lt_rows _ _ _ Hp). pose proof (mod_lt_cols _ _ _ Hp).
  cbv zeta. f_equal. apply tab_ext. intros q Hq.
  pose proof (div_lt_rows _ _ _ Hq). pose proof (mod_lt_cols _ _ _ Hq).
  unfold rd2, rd3, dim. rewrite Ha, Hw, Hg. cbn [nth].
  rewrite !bix_lt by assumption. reflexivity.
Qed.

(** The product of two matrices. *)
Lemma dot_2d sop a c n K m :
  shape a = [n; K] -> shape c = [K; m] ->
  dot sop a c
  = Ok (mk_nd [n; m]
          (tab (n * m) (fun r =>
             sop (tab K (fun k => [at2 a (r / m) k; at2 c k (r mod m)]))))).
Proof.
  intros Ha Hc. unfold dot. rewrite Ha, Hc.
  cbn [List.last removelast app prod foldr].
  rewrite Nat.eqb_refl, Nat.mul_1_r, Nat.mul_1_l. do 2 f_equal.
  apply tab_ext. intros r Hr. f_equal.
  apply tab_ext. intros k Hk.
  unfold at2, dim. rewrite Ha, Hc. cbn [nth].
  rewrite Nat.mod_1_r. reflexivity.
Qed.

(** The transpose of a matrix. *)
Lemma transpose_2d a n m :
  shape a = [n; m] ->
  transpose a = mk_nd [m; n] (tab (n * m) (fun p => at2 a (p mod n) (p / n))).
Proof.
  intros Ha. unfold transpose, size. rewrite Ha.
  cbn [rev app prod foldr unravel ravel].
  rewrite !Nat.mul_1_r. f_equal. apply tab_ext. intros p Hp.
  unfold at2, dim. rewrite Ha. cbn [nth].
  rewrite Nat.div_1_r. f_equal. lia.
Qed.

Lemma sum0_2d sop g N m :
  shape g = [N; m] ->
  sum0 sop g
  = Ok (mk_nd [m] (tab m (fun l => sop (tab N (fun n => [at2 g n l]))))).
Proof.
  intros Hg. unfold sum0, at2, dim. rewrite Hg. cbn [prod foldr nth].
  rewrite !Nat.mul_1_r. reflexivity.
Qed.

(** In-place addition *)

Lemma ravel_unravel sh p :
  p < prod sh -> ravel sh (zip_with bix sh (unravel sh p)) = p.
Proof.
  revert p. induction sh as [|d rest IH]; intros p Hp; cbn in *.
  - lia.
  - fold (prod rest) in *.
    assert (0 < prod rest) by (destruct (prod rest); lia).
    rewrite bix_lt by (apply Nat.Div0.div_lt_upper_bound; lia).
    rewrite IH by (apply Nat.mod_upper_bound; lia).
    apply row_decomp.
Qed.

Lemma broadcastable_refl sh : broadcastable sh sh = true.
Proof.
  unfold broadcastable. rewrite Nat.leb_refl, Nat.sub_diag. cbn [drop andb].
  induction sh as [|d rest IH]; cbn; [reflexivity|].
  rewrite Nat.eqb_refl. exact IH.
Qed.

Lemma iadd_same a c sh :
  shape a = sh -> shape c = sh ->
  iadd a c
  = Ok (mk_nd sh
          (tab (prod sh) (fun p => fadd (nth p (data a) f0) (nth p (data c) f0)))).
Proof.
  intros Ha Hc. unfold iadd, size. rewrite Ha, Hc, broadcastable_refl.
  do 2 f_equal. apply tab_ext. intros p Hp.
  cbv zeta. rewrite Nat.sub_diag, drop_0, ravel_unravel by exact Hp.
  reflexivity.
Qed.

Lemma iadd_row a c n m :
  shape a = [n; m] -> shape c = [m] ->
  iadd a c
  = Ok (mk_nd [n; m]
          (tab (n * m) (fun p =>
             fadd (nth p (data a) f0) (nth (p mod m) (data c) f0)))).
Proof.
  intros Ha Hc. unfold iadd, size, broadcastable. rewrite Ha, Hc.
  cbn. rewrite Nat.eqb_refl. cbn. rewrite !Nat.mul_1_r.
  do 2 f_equal. apply tab_ext. intros p Hp.
  change (Nat.divmod (p mod m) 0 0 0).1 with (p mod m / 1).
  rewrite Nat.div_1_r, Nat.add_0_r, Nat.mul_1_r.
  rewrite bix_lt by (eapply mod_lt_cols; eassumption). reflexivity.
Qed.

(** Reads of a tabulated matrix or tensor. *)
Lemma at2_tab N m f n l :
  n < N -> l < m ->
  at2 (mk_nd [N; m] (tab (N * m) f)) n l = f (n * m + l).
Proof.
  intros Hn Hl. unfold at2, dim. cbn [shape data nth].
  apply nth_tab, row_lt; assumption.
Qed.

Lemma at3_tab d1 d2 out f j k l :
  j < d1 -> k < d2 -> l < out ->
  at3 (mk_nd [d1; d2; out] (tab (d1 * d2 * out) f)) j k l
  = f ((j * d2 + k) * out + l).
Proof.
  intros Hj Hk Hl. unfold at3, dim. cbn [shape data nth].
  apply nth_tab. apply row_lt; [apply row_lt|]; assumption.
Qed.

Lemma at1_tab m f l : l < m -> at1 (mk_nd [m] (tab m f)) l = f l.
Proof. intros Hl. unfold at1. cbn [data]. apply nth_tab, Hl. Qed.

(** What a batch that passes the type check looks like. *)
Lemma valid_batch_inv d1 d2 out s N x0 x1 :
  params_ok d1 d2 out s = true -> valid_batch s N x0 x1 = true ->
  exists r0 r1,
    shape x0 = N :: r0 /\ shape x1 = N :: r1
    /\ prod r0 = d1 /\ prod r1 = d2
    /\ length (data x0) = N * d1 /\ length (data x1) = N * d2.
Proof.
  unfold params_ok, valid_batch, check_type_forward, wfb, size, dim.
  intros Hp Hv.
  apply andb_prop in Hp as [Hp _]. apply andb_prop in Hp as [Hin _].
  apply bool_decide_eq_true in Hin. rewrite Hin in Hv. cbn [nth length] in Hv.
  repeat (apply andb_prop in Hv as [Hv ?]).
  destruct (shape x0) as [|n0 r0] eqn:E0; [cbn in *; discriminate|].
  destruct (shape x1) as [|n1 r1] eqn:E1.
  { cbn in *. rewrite !andb_false_r in *. discriminate. }
  cbn [nth tail length Nat.eqb Nat.leb] in *.
  destruct (_ && _) eqn:Hc in H0; [|discriminate].
  repeat (apply andb_prop in Hc as [Hc ?]).
  destruct (_ && _) eqn:Hd in H0; [|discriminate].
  apply andb_prop in Hd as [Hd1 Hd2].
  repeat match goal with
         | H : (_ =? _) = true |- _ => apply Nat.eqb_eq in H
         end.
  subst. exists r0, r1. cbn [prod foldr] in *. fold (prod r0) in *. fold (prod r1) in *.
  repeat split; try reflexivity; try congruence; lia.
Qed.

(** ** The CPU forward pass *)

Lemma params_ok_inv d1 d2 out s :
  params_ok d1 d2 out s = true ->
  in_shape s = [d1; d2]
  /\ shape (W s) = [d1; d2; out] /\ length (data (W s)) = d1 * d2 * out
  /\ match b s with
     | None => True
     | Some bv =>
         shape bv = [out] /\ length (data bv) = out
         /\ exists v1 v2,
              V1 s = Some v1 /\ V2 s = Some v2
              /\ shape v1 = [d1; out] /\ length (data v1) = d1 * out
              /\ shape v2 = [d2; out] /\ length (data v2) = d2 * out
     end.
Proof.
  unfold params_ok. intros H.
  apply andb_prop in H as [H Hb]. apply andb_prop in H as [Hin HW].
  apply bool_decide_eq_true in Hin. apply has_shape_inv in HW as [HW1 HW2].
  cbn [prod foldr] in HW2.
  repeat split; [assumption | assumption | lia |].
  destruct (b s) as [bv|]; [|exact I].
  apply andb_prop in Hb as [Hb H2]. apply andb_prop in Hb as [Hb H1].
  apply has_shape_inv in Hb as [Hb1 Hb2].
  apply opt_has_shape_inv in H1 as (v1 & E1 & S1 & L1).
  apply opt_has_shape_inv in H2 as (v2 & E2 & S2 & L2).
  cbn [prod foldr] in *.
  repeat split; [assumption | lia |].
  exists v1, v2. repeat split; try assumption; lia.
Qed.

Lemma at2_flat N d x n j : at2 (mk_nd [N; d] (data x)) n j = flat d x n j.
Proof. reflexivity. Qed.

(** The array [forward_cpu] returns, cell by cell. *)
Lemma forward_cpu_value sop d1 d2 out N s x0 x1 :
  params_ok d1 d2 out s = true -> valid_batch s N x0 x1 = true -> 0 < N ->
  forward_cpu sop s [x0; x1]
  = Ok [mk_nd [N; out]
          (tab (N * out)
             (fun p => fl_forward sop d1 d2 s x0 x1 (p / out) (p mod out)))].
Proof.
  intros Hp Hv HN.
  destruct (valid_batch_inv _ _ _ _ _ _ _ Hp Hv)
    as (r0 & r1 & S0 & S1 & P0 & P1 & L0 & L1).
  destruct (params_ok_inv _ _ _ _ Hp) as (Hin & SW & LW & Hb).
  unfold forward_cpu. cbn [item lookup list_lookup rbind].
  rewrite (as_mat_ok _ _ _ S0 HN), (as_mat_ok _ _ _ S1 HN), P0, P1.
  cbn [rbind].
  rewrite (einsum_fwd_ok _ _ _ _ N d1 d2 out) by (reflexivity || assumption).
  cbn [rbind]. unfold fl_forward, fl_trilinear.
  destruct (b s) as [bv|] eqn:Eb; [|reflexivity].
  destruct Hb as (Sb & Lb & v1 & v2 & E1 & E2 & Sv1 & Lv1 & Sv2 & Lv2).
  rewrite E1, E2. cbn [dot_attr rbind].
  rewrite (dot_2d _ _ _ N d1 out) by (reflexivity || assumption). cbn [rbind].
  rewrite (iadd_same _ _ [N; out]) by reflexivity. cbn [rbind prod foldr data].
  rewrite (dot_2d _ _ _ N d2 out) by (reflexivity || assumption). cbn [rbind].
  rewrite (iadd_same _ _ [N; out]) by reflexivity. cbn [rbind prod foldr data].
  rewrite (iadd_row _ _ N out) by (reflexivity || assumption).
  cbn [rbind data]. rewrite !Nat.mul_1_r. do 3 f_equal.
  apply tab_ext. intros p Hp'.
  rewrite !nth_tab by assumption. reflexivity.
Qed.

(** *** Contractions of arrays of small integers *)

Section ExactContractions.
Local Open Scope Z_scope.
Variable sop : sum_of_products.
Hypothesis Hsop : exact_on_small_integers sop.

Lemma sop3_exact n (a c d : nat -> f32) A C D :
  (forall q, is_int (a q) = true /\ Z.abs (zv (a q)) <= A) ->
  (forall q, is_int (c q) = true /\ Z.abs (zv (c q)) <= C) ->
  (forall q, is_int (d q) = true /\ Z.abs (zv (d q)) <= D) ->
  1 <= A -> 1 <= C -> 1 <= D ->
  Z.of_nat n * (A * C * D) < 2 ^ 24 ->
  holds (sop (tab n (fun q => [a q; c q; d q])))
    (sum_upto n (fun q => zv (a q) * zv (c q) * zv (d q)))
  /\ Z.abs (sum_upto n (fun q => zv (a q) * zv (c q) * zv (d q)))
     <= Z.of_nat n * (A * C * D).
Proof.
  intros Ha Hc Hd HA HC HD Hb.
  rewrite (sum_upto_ext n _ (fun q => zprod [a q; c q; d q]))
    by (intros; unfold zprod; cbn [foldr]; ring).
  apply sop_exact; try assumption.
  - intros q _. repeat constructor; [apply Ha | apply Hc | apply Hd].
  - intros q _. apply wprod3; try assumption;
      [apply Ha | apply Hc | apply Hd].
Qed.

Lemma sop2_exact n (a c : nat -> f32) A C :
  (forall q, is_int (a q) = true /\ Z.abs (zv (a q)) <= A) ->
  (forall q, is_int (c q) = true /\ Z.abs (zv (c q)) <= C) ->
  1 <= A -> 1 <= C ->
  Z.of_nat n * (A * C) < 2 ^ 24 ->
  holds (sop (tab n (fun q => [a q; c q])))
    (sum_upto n (fun q => zv (a q) * zv (c q)))
  /\ Z.abs (sum_upto n (fun q => zv (a q) * zv (c q))) <= Z.of_nat n * (A * C).
Proof.
  intros Ha Hc HA HC Hb.
  rewrite (sum_upto_ext n _ (fun q => zprod [a q; c q]))
    by (intros; unfold zprod; cbn [foldr]; ring).
  apply sop_exact; try assumption.
  - intros q _. repeat constructor; [apply Ha | apply Hc].
  - intros q _. apply wprod2; try assumption; [apply Ha | apply Hc].
Qed.

Lemma sop1_exact n (a : nat -> f32) A :
  (forall q, is_int (a q) = true /\ Z.abs (zv (a q)) <= A) ->
  1 <= A ->
  Z.of_nat n * A < 2 ^ 24 ->
  holds (sop (tab n (fun q => [a q]))) (sum_upto n (fun q => zv (a q)))
  /\ Z.abs (sum_upto n (fun q => zv (a q))) <= Z.of_nat n * A.
Proof.
  intros Ha HA Hb.
  rewrite (sum_upto_ext n _ (fun q => zprod [a q]))
    by (intros; unfold zprod; cbn [foldr]; ring).
  apply sop_exact; try assumption.
  - intros q _. repeat constructor. apply Ha.
  - intros q _. apply wprod1; try assumption. apply Ha.
Qed.

(** A cell of an array of integers, with the bound of the array. *)
Lemma cell_ok x p :
  ints x = true ->
  is_int (nth p (data x) f0) = true /\ Z.abs (zv (nth p (data x) f0)) <= amax x.
Proof. intros H. split; [apply ints_nth, H | apply amax_nth]. Qed.

Lemma ocell2_ok o i j :
  oints o = true ->
  is_int (opt_at2 o i j) = true /\ Z.abs (zv (opt_at2 o i j)) <= oamax o.
Proof. intros H. split; [apply oints_at2, H | apply oamax_at2]. Qed.

Lemma ocell1_ok o l :
  oints o = true ->
  is_int (opt_at1 o l) = true /\ Z.abs (zv (opt_at1 o l)) <= oamax o.
Proof. intros H. split; [apply oints_at1, H | apply oamax_at1]. Qed.

(** The forward pass on small integers is the reference formula. *)
Lemma fl_forward_exact d1 d2 s x0 x1 n l :
  fwd_small d1 d2 s x0 x1 = true ->
  holds (fl_forward sop d1 d2 s x0 x1 n l) (ref_forward d1 d2 s x0 x1 n l).
Proof.
  unfold fwd_small. intros H.
  apply andb_prop in H as [H Hbud]. apply andb_prop in H as [H Ib].
  apply andb_prop in H as [H I2]. apply andb_prop in H as [H I1].
  apply andb_prop in H as [H IW]. apply andb_prop in H as [Ix0 Ix1].
  apply Z.ltb_lt in Hbud.
  pose proof (amax_pos x0) as PA. pose proof (amax_pos x1) as PB.
  pose proof (amax_pos (W s)) as PC. pose proof (oamax_pos (V1 s)) as PC1.
  pose proof (oamax_pos (V2 s)) as PC2. pose proof (oamax_pos (b s)) as PCb.
  set (A := amax x0) in *. set (B := amax x1) in *. set (C := amax (W s)) in *.
  set (C1 := oamax (V1 s)) in *. set (C2 := oamax (V2 s)) in *.
  set (Cb := oamax (b s)) in *.
  assert (Hn1 : 0 <= Z.of_nat d1 * A * C1) by nia.
  assert (Hn2 : 0 <= Z.of_nat d2 * B * C2) by nia.
  assert (Hn3 : 0 <= Z.of_nat (d1 * d2) * A * B * C) by nia.
  destruct (sop3_exact (d1 * d2)
              (fun q => flat d1 x0 n (q / d2)%nat)
              (fun q => flat d2 x1 n (q mod d2)%nat)
              (fun q => at3 (W s) (q / d2)%nat (q mod d2)%nat l) A B C)
    as [Ht Bt]; try assumption; try lia;
    try (intros q; apply cell_ok; assumption).
  rewrite (sum_upto_pair d1 d2
             (fun j k => zv (flat d1 x0 n j) * zv (flat d2 x1 n k)
                         * zv (at3 (W s) j k l))) in Ht, Bt.
  change (sum_upto d1 _) with (ref_trilinear d1 d2 s x0 x1 n l) in Ht, Bt.
  change (sop (tab (d1 * d2) _)) with (fl_trilinear sop d1 d2 s x0 x1 n l) in Ht.
  unfold fl_forward, ref_forward.
  destruct (b s) as [bv|] eqn:Eb; [|exact Ht].
  destruct (sop2_exact d1
              (fun j => flat d1 x0 n j) (fun j => opt_at2 (V1 s) j l) A C1)
    as [H1 B1]; try assumption; try lia;
    try (intros q; apply cell_ok; assumption);
    try (intros q; apply ocell2_ok; assumption).
  destruct (sop2_exact d2
              (fun k => flat d2 x1 n k) (fun k => opt_at2 (V2 s) k l) B C2)
    as [H2 B2]; try assumption; try lia;
    try (intros q; apply cell_ok; assumption);
    try (intros q; apply ocell2_ok; assumption).
  destruct (ocell1_ok (Some bv) l Ib) as [J1 J2].
  cbn [opt_at1] in J1, J2. subst Cb. cbn [oamax] in *.
  set (t := ref_trilinear d1 d2 s x0 x1 n l) in *.
  set (u1 := sum_upto d1 _) in H1, B1.
  set (u2 := sum_upto d2 _) in H2, B2.
  assert (Hr : ref_bias d1 d2 s x0 x1 n l = u1 + u2 + zv (at1 bv l)).
  { unfold ref_bias. rewrite Eb. reflexivity. }
  rewrite Hr.
  replace (t + (u1 + u2 + zv (at1 bv l))) with (t + u1 + u2 + zv (at1 bv l))
    by ring.
  apply holds_fadd; [apply holds_fadd; [apply holds_fadd|..]|..];
    try assumption; try (split; [assumption | reflexivity]); lia.
Qed.

End ExactContractions.

(** C1, amended.  On a layer whose parameters have the shapes of the data
    model, for every valid batch of N >= 1 samples, [forward_cpu] returns
    one array y of shape (N, out).  Its cells are the float32 evaluation
    ([fl_forward]) of y[n,l] = sum_j sum_k e1[n,j]*e2[n,k]*W[j,k,l], to
    which, when the bias terms are present, the float32 evaluations of
    sum_j e1[n,j]*V1[j,l] and of sum_k e2[n,k]*V2[k,l] and then b[l] are
    added: they equal that formula exactly whenever the inputs and the
    parameters hold integers small enough for every partial result to stay
    below 2^24 in magnitude ([fwd_small]).  In particular, on a layer with
    d1=3, d2=2, out=2, no bias and such a W, e1=[1,0,0] and e2=[1,0] give
    W[0,0,:]. *)
Theorem forward_cpu_reference :
  (forall sop d1 d2 out N s x0 x1,
     params_ok d1 d2 out s = true -> valid_batch s N x0 x1 = true -> 0 < N ->
     exists y,
       forward_cpu sop s [x0; x1] = Ok [y]
       /\ shape y = [N; out] /\ wf y
       /\ (forall n l, n < N -> l < out ->
             at2 y n l = fl_forward sop d1 d2 s x0 x1 n l)
       /\ (exact_on_small_integers sop -> fwd_small d1 d2 s x0 x1 = true ->
           forall n l, n < N -> l < out ->
             holds (at2 y n l) (ref_forward d1 d2 s x0 x1 n l)))
  /\ (forall sop s,
        params_ok 3 2 2 s = true -> b s = None ->
        exact_on_small_integers sop ->
        fwd_small 3 2 s Examples.E1 Examples.E2 = true ->
        exists y,
          forward_cpu sop s [Examples.E1; Examples.E2] = Ok [y]
          /\ shape y = [1; 2]
          /\ holds (at2 y 0 0) (zat3 (W s) 0 0 0)
          /\ holds (at2 y 0 1) (zat3 (W s) 0 0 1)).
Proof.
  split.
  - intros sop d1 d2 out N s x0 x1 Hp Hv HN.
    eexists. split; [apply (forward_cpu_value sop d1 d2 out N); assumption|].
    split; [reflexivity|]. split; [|split].
    + unfold wf, size. cbn [data shape prod foldr].
      rewrite length_tab. lia.
    + intros n l Hn Hl. rewrite at2_tab by assumption.
      rewrite div_row, mod_row by assumption. reflexivity.
    + intros Hs Hsm n l Hn Hl. rewrite at2_tab by assumption.
      rewrite div_row, mod_row by assumption.
      apply fl_forward_exact; assumption.
  - intros sop s Hp Hb Hs Hsm.
    assert (Hv : valid_batch s 1 Examples.E1 Examples.E2 = true).
    { destruct (params_ok_inv _ _ _ _ Hp) as (Hin & _).
      unfold valid_batch, check_type_forward. rewrite Hin. reflexivity. }
    eexists. split; [apply (forward_cpu_value sop 3 2 2 1); assumption || lia|].
    split; [reflexivity|].
    assert (Hr : forall l,
      ref_forward 3 2 s Examples.E1 Examples.E2 0 l = zat3 (W s) 0 0 l).
    { intros l. unfold ref_forward, ref_trilinear. rewrite Hb.
      cbn [sum_upto].
      change (zflat 3 Examples.E1 0 0) with 1%Z.
      change (zflat 3 Examples.E1 0 1) with 0%Z.
      change (zflat 3 Examples.E1 0 2) with 0%Z.
      change (zflat 2 Examples.E2 0 0) with 1%Z.
      change (zflat 2 Examples.E2 0 1) with 0%Z.
      lia. }
    split.
    + rewrite (at2_tab 1 2) by lia. rewrite <- Hr.
      apply fl_forward_exact; assumption.
    + rewrite (at2_tab 1 2) by lia. rewrite <- Hr.
      apply fl_forward_exact; assumption.
Qed.

Lemma forward_cpu_reference_witness :
  exists y,
    forward_cpu sum_lr Examples.biased [Examples.X0; Examples.X1] = Ok [y]
    /\ shape y = [2; 2] /\ wf y
    /\ forall n l, n < 2 -> l < 2 ->
         holds (at2 y n l)
           (ref_forward 3 2 Examples.biased Examples.X0 Examples.X1 n l).
Proof.
  destruct (proj1 forward_cpu_reference sum_lr 3 2 2 2 Examples.biased
              Examples.X0 Examples.X1 eq_refl eq_refl (Nat.lt_0_succ 1))
    as (y & H1 & H2 & H3 & _ & H4).
  exists y. split; [exact H1|]. split; [exact H2|]. split; [exact H3|].
  apply H4; [exact sum_lr_exact | vm_compute; reflexivity].
Defined.

(** C1 as stated fails in two ways.  A batch without samples passes the
    type check, and [_as_mat] divides by the batch size.  And float32
    rounds: with x0 = [4097, 0, 0] and x1 = [4097, 0] the only term that is
    not zero is 4097 * 4097 * W[0,0,l], whose first product is not a
    float32; the output is [83927040, 117497856] where the formula gives
    [83927045, 117497863]. *)
Lemma forward_cpu_departs_from_formula :
  (params_ok 3 2 2 Examples.plain = true
   /\ valid_batch Examples.plain 0 Examples.X0_none Examples.X1_none = true
   /\ forall sop,
        forward_cpu sop Examples.plain [Examples.X0_none; Examples.X1_none]
        = Err ZeroDivisionError)
  /\ (valid_batch Examples.plain 1 Examples.X0_4097 Examples.X1_4097 = true
      /\ forward_cpu sum_lr Examples.plain [Examples.X0_4097; Examples.X1_4097]
         = Ok [Examples.from_ints [1; 2] [83927040; 117497856]%Z]
      /\ ref_forward 3 2 Examples.plain Examples.X0_4097 Examples.X1_4097 0 0
         = 83927045%Z
      /\ ref_forward 3 2 Examples.plain Examples.X0_4097 Examples.X1_4097 0 1
         = 117497863%Z).
Proof.
  split; [repeat split|].
  repeat split; vm_compute; reflexivity.
Qed.

(** ** The CPU backward pass *)

Lemma grads_ok_inv d1 d2 out s :
  grads_ok d1 d2 out s = true ->
  shape (gW s) = [d1; d2; out] /\ length (data (gW s)) = d1 * d2 * out
  /\ match b s with
     | None => gV1 s = None /\ gV2 s = None /\ gb s = None
     | Some _ =>
         exists g1 g2 g3,
           gV1 s = Some g1 /\ gV2 s = Some g2 /\ gb s = Some g3
           /\ shape g1 = [d1; out] /\ length (data g1) = d1 * out
           /\ shape g2 = [d2; out] /\ length (data g2) = d2 * out
           /\ shape g3 = [out] /\ length (data g3) = out
     end.
Proof.
  unfold grads_ok. intros H.
  apply andb_prop in H as [HW Hb].
  apply has_shape_inv in HW as [HW1 HW2]. cbn [prod foldr] in HW2.
  repeat split; [assumption | lia |].
  destruct (b s) as [bv|].
  2:{ destruct (gb s), (gV1 s), (gV2 s); try discriminate. repeat split. }
  apply andb_prop in Hb as [Hb H2]. apply andb_prop in Hb as [H3 H1].
  apply opt_has_shape_inv in H1 as (g1 & E1 & S1 & L1).
  apply opt_has_shape_inv in H2 as (g2 & E2 & S2 & L2).
  apply opt_has_shape_inv in H3 as (g3 & E3 & S3 & L3).
  cbn [prod foldr] in *.
  exists g1, g2, g3. repeat split; try assumption; lia.
Qed.

(** Reading a transposed matrix. *)
Lemma at2_transposed a n m j i :
  j < m -> i < n ->
  at2 (mk_nd [m; n] (tab (n * m) (fun p => at2 a (p mod n) (p / n)))) j i
  = at2 a i j.
Proof.
  intros Hj Hi. unfold at2 at 1, dim. cbn [shape data nth].
  rewrite nth_tab by nia.
  rewrite mod_row, div_row by assumption. reflexivity.
Qed.

(** The first update of [backward_cpu], of gW. *)
Lemma gW_update sop d1 d2 out N x0 x1 gy g :
  shape gy = [N; out] -> shape g = [d1; d2; out] ->
  (c <- einsum_ij_ik_il_jkl sop (mk_nd [N; d1] (data x0))
          (mk_nd [N; d2] (data x1)) gy ;; iadd g c)%res
  = Ok (acc_gW sop d1 d2 out N x0 x1 gy g).
Proof.
  intros Sgy Sg.
  rewrite (einsum_gW_ok _ _ _ _ N d1 d2 out) by (reflexivity || assumption).
  cbn [rbind].
  rewrite (iadd_same _ _ [d1; d2; out]) by (reflexivity || assumption).
  unfold acc_gW. cbn [prod foldr data].
  rewrite Nat.mul_1_r, Nat.mul_assoc. do 2 f_equal.
  apply tab_ext. intros p Hp'. rewrite nth_tab by assumption. reflexivity.
Qed.

(** The layer and the input gradients after [backward_cpu]. *)
Lemma backward_cpu_value sop d1 d2 out N s x0 x1 gy :
  params_ok d1 d2 out s = true -> grads_ok d1 d2 out s = true ->
  valid_batch s N x0 x1 = true -> has_shape [N; out] gy = true -> 0 < N ->
  backward_cpu sop [x0; x1] [gy] s
  = (accumulated sop d1 d2 out N x0 x1 gy s,
     Ok (grad_x0 sop d1 d2 out N x1 gy s, grad_x1 sop d1 d2 out N x0 gy s)).
Proof.
  intros Hp Hg Hv Hgy HN.
  destruct (valid_batch_inv _ _ _ _ _ _ _ Hp Hv)
    as (r0 & r1 & S0 & S1 & P0 & P1 & L0 & L1).
  destruct (params_ok_inv _ _ _ _ Hp) as (Hin & SW & LW & Hb).
  destruct (grads_ok_inv _ _ _ _ Hg) as (SgW & LgW & Hgb).
  apply has_shape_inv in Hgy as [Sgy Lgy].
  pose proof (gW_update sop d1 d2 out N x0 x1 gy (gW s) Sgy SgW) as HgW.
  unfold backward_cpu, accumulated, mbind, lift, self_, assign, mret.
  cbn [item lookup list_lookup]. cbv beta iota zeta.
  rewrite (as_mat_ok _ _ _ S0 HN), P0. cbv beta iota zeta.
  rewrite (as_mat_ok _ _ _ S1 HN), P1. cbv beta iota zeta.
  destruct (einsum_ij_ik_il_jkl sop _ _ gy) as [c|e] eqn:Ec;
    cbn [rbind] in HgW; [|discriminate].
  cbv beta iota zeta. rewrite HgW. cbv beta iota zeta.
  rewrite (einsum_ge1_ok _ _ _ _ N d1 d2 out) by (reflexivity || assumption).
  rewrite (einsum_ge2_ok _ _ _ _ N d1 d2 out) by (reflexivity || assumption).
  unfold grad_x0, grad_x1, fl_ge1, fl_ge2.
  destruct (b s) as [bv|] eqn:Eb; cbv beta iota zeta; [|reflexivity].
  destruct Hb as (Sb & Lb & v1 & v2 & E1 & E2 & Sv1 & Lv1 & Sv2 & Lv2).
  destruct Hgb as (g1 & g2 & g3 & G1 & G2 & G3 & Sg1 & Lg1 & Sg2 & Lg2 & Sg3 & Lg3).
  rewrite E1, E2, G1, G2, G3.
  cbn [iadd_attr T_attr rbind fmap option_fmap option_map].
  rewrite (transpose_2d _ N d1), (transpose_2d _ N d2) by reflexivity.
  rewrite (dot_2d _ _ _ d1 N out), (dot_2d _ _ _ d2 N out)
    by (reflexivity || assumption).
  rewrite (iadd_same g1 _ [d1; out]), (iadd_same g2 _ [d2; out])
    by (reflexivity || assumption).
  rewrite (sum0_2d _ _ N out) by assumption.
  rewrite (iadd_same g3 _ [out]) by (reflexivity || assumption).
  rewrite (transpose_2d v1 d1 out), (transpose_2d v2 d2 out) by assumption.
  rewrite (dot_2d _ gy _ N out d1), (dot_2d _ gy _ N out d2)
    by (reflexivity || assumption).
  rewrite (iadd_same _ _ [N; d1]), (iadd_same _ _ [N; d2]) by reflexivity.
  cbn [prod foldr data]. rewrite !Nat.mul_1_r.
  unfold acc_gV1, acc_gV2, acc_gb, set_gb, set_gV2, set_gV1, set_gW.
  cbn [W gW V1 gV1 V2 gV2 b gb in_shape].
  f_equal; [f_equal; do 2 f_equal | do 2 f_equal; f_equal];
    apply tab_ext; intros p Hp'.
  - rewrite nth_tab by assumption. f_equal. unfold fl_gV1. f_equal.
    apply tab_ext. intros n Hn.
    rewrite at2_transposed
      by (try assumption; eapply div_lt_rows; eassumption).
    reflexivity.
  - rewrite nth_tab by assumption. f_equal. unfold fl_gV2. f_equal.
    apply tab_ext. intros n Hn.
    rewrite at2_transposed
      by (try assumption; eapply div_lt_rows; eassumption).
    reflexivity.
  - rewrite nth_tab by assumption. reflexivity.
  - rewrite !nth_tab by assumption. f_equal. f_equal.
    apply tab_ext. intros l Hl. cbn [opt_at2].
    rewrite at2_transposed
      by (try assumption; eapply mod_lt_cols; eassumption).
    reflexivity.
  - rewrite !nth_tab by assumption. f_equal. f_equal.
    apply tab_ext. intros l Hl. cbn [opt_at2].
    rewrite at2_transposed
      by (try assumption; eapply mod_lt_cols; eassumption).
    reflexivity.
Qed.

Lemma backward_cpu_empty_batch sop s x0 x1 gy r0 :
  shape x0 = 0 :: r0 ->
  backward_cpu sop [x0; x1] gy s = (s, Err ZeroDivisionError).
Proof.
  intros S0. unfold backward_cpu, mbind, lift. cbn [item lookup list_lookup].
  rewrite (as_mat_empty _ _ S0). reflexivity.
Qed.

Lemma idx3_j d2 out j k l :
  k < d2 -> l < out -> ((j * d2 + k) * out + l) / (d2 * out) = j.
Proof.
  intros Hk Hl.
  replace ((j * d2 + k) * out + l) with (j * (d2 * out) + (k * out + l)) by lia.
  apply div_row. nia.
Qed.

Lemma idx3_k d2 out j k l :
  k < d2 -> l < out -> ((j * d2 + k) * out + l) / out mod d2 = k.
Proof. intros Hk Hl. rewrite div_row by assumption. apply mod_row, Hk. Qed.

Lemma acc_gW_at sop d1 d2 out N x0 x1 gy g j k l :
  shape g = [d1; d2; out] -> j < d1 -> k < d2 -> l < out ->
  at3 (acc_gW sop d1 d2 out N x0 x1 gy g) j k l
  = fadd (at3 g j k l) (fl_gW sop d1 d2 x0 x1 gy N j k l).
Proof.
  intros Sg Hj Hk Hl. unfold acc_gW. rewrite at3_tab by assumption.
  rewrite idx3_j, idx3_k, mod_row by assumption.
  unfold at3, dim. rewrite Sg. reflexivity.
Qed.

Lemma acc_gV1_at sop d1 out N x0 gy g j l :
  shape g = [d1; out] -> j < d1 -> l < out ->
  at2 (acc_gV1 sop d1 out N x0 gy g) j l
  = fadd (at2 g j l) (fl_gV1 sop d1 x0 gy N j l).
Proof.
  intros Sg Hj Hl. unfold acc_gV1. rewrite at2_tab by assumption.
  rewrite div_row, mod_row by assumption.
  unfold at2, dim. rewrite Sg. reflexivity.
Qed.

Lemma acc_gV2_at sop d2 out N x1 gy g k l :
  shape g = [d2; out] -> k < d2 -> l < out ->
  at2 (acc_gV2 sop d2 out N x1 gy g) k l
  = fadd (at2 g k l) (fl_gV2 sop d2 x1 gy N k l).
Proof.
  intros Sg Hk Hl. unfold acc_gV2. rewrite at2_tab by assumption.
  rewrite div_row, mod_row by assumption.
  unfold at2, dim. rewrite Sg. reflexivity.
Qed.

Lemma acc_gb_at sop out N gy g l :
  l < out ->
  at1 (acc_gb sop out N gy g) l = fadd (at1 g l) (fl_gb sop gy N l).
Proof. intros Hl. unfold acc_gb. rewrite at1_tab by assumption. reflexivity. Qed.

Lemma has_shape_tab sh n (f : nat -> f32) :
  n = prod sh -> has_shape sh (mk_nd sh (tab n f)) = true.
Proof.
  intros ->. unfold has_shape, wfb, size. cbn [shape data].
  rewrite length_tab, Nat.eqb_refl, bool_decide_eq_true_2; reflexivity.
Qed.

(** Everything that reads only the parameters is blind to the accumulators. *)
Lemma params_ok_same d1 d2 out s s' :
  same_params s s' -> params_ok d1 d2 out s' = params_ok d1 d2 out s.
Proof.
  intros (HW & H1 & H2 & Hb & Hi). unfold params_ok.
  rewrite HW, H1, H2, Hb, Hi. reflexivity.
Qed.

Lemma valid_batch_same s s' N x0 x1 :
  same_params s s' -> valid_batch s' N x0 x1 = valid_batch s N x0 x1.
Proof.
  intros (_ & _ & _ & _ & Hi). unfold valid_batch, check_type_forward.
  rewrite Hi. reflexivity.
Qed.

Lemma grad_same sop d1 d2 out N x0 x1 gy s s' :
  same_params s s' ->
  grad_x0 sop d1 d2 out N x1 gy s' = grad_x0 sop d1 d2 out N x1 gy s
  /\ grad_x1 sop d1 d2 out N x0 gy s' = grad_x1 sop d1 d2 out N x0 gy s.
Proof.
  intros (HW & H1 & H2 & Hb & Hi).
  unfold grad_x0, grad_x1, fl_ge1, fl_ge2.
  rewrite HW, H1, H2, Hb. split; reflexivity.
Qed.

Lemma same_params_refl s : same_params s s.
Proof. repeat split. Qed.

Lemma same_params_trans s1 s2 s3 :
  same_params s1 s2 -> same_params s2 s3 -> same_params s1 s3.
Proof.
  intros (A1 & A2 & A3 & A4 & A5) (B1 & B2 & B3 & B4 & B5).
  repeat split; congruence.
Qed.

(** The accumulators after a pass keep their shapes, and the parameters are
    not touched. *)
Lemma accumulated_ok sop d1 d2 out N x0 x1 gy s :
  grads_ok d1 d2 out s = true ->
  grads_ok d1 d2 out (accumulated sop d1 d2 out N x0 x1 gy s) = true
  /\ same_params s (accumulated sop d1 d2 out N x0 x1 gy s).
Proof.
  intros Hg. destruct (grads_ok_inv _ _ _ _ Hg) as (SgW & LgW & Hgb).
  unfold accumulated, grads_ok, same_params.
  destruct (b s) as [bv|] eqn:Eb.
  - destruct Hgb as (g1 & g2 & g3 & G1 & G2 & G3 & Sg1 & Lg1 & Sg2 & Lg2 & Sg3 & Lg3).
    rewrite G1, G2, G3.
    cbn [fmap option_fmap option_map set_gb set_gV2 set_gV1 set_gW
           W gW V1 gV1 V2 gV2 b gb in_shape opt_has_shape].
    rewrite Eb. repeat split.
    unfold acc_gW, acc_gb, acc_gV1, acc_gV2.
    rewrite !has_shape_tab by (cbn; lia). reflexivity.
  - destruct Hgb as (G1 & G2 & G3).
    cbn [set_gW W gW V1 gV1 V2 gV2 b gb in_shape]. rewrite Eb, G1, G2, G3.
    repeat split.
    unfold acc_gW. rewrite has_shape_tab by (cbn; lia). reflexivity.
Qed.

(** *** The backward pass on small integers *)

Section ExactBackward.
Local Open Scope Z_scope.
Variable sop : sum_of_products.
Hypothesis Hsop : exact_on_small_integers sop.

Lemma fl_gW_exact d1 d2 x0 x1 gy N j k l :
  ints x0 = true -> ints x1 = true -> ints gy = true ->
  Z.of_nat N * amax x0 * amax x1 * amax gy < 2 ^ 24 ->
  holds (fl_gW sop d1 d2 x0 x1 gy N j k l) (ref_gW d1 d2 x0 x1 gy N j k l)
  /\ Z.abs (ref_gW d1 d2 x0 x1 gy N j k l)
     <= Z.of_nat N * amax x0 * amax x1 * amax gy.
Proof.
  intros I0 I1 Ig Hb.
  pose proof (amax_pos x0). pose proof (amax_pos x1). pose proof (amax_pos gy).
  rewrite <- !Z.mul_assoc in *. rewrite !Z.mul_assoc in *.
  replace (Z.of_nat N * amax x0 * amax x1 * amax gy)
    with (Z.of_nat N * (amax x0 * amax x1 * amax gy)) in * by ring.
  apply (sop3_exact sop Hsop N
           (fun n => flat d1 x0 n j) (fun n => flat d2 x1 n k)
           (fun n => at2 gy n l));
    try assumption; intros q; apply cell_ok; assumption.
Qed.

Lemma fl_gV1_exact d1 x0 gy N j l :
  ints x0 = true -> ints gy = true ->
  Z.of_nat N * amax x0 * amax gy < 2 ^ 24 ->
  holds (fl_gV1 sop d1 x0 gy N j l) (ref_gV1 d1 x0 gy N j l)
  /\ Z.abs (ref_gV1 d1 x0 gy N j l) <= Z.of_nat N * amax x0 * amax gy.
Proof.
  intros I0 Ig Hb.
  pose proof (amax_pos x0). pose proof (amax_pos gy).
  replace (Z.of_nat N * amax x0 * amax gy)
    with (Z.of_nat N * (amax x0 * amax gy)) in * by ring.
  apply (sop2_exact sop Hsop N (fun n => flat d1 x0 n j) (fun n => at2 gy n l));
    try assumption; intros q; apply cell_ok; assumption.
Qed.

Lemma fl_gV2_exact d2 x1 gy N k l :
  ints x1 = true -> ints gy = true ->
  Z.of_nat N * amax x1 * amax gy < 2 ^ 24 ->
  holds (fl_gV2 sop d2 x1 gy N k l) (ref_gV2 d2 x1 gy N k l)
  /\ Z.abs (ref_gV2 d2 x1 gy N k l) <= Z.of_nat N * amax x1 * amax gy.
Proof.
  intros I1 Ig Hb.
  pose proof (amax_pos x1). pose proof (amax_pos gy).
  replace (Z.of_nat N * amax x1 * amax gy)
    with (Z.of_nat N * (amax x1 * amax gy)) in * by ring.
  apply (sop2_exact sop Hsop N (fun n => flat d2 x1 n k) (fun n => at2 gy n l));
    try assumption; intros q; apply cell_ok; assumption.
Qed.

Lemma fl_gb_exact gy N l :
  ints gy = true ->
  Z.of_nat N * amax gy < 2 ^ 24 ->
  holds (fl_gb sop gy N l) (ref_gb gy N l)
  /\ Z.abs (ref_gb gy N l) <= Z.of_nat N * amax gy.
Proof.
  intros Ig Hb. pose proof (amax_pos gy).
  apply (sop1_exact sop Hsop N (fun n => at2 gy n l));
    try assumption; intros q; apply cell_ok; assumption.
Qed.

(** Adding an exact contraction to a cell of an accumulator. *)
Lemma accumulate_exact old c z B C :
  is_int old = true -> Z.abs (zv old) <= B ->
  holds c z -> Z.abs z <= C -> B + C < 2 ^ 24 ->
  holds (fadd old c) (zv old + z).
Proof.
  intros Io Bo Hc Bc Hb.
  apply holds_fadd; try assumption; try lia. split; [exact Io | reflexivity].
Qed.

Lemma acc_small_inv N s x0 x1 gy :
  acc_small N s x0 x1 gy = true ->
  (ints x0 = true /\ ints x1 = true /\ ints gy = true)
  /\ (ints (gW s) = true /\ oints (gV1 s) = true /\ oints (gV2 s) = true
      /\ oints (gb s) = true)
  /\ amax (gW s) + Z.of_nat N * amax x0 * amax x1 * amax gy < 2 ^ 24
  /\ oamax (gV1 s) + Z.of_nat N * amax x0 * amax gy < 2 ^ 24
  /\ oamax (gV2 s) + Z.of_nat N * amax x1 * amax gy < 2 ^ 24
  /\ oamax (gb s) + Z.of_nat N * amax gy < 2 ^ 24.
Proof.
  unfold acc_small. intros H.
  apply andb_prop in H as [H B4]. apply andb_prop in H as [H B3].
  apply andb_prop in H as [H B2]. apply andb_prop in H as [H B1].
  apply andb_prop in H as [H I7]. apply andb_prop in H as [H I6].
  apply andb_prop in H as [H I5]. apply andb_prop in H as [H I4].
  apply andb_prop in H as [H I3]. apply andb_prop in H as [I1 I2].
  apply Z.ltb_lt in B1, B2, B3, B4. repeat split; assumption.
Qed.

(** On small integers the accumulators hold, after a pass, what they held
    plus the reference contractions. *)
Lemma accumulated_exact d1 d2 out N x0 x1 gy s :
  grads_ok d1 d2 out s = true -> acc_small N s x0 x1 gy = true ->
  grads_are d1 d2 out (accumulated sop d1 d2 out N x0 x1 gy s)
    (fun j k l => zat3 (gW s) j k l + ref_gW d1 d2 x0 x1 gy N j k l)
    (fun j l => zopt_at2 (gV1 s) j l + ref_gV1 d1 x0 gy N j l)
    (fun k l => zopt_at2 (gV2 s) k l + ref_gV2 d2 x1 gy N k l)
    (fun l => zopt_at1 (gb s) l + ref_gb gy N l).
Proof.
  intros Hg Hsm.
  destruct (acc_small_inv _ _ _ _ _ Hsm)
    as ((I0 & I1 & Ig) & (IW & IV1 & IV2 & Ib) & BW & B1 & B2 & Bb).
  destruct (grads_ok_inv _ _ _ _ Hg) as (SgW & LgW & Hgb).
  pose proof (amax_pos (gW s)). pose proof (oamax_pos (gV1 s)).
  pose proof (oamax_pos (gV2 s)). pose proof (oamax_pos (gb s)).
  assert (HW : forall j k l, (j < d1)%nat -> (k < d2)%nat -> (l < out)%nat ->
    holds (at3 (acc_gW sop d1 d2 out N x0 x1 gy (gW s)) j k l)
      (zat3 (gW s) j k l + ref_gW d1 d2 x0 x1 gy N j k l)).
  { intros j k l Hj Hk Hl. rewrite acc_gW_at by assumption.
    destruct (fl_gW_exact d1 d2 x0 x1 gy N j k l) as [F1 F2];
      try assumption; [lia|].
    eapply accumulate_exact; try eassumption.
    - apply ints_nth, IW.
    - apply amax_nth. }
  unfold accumulated, grads_are, grads_rel.
  destruct (b s) as [bv|] eqn:Eb.
  - destruct Hgb as (g1 & g2 & g3 & G1 & G2 & G3 & Sg1 & Lg1 & Sg2 & Lg2 & Sg3 & Lg3).
    rewrite G1, G2, G3 in *.
    cbn [fmap option_fmap option_map set_gb set_gV2 set_gV1 set_gW
           W gW V1 gV1 V2 gV2 b gb in_shape opt_at2 opt_at1].
    split; [exact HW|]. intros _. split; [|split].
    + intros j l Hj Hl. rewrite acc_gV1_at by assumption.
      destruct (fl_gV1_exact d1 x0 gy N j l) as [F1 F2];
        try assumption; [lia|].
      eapply accumulate_exact; try eassumption.
      * apply (oints_at2 (Some g1)), IV1.
      * apply (oamax_at2 (Some g1)).
    + intros k l Hk Hl. rewrite acc_gV2_at by assumption.
      destruct (fl_gV2_exact d2 x1 gy N k l) as [F1 F2];
        try assumption; [lia|].
      eapply accumulate_exact; try eassumption.
      * apply (oints_at2 (Some g2)), IV2.
      * apply (oamax_at2 (Some g2)).
    + intros l Hl. rewrite acc_gb_at by assumption.
      destruct (fl_gb_exact gy N l) as [F1 F2]; try assumption; [lia|].
      eapply accumulate_exact; try eassumption.
      * apply (oints_at1 (Some g3)), Ib.
      * apply (oamax_at1 (Some g3)).
  - cbn [set_gW W gW V1 gV1 V2 gV2 b gb in_shape]. rewrite Eb.
    split; [exact HW | congruence].
Qed.

End ExactBackward.

(** The accumulators after a pass, cell by cell, as floats. *)
Lemma accumulated_cells sop d1 d2 out N x0 x1 gy s :
  grads_ok d1 d2 out s = true ->
  grads_eq d1 d2 out (accumulated sop d1 d2 out N x0 x1 gy s)
    (fun j k l => fadd (at3 (gW s) j k l) (fl_gW sop d1 d2 x0 x1 gy N j k l))
    (fun j l => fadd (opt_at2 (gV1 s) j l) (fl_gV1 sop d1 x0 gy N j l))
    (fun k l => fadd (opt_at2 (gV2 s) k l) (fl_gV2 sop d2 x1 gy N k l))
    (fun l => fadd (opt_at1 (gb s) l) (fl_gb sop gy N l)).
Proof.
  intros Hg. destruct (grads_ok_inv _ _ _ _ Hg) as (SgW & LgW & Hgb).
  unfold accumulated, grads_eq, grads_rel.
  destruct (b s) as [bv|] eqn:Eb.
  - destruct Hgb as (g1 & g2 & g3 & G1 & G2 & G3 & Sg1 & Lg1 & Sg2 & Lg2 & Sg3 & Lg3).
    rewrite G1, G2, G3.
    cbn [fmap option_fmap option_map set_gb set_gV2 set_gV1 set_gW
           W gW V1 gV1 V2 gV2 b gb in_shape opt_at2 opt_at1].
    split; [|intros _; split; [|split]]; intros.
    + apply acc_gW_at; assumption.
    + apply acc_gV1_at; assumption.
    + apply acc_gV2_at; assumption.
    + apply acc_gb_at; assumption.
  - cbn [set_gW W gW V1 gV1 V2 gV2 b gb in_shape]. rewrite Eb.
    split; [|congruence]. intros. apply acc_gW_at; assumption.
Qed.

(** A layer whose accumulators hold integers holds them. *)
Lemma grads_are_themselves d1 d2 out s :
  ints (gW s) = true -> oints (gV1 s) = true -> oints (gV2 s) = true ->
  oints (gb s) = true ->
  grads_are d1 d2 out s
    (fun j k l => zat3 (gW s) j k l) (fun j l => zopt_at2 (gV1 s) j l)
    (fun k l => zopt_at2 (gV2 s) k l) (fun l => zopt_at1 (gb s) l).
Proof.
  intros IW I1 I2 Ib. unfold grads_are, grads_rel, holds.
  split; [|intros _; split; [|split]]; intros; (split; [|reflexivity]).
  - apply ints_nth, IW.
  - apply oints_at2, I1.
  - apply oints_at2, I2.
  - apply oints_at1, Ib.
Qed.

(** One pass over a valid batch of small integers, whether it returns
    (N >= 1) or raises (N = 0, nothing is added). *)
Lemma backward_cpu_pass sop d1 d2 out N s x0 x1 gy :
  exact_on_small_integers sop ->
  params_ok d1 d2 out s = true -> grads_ok d1 d2 out s = true ->
  valid_batch s N x0 x1 = true -> has_shape [N; out] gy = true ->
  acc_small N s x0 x1 gy = true ->
  grads_are d1 d2 out (backward_cpu sop [x0; x1] [gy] s).1
    (fun j k l => (zat3 (gW s) j k l + ref_gW d1 d2 x0 x1 gy N j k l)%Z)
    (fun j l => (zopt_at2 (gV1 s) j l + ref_gV1 d1 x0 gy N j l)%Z)
    (fun k l => (zopt_at2 (gV2 s) k l + ref_gV2 d2 x1 gy N k l)%Z)
    (fun l => (zopt_at1 (gb s) l + ref_gb gy N l)%Z).
Proof.
  intros Hs Hp Hg Hv Hgy Hsm.
  destruct (Nat.eq_dec N 0) as [->|HN].
  - destruct (valid_batch_inv _ _ _ _ _ _ _ Hp Hv) as (r0 & r1 & S0 & _).
    rewrite (backward_cpu_empty_batch _ _ _ _ _ _ S0). cbn [fst].
    destruct (acc_small_inv _ _ _ _ _ Hsm) as (_ & (IW & I1 & I2 & Ib) & _).
    pose proof (grads_are_themselves d1 d2 out s IW I1 I2 Ib) as [A1 A2].
    unfold grads_are, grads_rel, ref_gW, ref_gV1, ref_gV2, ref_gb.
    cbn [sum_upto].
    split; [intros; rewrite Z.add_0_r; apply A1; assumption|].
    intros Hb. destruct (A2 Hb) as (A21 & A22 & A23).
    split; [|split]; intros; rewrite Z.add_0_r; auto.
  - rewrite (backward_cpu_value sop d1 d2 out N) by (assumption || lia).
    cbn [fst]. apply accumulated_exact; assumption.
Qed.

Lemma backward_cpu_keeps_data_model sop d1 d2 out N s x0 x1 gy :
  params_ok d1 d2 out s = true -> grads_ok d1 d2 out s = true ->
  valid_batch s N x0 x1 = true -> has_shape [N; out] gy = true ->
  grads_ok d1 d2 out (backward_cpu sop [x0; x1] [gy] s).1 = true
  /\ same_params s (backward_cpu sop [x0; x1] [gy] s).1.
Proof.
  intros Hp Hg Hv Hgy.
  destruct (Nat.eq_dec N 0) as [->|HN].
  - destruct (valid_batch_inv _ _ _ _ _ _ _ Hp Hv) as (r0 & r1 & S0 & _).
    rewrite (backward_cpu_empty_batch _ _ _ _ _ _ S0). cbn [fst].
    split; [exact Hg | apply same_params_refl].
  - rewrite (backward_cpu_value sop d1 d2 out N) by (assumption || lia).
    cbn [fst]. apply accumulated_ok, Hg.
Qed.

(** C2, amended.  On a layer whose parameters have the shapes of the data
    model and that has an accumulator of the same shape for every
    parameter present, for every valid batch and every output gradient of
    shape (N, out), [backward_cpu] adds to the accumulators, it does not
    overwrite them: with N >= 1 it returns, and each cell of gW is the
    float32 sum of its old value and the float32 contraction
    sum_n e1[n,j]*e2[n,k]*grad_y[n,l], likewise gV1 with
    sum_n e1[n,j]*grad_y[n,l], gV2 with sum_n e2[n,k]*grad_y[n,l] and gb
    with sum_n grad_y[n,l] when the bias terms are present.  The new value
    equals the old value plus the contraction exactly whenever inputs,
    output gradient and accumulators hold integers small enough for every
    partial result to stay below 2^24 in magnitude ([acc_small]).  The
    shapes of the accumulators and the parameters stay as they were. *)
Theorem backward_cpu_accumulates sop d1 d2 out N s x0 x1 gy :
  params_ok d1 d2 out s = true -> grads_ok d1 d2 out s = true ->
  valid_batch s N x0 x1 = true -> has_shape [N; out] gy = true ->
  let s' := (backward_cpu sop [x0; x1] [gy] s).1 in
  grads_ok d1 d2 out s' = true
  /\ same_params s s'
  /\ (0 < N ->
      is_ok (backward_cpu sop [x0; x1] [gy] s).2 = true
      /\ grads_eq d1 d2 out s'
           (fun j k l => fadd (at3 (gW s) j k l)
                           (fl_gW sop d1 d2 x0 x1 gy N j k l))
           (fun j l => fadd (opt_at2 (gV1 s) j l) (fl_gV1 sop d1 x0 gy N j l))
           (fun k l => fadd (opt_at2 (gV2 s) k l) (fl_gV2 sop d2 x1 gy N k l))
           (fun l => fadd (opt_at1 (gb s) l) (fl_gb sop gy N l)))
  /\ (exact_on_small_integers sop -> acc_small N s x0 x1 gy = true ->
      grads_are d1 d2 out s'
        (fun j k l => (zat3 (gW s) j k l + ref_gW d1 d2 x0 x1 gy N j k l)%Z)
        (fun j l => (zopt_at2 (gV1 s) j l + ref_gV1 d1 x0 gy N j l)%Z)
        (fun k l => (zopt_at2 (gV2 s) k l + ref_gV2 d2 x1 gy N k l)%Z)
        (fun l => (zopt_at1 (gb s) l + ref_gb gy N l)%Z)).
Proof.
  intros Hp Hg Hv Hgy s'.
  destruct (backward_cpu_keeps_data_model sop d1 d2 out N s x0 x1 gy
              Hp Hg Hv Hgy) as [H1 H2].
  split; [exact H1|]. split; [exact H2|]. split.
  - intros HN. subst s'.
    rewrite (backward_cpu_value sop d1 d2 out N) by assumption.
    cbn [fst snd]. split; [reflexivity | apply accumulated_cells, Hg].
  - intros Hs Hsm. apply backward_cpu_pass; assumption.
Qed.

Lemma backward_cpu_accumulates_witness :
  let s' := (backward_cpu sum_lr [Examples.X0; Examples.X1] [Examples.GY]
               Examples.biased).1 in
  grads_ok 3 2 2 s' = true
  /\ grads_are 3 2 2 s'
       (fun j k l => (zat3 (gW Examples.biased) j k l
                      + ref_gW 3 2 Examples.X0 Examples.X1 Examples.GY 2 j k l)%Z)
       (fun j l => (zopt_at2 (gV1 Examples.biased) j l
                    + ref_gV1 3 Examples.X0 Examples.GY 2 j l)%Z)
       (fun k l => (zopt_at2 (gV2 Examples.biased) k l
                    + ref_gV2 2 Examples.X1 Examples.GY 2 k l)%Z)
       (fun l => (zopt_at1 (gb Examples.biased) l + ref_gb Examples.GY 2 l)%Z).
Proof.
  destruct (backward_cpu_accumulates sum_lr 3 2 2 2 Examples.biased
              Examples.X0 Examples.X1 Examples.GY
              eq_refl eq_refl eq_refl eq_refl) as (H1 & _ & _ & H4).
  split; [exact H1|].
  exact (H4 sum_lr_exact eq_refl).
Defined.

(** C2 as stated fails in two ways.  The layer that the constructor builds
    from [nobias=True] and an explicit bias triple has bias terms and no
    accumulators for them: on a valid batch with an output gradient of the
    right shape [backward_cpu] raises [TypeError] and gV1 stays [None].
    And float32 rounds: after a reset, the batch x0 = [4097, 0, 0],
    x1 = [4097, 0] with grad_y = [1, 0] leaves 16785408 in gW[0,0,0], where
    the contraction is 4097 * 4097 * 1 = 16785409. *)
Lemma backward_cpu_accumulation_breaks :
  (__init__ [3; 2] 2 true (Some Examples.W322)
     (Some [Examples.V1_32; Examples.V2_22; Examples.b_2])
     Examples.no_rng Examples.junk7 = Ok Examples.lopsided
   /\ params_ok 3 2 2 Examples.lopsided = true
   /\ valid_batch Examples.lopsided 2 Examples.X0 Examples.X1 = true
   /\ has_shape [2; 2] Examples.GY = true
   /\ (forall sop,
         (backward_cpu sop [Examples.X0; Examples.X1] [Examples.GY]
            Examples.lopsided).2 = Err TypeError
         /\ gV1 (backward_cpu sop [Examples.X0; Examples.X1] [Examples.GY]
                   Examples.lopsided).1 = None))
  /\ (let z := (zero_grads Examples.plain).1 in
      params_ok 3 2 2 z = true /\ grads_ok 3 2 2 z = true
      /\ valid_batch z 1 Examples.X0_4097 Examples.X1_4097 = true
      /\ has_shape [1; 2] Examples.GY_1 = true
      /\ zat3 (gW z) 0 0 0 = 0%Z
      /\ ref_gW 3 2 Examples.X0_4097 Examples.X1_4097 Examples.GY_1 1 0 0 0
         = 16785409%Z
      /\ zat3 (gW (backward_cpu sum_lr [Examples.X0_4097; Examples.X1_4097]
                     [Examples.GY_1] z).1) 0 0 0 = 16785408%Z).
Proof.
  split.
  - repeat split.
  - cbv zeta. repeat split; vm_compute; reflexivity.
Qed.

(** *** The input gradients on small integers *)

Section ExactGradients.
Local Open Scope Z_scope.
Variable sop : sum_of_products.
Hypothesis Hsop : exact_on_small_integers sop.

Lemma grad_small_inv d1 d2 out s x0 x1 gy :
  grad_small d1 d2 out s x0 x1 gy = true ->
  (ints x0 = true /\ ints x1 = true /\ ints gy = true /\ ints (W s) = true
   /\ oints (V1 s) = true /\ oints (V2 s) = true)
  /\ Z.of_nat (d2 * out) * amax x1 * amax (W s) * amax gy
     + Z.of_nat out * amax gy * oamax (V1 s) < 2 ^ 24
  /\ Z.of_nat (d1 * out) * amax x0 * amax (W s) * amax gy
     + Z.of_nat out * amax gy * oamax (V2 s) < 2 ^ 24.
Proof.
  unfold grad_small. intros H.
  apply andb_prop in H as [H B2]. apply andb_prop in H as [H B1].
  apply andb_prop in H as [H I6]. apply andb_prop in H as [H I5].
  apply andb_prop in H as [H I4]. apply andb_prop in H as [H I3].
  apply andb_prop in H as [I1 I2].
  apply Z.ltb_lt in B1, B2. repeat split; assumption.
Qed.

Lemma fl_ge1_exact d1 d2 out s x0 x1 gy n j :
  grad_small d1 d2 out s x0 x1 gy = true ->
  holds (fl_ge1 sop d2 out s x1 gy n j) (ref_ge1 d2 out s x1 gy n j).
Proof.
  intros H.
  destruct (grad_small_inv _ _ _ _ _ _ _ H)
    as ((I0 & I1 & Ig & IW & IV1 & IV2) & B1 & _).
  pose proof (amax_pos x1) as PB. pose proof (amax_pos (W s)) as PC.
  pose proof (amax_pos gy) as PG. pose proof (oamax_pos (V1 s)) as PV.
  set (B := amax x1) in *. set (C := amax (W s)) in *.
  set (G := amax gy) in *. set (C1 := oamax (V1 s)) in *.
  assert (Hn1 : 0 <= Z.of_nat (d2 * out) * B * C * G) by nia.
  assert (Hn2 : 0 <= Z.of_nat out * G * C1) by nia.
  destruct (sop3_exact sop Hsop (d2 * out)
              (fun q => flat d2 x1 n (q / out)%nat)
              (fun q => at3 (W s) j (q / out)%nat (q mod out)%nat)
              (fun q => at2 gy n (q mod out)%nat) B C G)
    as [Ht Bt]; try assumption; try lia;
    try (intros q; apply cell_ok; assumption).
  rewrite (sum_upto_pair d2 out
             (fun k l => zv (flat d2 x1 n k) * zv (at3 (W s) j k l)
                         * zv (at2 gy n l))) in Ht, Bt.
  unfold fl_ge1, ref_ge1.
  fold (zflat d2 x1). 
  change (sum_upto d2 (fun k => sum_upto out (fun l =>
            zv (flat d2 x1 n k) * zv (at3 (W s) j k l) * zv (at2 gy n l))))
    with (sum_upto d2 (fun k => sum_upto out (fun l =>
            zflat d2 x1 n k * zat3 (W s) j k l * zat2 gy n l))) in Ht, Bt.
  set (t := sum_upto d2 _) in *.
  destruct (b s) as [bv|].
  - destruct (sop2_exact sop Hsop out
                (fun l => at2 gy n l) (fun l => opt_at2 (V1 s) j l) G C1)
      as [H1 B1']; try assumption; try lia;
      try (intros q; apply cell_ok; assumption);
      try (intros q; apply ocell2_ok; assumption).
    set (u := sum_upto out _) in H1, B1'.
    change (holds (fadd (sop (tab (d2 * out) (fun q =>
                     [flat d2 x1 n (q / out)%nat;
                      at3 (W s) j (q / out)%nat (q mod out)%nat;
                      at2 gy n (q mod out)%nat])))
                   (sop (tab out (fun l => [at2 gy n l; opt_at2 (V1 s) j l]))))
              (t + u)).
    apply holds_fadd; try assumption; lia.
  - rewrite Z.add_0_r. exact Ht.
Qed.

Lemma fl_ge2_exact d1 d2 out s x0 x1 gy n k :
  grad_small d1 d2 out s x0 x1 gy = true ->
  holds (fl_ge2 sop d1 out s x0 gy n k) (ref_ge2 d1 out s x0 gy n k).
Proof.
  intros H.
  destruct (grad_small_inv _ _ _ _ _ _ _ H)
    as ((I0 & I1 & Ig & IW & IV1 & IV2) & _ & B2).
  pose proof (amax_pos x0) as PA. pose proof (amax_pos (W s)) as PC.
  pose proof (amax_pos gy) as PG. pose proof (oamax_pos (V2 s)) as PV.
  set (A := amax x0) in *. set (C := amax (W s)) in *.
  set (G := amax gy) in *. set (C2 := oamax (V2 s)) in *.
  assert (Hn1 : 0 <= Z.of_nat (d1 * out) * A * C * G) by nia.
  assert (Hn2 : 0 <= Z.of_nat out * G * C2) by nia.
  destruct (sop3_exact sop Hsop (d1 * out)
              (fun q => flat d1 x0 n (q / out)%nat)
              (fun q => at3 (W s) (q / out)%nat k (q mod out)%nat)
              (fun q => at2 gy n (q mod out)%nat) A C G)
    as [Ht Bt]; try assumption; try lia;
    try (intros q; apply cell_ok; assumption).
  rewrite (sum_upto_pair d1 out
             (fun j l => zv (flat d1 x0 n j) * zv (at3 (W s) j k l)
                         * zv (at2 gy n l))) in Ht, Bt.
  unfold fl_ge2, ref_ge2.
  change (sum_upto d1 (fun j => sum_upto out (fun l =>
            zv (flat d1 x0 n j) * zv (at3 (W s) j k l) * zv (at2 gy n l))))
    with (sum_upto d1 (fun j => sum_upto out (fun l =>
            zflat d1 x0 n j * zat3 (W s) j k l * zat2 gy n l))) in Ht, Bt.
  set (t := sum_upto d1 _) in *.
  destruct (b s) as [bv|].
  - destruct (sop2_exact sop Hsop out
                (fun l => at2 gy n l) (fun l => opt_at2 (V2 s) k l) G C2)
      as [H1 B1']; try assumption; try lia;
      try (intros q; apply cell_ok; assumption);
      try (intros q; apply ocell2_ok; assumption).
    set (u := sum_upto out _) in H1, B1'.
    change (holds (fadd (sop (tab (d1 * out) (fun q =>
                     [flat d1 x0 n (q / out)%nat;
                      at3 (W s) (q / out)%nat k (q mod out)%nat;
                      at2 gy n (q mod out)%nat])))
                   (sop (tab out (fun l => [at2 gy n l; opt_at2 (V2 s) k l]))))
              (t + u)).
    apply holds_fadd; try assumption; lia.
  - rewrite Z.add_0_r. exact Ht.
Qed.

End ExactGradients.

(** C3, amended.  On a layer whose parameters have the shapes of the data
    model and that has an accumulator for every parameter present, for
    every valid batch of N >= 1 samples and every output gradient of shape
    (N, out), [backward_cpu] returns the pair (grad_e1, grad_e2), of shapes
    (N, d1) and (N, d2), computed afresh: a second call on the layer the
    first call left behind returns the same pair.  Its cells are the
    float32 evaluation of the reference rules
    grad_e1[n,j] = sum_k sum_l e2[n,k]*W[j,k,l]*grad_y[n,l]
    (+ sum_l grad_y[n,l]*V1[j,l] with bias terms) and symmetrically
    grad_e2: they equal the rules exactly whenever inputs, output gradient
    and parameters hold integers small enough for every partial result to
    stay below 2^24 in magnitude ([grad_small]). *)
Theorem backward_cpu_input_gradients sop d1 d2 out N s x0 x1 gy :
  params_ok d1 d2 out s = true -> grads_ok d1 d2 out s = true ->
  valid_batch s N x0 x1 = true -> has_shape [N; out] gy = true -> 0 < N ->
  exists ge1 ge2,
    (backward_cpu sop [x0; x1] [gy] s).2 = Ok (ge1, ge2)
    /\ shape ge1 = [N; d1] /\ wf ge1
    /\ shape ge2 = [N; d2] /\ wf ge2
    /\ (forall n j, n < N -> j < d1 ->
          at2 ge1 n j = fl_ge1 sop d2 out s x1 gy n j)
    /\ (forall n k, n < N -> k < d2 ->
          at2 ge2 n k = fl_ge2 sop d1 out s x0 gy n k)
    /\ (backward_cpu sop [x0; x1] [gy] (backward_cpu sop [x0; x1] [gy] s).1).2
       = Ok (ge1, ge2)
    /\ (exact_on_small_integers sop ->
        grad_small d1 d2 out s x0 x1 gy = true ->
        (forall n j, n < N -> j < d1 ->
           holds (at2 ge1 n j) (ref_ge1 d2 out s x1 gy n j))
        /\ (forall n k, n < N -> k < d2 ->
              holds (at2 ge2 n k) (ref_ge2 d1 out s x0 gy n k))).
Proof.
  intros Hp Hg Hv Hgy HN.
  destruct (accumulated_ok sop d1 d2 out N x0 x1 gy s Hg) as (Hg' & Hs').
  rewrite (backward_cpu_value sop d1 d2 out N) by assumption. cbn [fst snd].
  rewrite (backward_cpu_value sop d1 d2 out N);
    [| rewrite (params_ok_same _ _ _ _ _ Hs'); assumption
     | assumption
     | rewrite (valid_batch_same _ _ _ _ _ Hs'); assumption
     | assumption | assumption].
  destruct (grad_same sop d1 d2 out N x0 x1 gy _ _ Hs') as [-> ->].
  cbn [snd]. do 2 eexists. split; [reflexivity|].
  assert (R1 : forall n j, n < N -> j < d1 ->
    at2 (grad_x0 sop d1 d2 out N x1 gy s) n j = fl_ge1 sop d2 out s x1 gy n j).
  { intros n j Hn Hj. unfold grad_x0. rewrite at2_tab by assumption.
    rewrite div_row, mod_row by assumption. reflexivity. }
  assert (R2 : forall n k, n < N -> k < d2 ->
    at2 (grad_x1 sop d1 d2 out N x0 gy s) n k = fl_ge2 sop d1 out s x0 gy n k).
  { intros n k Hn Hk. unfold grad_x1. rewrite at2_tab by assumption.
    rewrite div_row, mod_row by assumption. reflexivity. }
  unfold wf, size. cbn [shape data prod foldr grad_x0 grad_x1].
  rewrite !length_tab.
  split; [reflexivity|]. split; [lia|]. split; [reflexivity|].
  split; [lia|]. split; [exact R1|]. split; [exact R2|].
  split; [reflexivity|].
  intros Hs Hsm. split.
  - intros n j Hn Hj. rewrite R1 by assumption.
    apply (fl_ge1_exact sop Hs d1 d2 out s x0); assumption.
  - intros n k Hn Hk. rewrite R2 by assumption.
    apply (fl_ge2_exact sop Hs d1 d2 out s x0 x1); assumption.
Qed.

Lemma backward_cpu_input_gradients_witness :
  exists ge1 ge2,
    (backward_cpu sum_lr [Examples.X0; Examples.X1] [Examples.GY]
       Examples.biased).2 = Ok (ge1, ge2)
    /\ shape ge1 = [2; 3] /\ shape ge2 = [2; 2]
    /\ (forall n j, n < 2 -> j < 3 ->
          holds (at2 ge1 n j)
            (ref_ge1 2 2 Examples.biased Examples.X1 Examples.GY n j))
    /\ (forall n k, n < 2 -> k < 2 ->
          holds (at2 ge2 n k)
            (ref_ge2 3 2 Examples.biased Examples.X0 Examples.GY n k)).
Proof.
  destruct (backward_cpu_input_gradients sum_lr 3 2 2 2 Examples.biased
              Examples.X0 Examples.X1 Examples.GY
              eq_refl eq_refl eq_refl eq_refl (Nat.lt_0_succ 1))
    as (ge1 & ge2 & H1 & H2 & _ & H3 & _ & _ & _ & _ & H4).
  exists ge1, ge2. split; [exact H1|]. split; [exact H2|]. split; [exact H3|].
  exact (H4 sum_lr_exact eq_refl).
Defined.

(** C3 as stated fails in three ways.  On a batch without samples nothing
    is returned.  On the layer built with [nobias=True] and an explicit
    bias triple nothing is returned either ([TypeError]).  And float32
    rounds: with x0 = [4097, 0, 0], x1 = [4097, 0], grad_y = [4097, 0] on
    the bias-free layer, grad_e1[0,0] is 4097 * 5 * 4097 = 83927045 by the
    rule and 83927048 as computed. *)
Lemma backward_cpu_gradients_break :
  (params_ok 3 2 2 Examples.biased = true
   /\ grads_ok 3 2 2 Examples.biased = true
   /\ valid_batch Examples.biased 0 Examples.X0_none Examples.X1_none = true
   /\ has_shape [0; 2] Examples.GY_none = true
   /\ forall sop,
        (backward_cpu sop [Examples.X0_none; Examples.X1_none]
           [Examples.GY_none] Examples.biased).2
        = Err ZeroDivisionError)
  /\ (params_ok 3 2 2 Examples.lopsided = true
      /\ valid_batch Examples.lopsided 2 Examples.X0 Examples.X1 = true
      /\ has_shape [2; 2] Examples.GY = true
      /\ forall sop,
           (backward_cpu sop [Examples.X0; Examples.X1] [Examples.GY]
              Examples.lopsided).2 = Err TypeError)
  /\ (params_ok 3 2 2 Examples.plain = true
      /\ grads_ok 3 2 2 Examples.plain = true
      /\ valid_batch Examples.plain 1 Examples.X0_4097 Examples.X1_4097 = true
      /\ has_shape [1; 2] Examples.GY_4097 = true
      /\ ref_ge1 2 2 Examples.plain Examples.X1_4097 Examples.GY_4097 0 0
         = 83927045%Z
      /\ exists ge1 ge2,
           (backward_cpu sum_lr [Examples.X0_4097; Examples.X1_4097]
              [Examples.GY_4097] Examples.plain).2 = Ok (ge1, ge2)
           /\ zat2 ge1 0 0 = 83927048%Z).
Proof.
  split; [repeat split|]. split; [repeat split|].
  repeat split; try (vm_compute; reflexivity).
  do 2 eexists. split; vm_compute; reflexivity.
Qed.

(** ** Which buffers exist *)

Lemma zero_grads_keeps s :
  same_params s (zero_grads s).1
  /\ present (gV1 (zero_grads s).1) = present (gV1 s)
  /\ present (gV2 (zero_grads s).1) = present (gV2 s)
  /\ present (gb (zero_grads s).1) = present (gb s).
Proof.
  unfold zero_grads, mbind, lift, self_, assign, mret, same_params.
  cbv beta iota zeta.
  destruct (gb s) as [g3|] eqn:E3; cbv beta iota zeta;
    [|cbn; rewrite ?E3; repeat split].
  destruct (gV1 s) as [g1|] eqn:E1; cbn [fill0_attr]; cbv beta iota zeta;
    [|cbn; rewrite ?E1, ?E3; repeat split].
  destruct (gV2 s) as [g2|] eqn:E2; cbn [fill0_attr]; cbv beta iota zeta;
    cbn; rewrite ?E1, ?E2, ?E3; repeat split.
Qed.

Lemma iadd_shape a c r0 : iadd a c = Ok r0 -> shape r0 = shape a.
Proof.
  unfold iadd. destruct (broadcastable (shape a) (shape c)); [|discriminate].
  intros [= <-]. reflexivity.
Qed.

(** What [self.g += t] leaves in the attribute when it returns. *)
Lemma iadd_attr_kept o t r0 : iadd_attr o t = Ok r0 -> buffer_kept o (Some r0).
Proof.
  destruct o as [a|]; cbn [iadd_attr buffer_kept].
  - apply iadd_shape.
  - destruct (Nat.eqb_spec (size t) 0) as [E|]; [|discriminate].
    intros [= <-]. split; [reflexivity | exact E].
Qed.

Lemma buffer_kept_refl o : buffer_kept o o.
Proof. destruct o; cbn; auto. Qed.

(** [backward_cpu] changes no parameter and deletes no buffer; it keeps the
    shape of a buffer that was there, and where there was none it can only
    leave one without elements; after it, as before, gV1 and gV2 are there
    if gb is. *)
Lemma backward_cpu_frame sop x gy s :
  let s' := (backward_cpu sop x gy s).1 in
  same_params s s'
  /\ shape (gW s') = shape (gW s)
  /\ buffer_kept (gV1 s) (gV1 s')
  /\ buffer_kept (gV2 s) (gV2 s')
  /\ buffer_kept (gb s) (gb s')
  /\ ((present (gb s) = true ->
       present (gV1 s) = true /\ present (gV2 s) = true) ->
      present (gb s') = true ->
      present (gV1 s') = true /\ present (gV2 s') = true).
Proof.
  unfold backward_cpu, mbind, lift, self_, assign, mret, same_params.
  cbv beta iota zeta.
  destruct (b s) as [bv|] eqn:Eb;
    repeat match goal with
           | |- context [match ?r with Ok _ => _ | Err _ => _ end] =>
               destruct r eqn:?; cbv beta iota zeta
           end;
    cbn [fst set_gW set_gV1 set_gV2 set_gb W gW V1 gV1 V2 gV2 b gb in_shape];
    repeat match goal with
           | H : iadd _ _ = Ok _ |- _ => apply iadd_shape in H
           | H : iadd_attr _ _ = Ok _ |- _ => apply iadd_attr_kept in H
           end;
    repeat split; try assumption; try apply buffer_kept_refl;
    try tauto.
Qed.

(** ** The constructor *)

(** What a successful construction has done. *)
Lemma init_inv ish out nobias iW ib rng junk s :
  __init__ ish out nobias iW ib rng junk = Ok s ->
  exists w v1 v2 b0,
    s = (if negb nobias then
           mk_tn w (empty_like (junk 0) w)
             v1 (Some (_empty_like (junk 1) v1))
             v2 (Some (_empty_like (junk 2) v2))
             b0 (Some (_empty_like (junk 3) b0)) ish
         else
           mk_tn w (empty_like (junk 0) w) v1 None v2 None b0 None ish)
    /\ shape w = [nth 0 ish 0; nth 1 ish 0; out]
    /\ ((exists a1 a2 a3,
           ib = Some [a1; a2; a3]
           /\ v1 = Some a1 /\ v2 = Some a2 /\ b0 = Some a3)
        \/ (ib = None /\ nobias = false
            /\ v1 = Some (zeros [nth 0 ish 0; out])
            /\ v2 = Some (zeros [nth 1 ish 0; out])
            /\ b0 = Some (zeros [out]))
        \/ (ib = None /\ nobias = true
            /\ v1 = None /\ v2 = None /\ b0 = None)).
Proof.
  unfold __init__. destruct (length ish =? 2); [|discriminate].
  set (d1 := nth 0 ish 0). set (d2 := nth 1 ish 0).
  assert (Hw : exists w,
    match iW with
    | Some w0 =>
        if bool_decide (shape w0 = [d1; d2; out]) then Ok w0
        else Err AssertionError
    | None => Ok (mk_nd [d1; d2; out] (tab (d1 * d2 * out) rng))
    end = Ok w /\ shape w = [d1; d2; out]
    \/ exists e, match iW with
       | Some w0 =>
           if bool_decide (shape w0 = [d1; d2; out]) then Ok w0
           else Err AssertionError
       | None => Ok (mk_nd [d1; d2; out] (tab (d1 * d2 * out) rng))
       end = Err e).
  { destruct iW as [w0|].
    - destruct (bool_decide (shape w0 = [d1; d2; out])) eqn:E.
      + apply bool_decide_eq_true in E. exists w0. left. split; [reflexivity | exact E].
      + exists w0. right. eexists. reflexivity.
    - eexists. left. split; reflexivity. }
  destruct Hw as (w & [[-> Sw] | [e ->]]); [|discriminate].
  cbn [rbind].
  destruct ib as [l|].
  - destruct l as [|a1 [|a2 [|a3 [|a4 l]]]]; try discriminate.
    cbn [length Nat.eqb rbind lookup list_lookup].
    intros H. exists w, (Some a1), (Some a2), (Some a3).
    split; [|split; [exact Sw|]].
    + destruct nobias; cbn [negb] in *; cbv beta iota zeta in H;
        injection H as <-; reflexivity.
    + left. exists a1, a2, a3. repeat split.
  - destruct nobias; cbn [negb rbind]; intros H.
    + exists w, None, None, None.
      split; [injection H as <-; reflexivity | split; [exact Sw|]].
      right. right. repeat split.
    + exists w, (Some (zeros [d1; out])), (Some (zeros [d2; out])),
        (Some (zeros [out])).
      split; [injection H as <-; reflexivity | split; [exact Sw|]].
      right. left. repeat split.
Qed.

Lemma all_zero_fill0 x : all_zero (fill0 x).
Proof.
  unfold all_zero, fill0. cbn [data].
  induction (data x); cbn; constructor; auto.
Qed.

Lemma wf_empty_like junk x : wf (empty_like junk x).
Proof. unfold wf, empty_like, size. cbn [data shape]. apply length_tab. Qed.

(** C5, amended.  After construction every gradient accumulator that exists
    (gW always; gV1, gV2, gb exactly when [nobias] is false) has the shape
    of its parameter.  Its contents are what the allocator handed out, not
    zeros; they are all zeros once [zero_grads] has run, which keeps the
    shapes. *)
Theorem init_gradient_buffers ish out nobias iW ib rng junk s :
  __init__ ish out nobias iW ib rng junk = Ok s ->
  (shape (gW s) = shape (W s) /\ wf (gW s)
   /\ data (gW s) = tab (size (W s)) (junk 0))
  /\ (if nobias then gV1 s = None /\ gV2 s = None /\ gb s = None
      else exists v1 v2 bv g1 g2 g3,
          V1 s = Some v1 /\ V2 s = Some v2 /\ b s = Some bv
          /\ gV1 s = Some g1 /\ gV2 s = Some g2 /\ gb s = Some g3
          /\ (shape g1 = shape v1 /\ wf g1 /\ data g1 = tab (size v1) (junk 1))
          /\ (shape g2 = shape v2 /\ wf g2 /\ data g2 = tab (size v2) (junk 2))
          /\ (shape g3 = shape bv /\ wf g3 /\ data g3 = tab (size bv) (junk 3)))
  /\ (zero_grads s).2 = Ok tt
  /\ (let z := (zero_grads s).1 in
      all_zero (gW z) /\ opt_all_zero (gV1 z)
      /\ opt_all_zero (gV2 z) /\ opt_all_zero (gb z)
      /\ shape (gW z) = shape (gW s)
      /\ opt_shape (gV1 z) = opt_shape (gV1 s)
      /\ opt_shape (gV2 z) = opt_shape (gV2 s)
      /\ opt_shape (gb z) = opt_shape (gb s)).
Proof.
  intros H. apply init_inv in H as (w & v1 & v2 & b0 & -> & Sw & Hcase).
  destruct nobias; cbn [negb].
  - cbn. repeat split; try apply length_tab. apply all_zero_fill0.
  - assert (Hs : exists a1 a2 a3, v1 = Some a1 /\ v2 = Some a2 /\ b0 = Some a3).
    { destruct Hcase as [(a1 & a2 & a3 & _ & -> & -> & ->)
                        | [(_ & _ & -> & -> & ->) | (_ & Hn & _)]];
        [do 3 eexists; repeat split .. | discriminate]. }
    destruct Hs as (a1 & a2 & a3 & -> & -> & ->).
    split; [repeat split; apply wf_empty_like|].
    split.
    { exists a1, a2, a3. do 3 eexists. cbn [V1 V2 b gV1 gV2 gb _empty_like].
      repeat split; apply wf_empty_like. }
    cbn. repeat split; apply all_zero_fill0.
Qed.

Lemma init_gradient_buffers_witness :
  (shape (gW Examples.biased) = shape (W Examples.biased)
   /\ wf (gW Examples.biased)
   /\ data (gW Examples.biased)
      = tab (size (W Examples.biased)) (Examples.junk7 0))
  /\ (zero_grads Examples.biased).2 = Ok tt
  /\ all_zero (gW (zero_grads Examples.biased).1).
Proof.
  pose proof (init_gradient_buffers [3; 2] 2 false (Some Examples.W322)
                (Some [Examples.V1_32; Examples.V2_22; Examples.b_2])
                Examples.no_rng Examples.junk7 Examples.biased eq_refl)
    as (H1 & _ & H2 & H3 & _).
  exact (conj H1 (conj H2 H3)).
Defined.

(** C5 as stated fails: a freshly built accumulator holds what the
    allocator returned, and with [nobias] and an explicit bias triple the
    bias terms are present without accumulators. *)
Lemma init_buffers_not_zeroed :
  (__init__ [3; 2] 2 false (Some Examples.W322)
     (Some [Examples.V1_32; Examples.V2_22; Examples.b_2])
     Examples.no_rng Examples.junk7 = Ok Examples.biased
   /\ at3 (gW Examples.biased) 0 0 0 = of_Z 7
   /\ ~ all_zero (gW Examples.biased))
  /\ (__init__ [3; 2] 2 true (Some Examples.W322)
        (Some [Examples.V1_32; Examples.V2_22; Examples.b_2])
        Examples.no_rng Examples.junk7 = Ok Examples.lopsided
      /\ b Examples.lopsided = Some Examples.b_2
      /\ gb Examples.lopsided = None).
Proof.
  repeat split. intros H. unfold all_zero in H. vm_compute in H.
  apply Forall_inv in H. discriminate.
Qed.

(** ** Names *)

Lemma init_presence ish out nobias iW ib rng junk s :
  __init__ ish out nobias iW ib rng junk = Ok s ->
  present (V1 s) = present (b s) /\ present (V2 s) = present (b s)
  /\ (present (gb s) = true ->
      present (gV1 s) = true /\ present (gV2 s) = true).
Proof.
  intros H. apply init_inv in H as (w & v1 & v2 & b0 & -> & _ & Hcase).
  destruct Hcase as [(a1 & a2 & a3 & _ & -> & -> & ->)
                    | [(_ & _ & -> & -> & ->) | (_ & _ & -> & -> & ->)]];
    destruct nobias; cbn; repeat split; discriminate.
Qed.

(** The invariant of the layers that can come about. *)
Lemma reachable_presence sop s :
  reachable sop s ->
  present (V1 s) = present (b s) /\ present (V2 s) = present (b s)
  /\ (present (gb s) = true ->
      present (gV1 s) = true /\ present (gV2 s) = true).
Proof.
  intros Hr.
  induction Hr as [? ? ? ? ? ? ? s H | s Hr IH | x gy s Hr IH].
  - eapply init_presence, H.
  - destruct (zero_grads_keeps s) as ((_ & -> & -> & -> & _) & -> & -> & ->).
    exact IH.
  - destruct (backward_cpu_frame sop x gy s)
      as ((_ & -> & -> & -> & _) & _ & _ & _ & _ & Hk).
    destruct IH as (I1 & I2 & I3).
    split; [exact I1|]. split; [exact I2|]. exact (Hk I3).
Qed.

(** C8.  In every layer that can come about, V1, V2 and b are present or
    absent together; [parameter_names] is ('W',) when b is absent and
    ('W', 'V1', 'V2', 'b') when it is present; [gradient_names] is ('gW',)
    or ('gW', 'gV1', 'gV2', 'gb') by the presence of gb, and where gb is
    present so are gV1 and gV2: the assertions of the two methods never
    fire. *)
Theorem names_follow_bias sop s :
  reachable sop s ->
  (present (V1 s) = present (b s) /\ present (V2 s) = present (b s))
  /\ parameter_names s
     = Ok (if present (b s) then ["W"; "V1"; "V2"; "b"] else ["W"])%string
  /\ (present (gb s) = true ->
      present (gV1 s) = true /\ present (gV2 s) = true)
  /\ gradient_names s
     = Ok (if present (gb s) then ["gW"; "gV1"; "gV2"; "gb"] else ["gW"])%string.
Proof.
  intros Hr. destruct (reachable_presence sop s Hr) as (H1 & H2 & H3).
  split; [split; assumption|].
  split.
  - unfold parameter_names.
    destruct (V1 s), (V2 s), (b s); try discriminate; reflexivity.
  - split; [exact H3|]. unfold gradient_names.
    destruct (gb s); [|reflexivity].
    destruct (H3 eq_refl) as [G1 G2].
    destruct (gV1 s), (gV2 s); try discriminate; reflexivity.
Qed.

Lemma names_follow_bias_witness :
  let s := (backward_cpu sum_lr [Examples.X0; Examples.X1] [Examples.GY]
              (zero_grads Examples.biased).1).1 in
  (present (V1 s) = present (b s) /\ present (V2 s) = present (b s))
  /\ parameter_names s
     = Ok (if present (b s) then ["W"; "V1"; "V2"; "b"] else ["W"])%string
  /\ (present (gb s) = true ->
      present (gV1 s) = true /\ present (gV2 s) = true)
  /\ gradient_names s
     = Ok (if present (gb s) then ["gW"; "gV1"; "gV2"; "gb"] else ["gW"])%string.
Proof.
  apply (names_follow_bias sum_lr).
  apply reach_backward_cpu, reach_zero_grads.
  exact (reach_init sum_lr [3; 2] 2 false (Some Examples.W322)
           (Some [Examples.V1_32; Examples.V2_22; Examples.b_2])
           Examples.no_rng Examples.junk7 Examples.biased eq_refl).
Defined.

(** C10.  Built with [nobias=True] and an explicit bias triple, the layer
    adopts V1, V2 and b but has no gV1, gV2, gb; [parameter_names] reports
    four names, [gradient_names] only 'gW', and [zero_grads] zeroes gW and
    nothing else. *)
Theorem nobias_with_initial_bias ish out iW v1 v2 bv rng junk s :
  __init__ ish out true iW (Some [v1; v2; bv]) rng junk = Ok s ->
  (V1 s = Some v1 /\ V2 s = Some v2 /\ b s = Some bv)
  /\ (gV1 s = None /\ gV2 s = None /\ gb s = None)
  /\ parameter_names s = Ok ["W"; "V1"; "V2"; "b"]%string
  /\ gradient_names s = Ok ["gW"]%string
  /\ zero_grads s = (set_gW (fill0 (gW s)) s, Ok tt).
Proof.
  intros H. apply init_inv in H as (w & v1' & v2' & b0 & -> & _ & Hcase).
  destruct Hcase as [(a1 & a2 & a3 & E & -> & -> & ->)
                    | [(E & _) | (E & _)]]; try discriminate.
  injection E as -> -> ->. repeat split.
Qed.

Lemma nobias_with_initial_bias_witness :
  (V1 Examples.lopsided = Some Examples.V1_32
   /\ V2 Examples.lopsided = Some Examples.V2_22
   /\ b Examples.lopsided = Some Examples.b_2)
  /\ (gV1 Examples.lopsided = None /\ gV2 Examples.lopsided = None
      /\ gb Examples.lopsided = None)
  /\ parameter_names Examples.lopsided = Ok ["W"; "V1"; "V2"; "b"]%string
  /\ gradient_names Examples.lopsided = Ok ["gW"]%string
  /\ zero_grads Examples.lopsided
     = (set_gW (fill0 (gW Examples.lopsided)) Examples.lopsided, Ok tt).
Proof.
  exact (nobias_with_initial_bias [3; 2] 2 (Some Examples.W322)
           Examples.V1_32 Examples.V2_22 Examples.b_2
           Examples.no_rng Examples.junk7 Examples.lopsided eq_refl).
Defined.

(** ** Reset and accumulation *)

Lemma all_zero_nth x p : all_zero x -> nth p (data x) f0 = f0.
Proof.
  unfold all_zero. revert p.
  induction (data x) as [|u l IH]; intros [|p] H; cbn; try reflexivity.
  - symmetry. exact (Forall_inv H).
  - apply IH. exact (Forall_inv_tail H).
Qed.

Lemma fill0_same g g' :
  shape g = shape g' -> length (data g) = length (data g') ->
  fill0 g = fill0 g'.
Proof.
  intros Hs Hl. unfold fill0. rewrite Hs. f_equal.
  revert Hl. generalize (data g'). induction (data g) as [|u l IH];
    intros [|v l'] Hl; cbn in *; try lia; [reflexivity|].
  f_equal. apply IH. lia.
Qed.

Lemma zero_grads_value d1 d2 out s :
  grads_ok d1 d2 out s = true -> zero_grads s = (zeroed s, Ok tt).
Proof.
  intros Hg. destruct (grads_ok_inv _ _ _ _ Hg) as (_ & _ & Hgb).
  unfold zero_grads, zeroed, mbind, lift, self_, assign, mret.
  cbv beta iota zeta.
  destruct (b s).
  - destruct Hgb as (g1 & g2 & g3 & -> & -> & -> & _). reflexivity.
  - destruct Hgb as (-> & -> & ->). reflexivity.
Qed.

Lemma zeroed_spec d1 d2 out s :
  grads_ok d1 d2 out s = true ->
  grads_ok d1 d2 out (zeroed s) = true
  /\ same_params s (zeroed s)
  /\ all_zero (gW (zeroed s)) /\ opt_all_zero (gV1 (zeroed s))
  /\ opt_all_zero (gV2 (zeroed s)) /\ opt_all_zero (gb (zeroed s)).
Proof.
  intros Hg. destruct (grads_ok_inv _ _ _ _ Hg) as (SW & LW & Hgb).
  unfold zeroed, grads_ok, same_params.
  destruct (b s) eqn:Eb.
  - destruct Hgb as (g1 & g2 & g3 & G1 & G2 & G3 & S1 & L1 & S2 & L2 & S3 & L3).
    rewrite G1, G2, G3. cbn. rewrite Eb. cbn.
    unfold has_shape, wfb, size. cbn [shape data fill0].
    rewrite SW, S1, S2, S3, !length_map, LW, L1, L2, L3.
    cbn [prod foldr].
    rewrite !bool_decide_eq_true_2 by reflexivity.
    repeat split; try apply all_zero_fill0.
    cbn [andb]. rewrite !andb_true_iff, !Nat.eqb_eq. lia.
  - destruct Hgb as (G1 & G2 & G3). rewrite G1, G2, G3. cbn.
    rewrite Eb, G1, G2, G3.
    unfold has_shape, wfb, size. cbn [shape data fill0].
    rewrite SW, length_map, LW. cbn [prod foldr].
    rewrite bool_decide_eq_true_2 by reflexivity.
    repeat split; try apply all_zero_fill0.
    cbn. rewrite andb_true_r. apply Nat.eqb_eq. lia.
Qed.

(** What a zeroed accumulator holds. *)
Lemma zeroed_reads d1 d2 out s :
  grads_ok d1 d2 out s = true ->
  (forall j k l, zat3 (gW (zeroed s)) j k l = 0%Z)
  /\ (forall j l, zopt_at2 (gV1 (zeroed s)) j l = 0%Z)
  /\ (forall k l, zopt_at2 (gV2 (zeroed s)) k l = 0%Z)
  /\ (forall l, zopt_at1 (gb (zeroed s)) l = 0%Z).
Proof.
  intros Hg. destruct (zeroed_spec _ _ _ _ Hg) as (_ & _ & ZW & Z1 & Z2 & Zb).
  unfold zat3, zopt_at2, zopt_at1, at3, opt_at2, opt_at1, at2, at1.
  split; [|split; [|split]]; intros.
  - rewrite all_zero_nth by exact ZW. reflexivity.
  - destruct (gV1 (zeroed s)); [|reflexivity].
    rewrite all_zero_nth by exact Z1. reflexivity.
  - destruct (gV2 (zeroed s)); [|reflexivity].
    rewrite all_zero_nth by exact Z2. reflexivity.
  - destruct (gb (zeroed s)); [|reflexivity].
    rewrite all_zero_nth by exact Zb. reflexivity.
Qed.

(** Two layers of the same extents and bias configuration have the same
    accumulators once reset. *)
Lemma zeroed_accumulators d1 d2 out s t :
  grads_ok d1 d2 out s = true -> grads_ok d1 d2 out t = true ->
  present (b t) = present (b s) ->
  accumulators (zeroed t) = accumulators (zeroed s).
Proof.
  intros Hs Ht Hb.
  destruct (grads_ok_inv _ _ _ _ Hs) as (SW & LW & Hgs).
  destruct (grads_ok_inv _ _ _ _ Ht) as (TW & KW & Hgt).
  assert (EW : fill0 (gW t) = fill0 (gW s))
    by (apply fill0_same; congruence).
  unfold accumulators, zeroed.
  destruct (b s), (b t); try discriminate.
  - destruct Hgs as (g1 & g2 & g3 & G1 & G2 & G3 & S1 & L1 & S2 & L2 & S3 & L3).
    destruct Hgt as (h1 & h2 & h3 & H1 & H2 & H3 & T1 & K1 & T2 & K2 & T3 & K3).
    rewrite G1, G2, G3, H1, H2, H3. cbn.
    rewrite EW, (fill0_same h1 g1), (fill0_same h2 g2), (fill0_same h3 g3)
      by congruence.
    reflexivity.
  - destruct Hgs as (G1 & G2 & G3). destruct Hgt as (H1 & H2 & H3).
    rewrite G3, H3. cbn. rewrite EW, G1, G2, G3, H1, H2, H3. reflexivity.
Qed.

Lemma accumulated_accumulators sop d1 d2 out N x0 x1 gy s t :
  accumulators t = accumulators s -> present (b t) = present (b s) ->
  accumulators (accumulated sop d1 d2 out N x0 x1 gy t)
  = accumulators (accumulated sop d1 d2 out N x0 x1 gy s).
Proof.
  unfold accumulators, accumulated. intros [= EW E1 E2 Eb] Hb.
  destruct (b s), (b t); try discriminate; cbn; rewrite EW, E1, E2, Eb;
    reflexivity.
Qed.

Lemma valid_batch_extents d1 d2 out s t N x0 x1 :
  params_ok d1 d2 out s = true -> params_ok d1 d2 out t = true ->
  valid_batch t N x0 x1 = valid_batch s N x0 x1.
Proof.
  intros Hs Ht.
  destruct (params_ok_inv _ _ _ _ Hs) as (Is & _).
  destruct (params_ok_inv _ _ _ _ Ht) as (It & _).
  unfold valid_batch, check_type_forward. rewrite Is, It. reflexivity.
Qed.

(** After a reset, a pass leaves arrays that depend on the batch, on the
    output gradient, on the extents and on the presence of b, and on
    nothing else. *)
Lemma after_reset_accumulators sop d1 d2 out N s t x0 x1 gy :
  params_ok d1 d2 out s = true -> grads_ok d1 d2 out s = true ->
  params_ok d1 d2 out t = true -> grads_ok d1 d2 out t = true ->
  present (b t) = present (b s) ->
  valid_batch s N x0 x1 = true -> has_shape [N; out] gy = true ->
  accumulators (backward_cpu sop [x0; x1] [gy] (zero_grads t).1).1
  = accumulators (backward_cpu sop [x0; x1] [gy] (zero_grads s).1).1.
Proof.
  intros Hp Hg Hpt Hgt Hb Hv Hgy.
  rewrite (zero_grads_value _ _ _ _ Hg), (zero_grads_value _ _ _ _ Hgt).
  cbn [fst].
  destruct (zeroed_spec _ _ _ _ Hg) as (Hg' & Hs' & _).
  destruct (zeroed_spec _ _ _ _ Hgt) as (Hgt' & Ht' & _).
  assert (Hp' : params_ok d1 d2 out (zeroed s) = true)
    by (rewrite (params_ok_same _ _ _ _ _ Hs'); exact Hp).
  assert (Hpt' : params_ok d1 d2 out (zeroed t) = true)
    by (rewrite (params_ok_same _ _ _ _ _ Ht'); exact Hpt).
  assert (Hv' : valid_batch (zeroed s) N x0 x1 = true)
    by (rewrite (valid_batch_same _ _ _ _ _ Hs'); exact Hv).
  assert (Hvt' : valid_batch (zeroed t) N x0 x1 = true)
    by (rewrite (valid_batch_extents d1 d2 out (zeroed s)); assumption).
  pose proof (zeroed_accumulators d1 d2 out s t Hg Hgt Hb) as Hz.
  destruct (Nat.eq_dec N 0) as [->|HN].
  - destruct (valid_batch_inv _ _ _ _ _ _ _ Hp Hv) as (r0 & r1 & S0 & _).
    rewrite !(backward_cpu_empty_batch _ _ _ _ _ _ S0). exact Hz.
  - rewrite !(backward_cpu_value sop d1 d2 out N) by (assumption || lia).
    cbn [fst]. apply accumulated_accumulators; [exact Hz|].
    destruct Hs' as (_ & _ & _ & -> & _). destruct Ht' as (_ & _ & _ & -> & _).
    exact Hb.
Qed.

Lemma grads_are_ext d1 d2 out s (fW fW' : nat -> nat -> nat -> Z)
    (f1 f1' f2 f2' : nat -> nat -> Z) (fb fb' : nat -> Z) :
  (forall j k l, fW j k l = fW' j k l) ->
  (forall j l, f1 j l = f1' j l) -> (forall k l, f2 k l = f2' k l) ->
  (forall l, fb l = fb' l) ->
  grads_are d1 d2 out s fW f1 f2 fb -> grads_are d1 d2 out s fW' f1' f2' fb'.
Proof.
  intros EW E1 E2 Eb [HW Hb]. split.
  - intros. rewrite <- EW. auto.
  - intros Hn. destruct (Hb Hn) as (H1 & H2 & H3).
    split; [|split]; intros; rewrite <- ?E1, <- ?E2, <- ?Eb; auto.
Qed.

(** C6, amended.  On a layer whose parameters have the shapes of the data
    model and that has an accumulator of the same shape for every
    parameter present: [zero_grads] returns and leaves every gradient
    buffer all zeros, with its shape.  A pass after a reset leaves
    accumulators that do not depend on what they held before: any other
    such layer of the same extents and bias configuration, reset and given
    the same valid batch and output gradient of shape (N, out), ends with
    the same accumulators; they hold exactly the contractions of that pass
    whenever batch and output gradient hold integers small enough for
    every partial result to stay below 2^24 in magnitude.  Two passes
    without a reset in between leave in every cell the float32 sum
    (old + first contraction) + second contraction, which is the old
    contents plus both contractions exactly under the same proviso
    ([acc_small] before either pass). *)
Theorem reset_and_accumulation sop d1 d2 out s N x0 x1 gy N' x0' x1' gy' :
  params_ok d1 d2 out s = true -> grads_ok d1 d2 out s = true ->
  valid_batch s N x0 x1 = true -> has_shape [N; out] gy = true ->
  valid_batch s N' x0' x1' = true -> has_shape [N'; out] gy' = true ->
  let z := (zero_grads s).1 in
  let one := (backward_cpu sop [x0; x1] [gy] z).1 in
  let s1 := (backward_cpu sop [x0; x1] [gy] s).1 in
  let two := (backward_cpu sop [x0'; x1'] [gy'] s1).1 in
  ((zero_grads s).2 = Ok tt
   /\ grads_ok d1 d2 out z = true /\ same_params s z
   /\ all_zero (gW z) /\ opt_all_zero (gV1 z)
   /\ opt_all_zero (gV2 z) /\ opt_all_zero (gb z))
  /\ (forall t,
        params_ok d1 d2 out t = true -> grads_ok d1 d2 out t = true ->
        present (b t) = present (b s) ->
        accumulators (backward_cpu sop [x0; x1] [gy] (zero_grads t).1).1
        = accumulators one)
  /\ (exact_on_small_integers sop -> acc_small N z x0 x1 gy = true ->
      grads_are d1 d2 out one
        (ref_gW d1 d2 x0 x1 gy N) (ref_gV1 d1 x0 gy N)
        (ref_gV2 d2 x1 gy N) (ref_gb gy N))
  /\ (0 < N -> 0 < N' ->
      grads_eq d1 d2 out two
        (fun j k l => fadd (fadd (at3 (gW s) j k l)
                              (fl_gW sop d1 d2 x0 x1 gy N j k l))
                        (fl_gW sop d1 d2 x0' x1' gy' N' j k l))
        (fun j l => fadd (fadd (opt_at2 (gV1 s) j l)
                            (fl_gV1 sop d1 x0 gy N j l))
                      (fl_gV1 sop d1 x0' gy' N' j l))
        (fun k l => fadd (fadd (opt_at2 (gV2 s) k l)
                            (fl_gV2 sop d2 x1 gy N k l))
                      (fl_gV2 sop d2 x1' gy' N' k l))
        (fun l => fadd (fadd (opt_at1 (gb s) l) (fl_gb sop gy N l))
                    (fl_gb sop gy' N' l)))
  /\ (exact_on_small_integers sop ->
      acc_small N s x0 x1 gy = true -> acc_small N' s1 x0' x1' gy' = true ->
      grads_are d1 d2 out two
        (fun j k l => (zat3 (gW s) j k l + ref_gW d1 d2 x0 x1 gy N j k l
                       + ref_gW d1 d2 x0' x1' gy' N' j k l)%Z)
        (fun j l => (zopt_at2 (gV1 s) j l + ref_gV1 d1 x0 gy N j l
                     + ref_gV1 d1 x0' gy' N' j l)%Z)
        (fun k l => (zopt_at2 (gV2 s) k l + ref_gV2 d2 x1 gy N k l
                     + ref_gV2 d2 x1' gy' N' k l)%Z)
        (fun l => (zopt_at1 (gb s) l + ref_gb gy N l + ref_gb gy' N' l)%Z)).
Proof.
  intros Hp Hg Hv Hgy Hv' Hgy' z one s1 two.
  destruct (zeroed_spec _ _ _ _ Hg) as (Hgz & Hsz & Hzeros).
  assert (Ez : z = zeroed s)
    by (subst z; rewrite (zero_grads_value _ _ _ _ Hg); reflexivity).
  assert (Hpz : params_ok d1 d2 out z = true)
    by (rewrite Ez, (params_ok_same _ _ _ _ _ Hsz); exact Hp).
  assert (Hvz : valid_batch z N x0 x1 = true)
    by (rewrite Ez, (valid_batch_same _ _ _ _ _ Hsz); exact Hv).
  destruct (backward_cpu_keeps_data_model sop d1 d2 out N s x0 x1 gy
              Hp Hg Hv Hgy) as [Hg1 Hs1].
  fold s1 in Hg1, Hs1.
  assert (Hp1 : params_ok d1 d2 out s1 = true)
    by (rewrite (params_ok_same _ _ _ _ _ Hs1); exact Hp).
  assert (Hv1 : valid_batch s1 N' x0' x1' = true)
    by (rewrite (valid_batch_same _ _ _ _ _ Hs1); exact Hv').
  split; [|split; [|split; [|split]]].
  - rewrite Ez, (zero_grads_value _ _ _ _ Hg). cbn [snd].
    split; [reflexivity|]. split; [exact Hgz|]. split; [exact Hsz|]. exact Hzeros.
  - intros t Hpt Hgt Hbt. subst one z.
    apply (after_reset_accumulators sop d1 d2 out N s t); assumption.
  - intros Hsop Hsm.
    pose proof (backward_cpu_pass sop d1 d2 out N z x0 x1 gy Hsop Hpz
                  ltac:(rewrite Ez; exact Hgz) Hvz Hgy Hsm) as Hone.
    fold one in Hone.
    destruct (zeroed_reads _ _ _ _ Hg) as (RW & R1 & R2 & Rb).
    rewrite <- Ez in RW, R1, R2, Rb.
    revert Hone. apply grads_are_ext; intros;
      rewrite ?RW, ?R1, ?R2, ?Rb; reflexivity.
  - intros HN HN'.
    assert (E1 : s1 = accumulated sop d1 d2 out N x0 x1 gy s)
      by (subst s1; rewrite (backward_cpu_value sop d1 d2 out N) by assumption;
          reflexivity).
    assert (E2 : two = accumulated sop d1 d2 out N' x0' x1' gy' s1)
      by (subst two; rewrite (backward_cpu_value sop d1 d2 out N') by assumption;
          reflexivity).
    destruct (accumulated_cells sop d1 d2 out N x0 x1 gy s Hg) as [A1 A2].
    rewrite <- E1 in A1, A2.
    destruct (accumulated_cells sop d1 d2 out N' x0' x1' gy' s1 Hg1) as [B1 B2].
    rewrite <- E2 in B1, B2.
    assert (Hb2 : b two = b s1).
    { rewrite E2.
      destruct (accumulated_ok sop d1 d2 out N' x0' x1' gy' s1 Hg1)
        as (_ & _ & _ & _ & -> & _). reflexivity. }
    split.
    + intros j k l Hj Hk Hl. rewrite B1, A1 by assumption. reflexivity.
    + intros Hb. rewrite Hb2 in Hb.
      destruct (A2 Hb) as (A21 & A22 & A23).
      rewrite <- Hb2 in Hb. destruct (B2 Hb) as (B21 & B22 & B23).
      split; [|split]; intros.
      * rewrite B21, A21 by assumption. reflexivity.
      * rewrite B22, A22 by assumption. reflexivity.
      * rewrite B23, A23 by assumption. reflexivity.
  - intros Hsop Hsm Hsm'.
    pose proof (backward_cpu_pass sop d1 d2 out N s x0 x1 gy Hsop Hp Hg Hv
                  Hgy Hsm) as [A1 A2].
    fold s1 in A1, A2.
    pose proof (backward_cpu_pass sop d1 d2 out N' s1 x0' x1' gy' Hsop Hp1 Hg1
                  Hv1 Hgy' Hsm') as [B1 B2].
    fold two in B1, B2.
    assert (Hb2 : b two = b s1).
    { destruct (backward_cpu_keeps_data_model sop d1 d2 out N' s1 x0' x1' gy'
                  Hp1 Hg1 Hv1 Hgy') as (_ & _ & _ & _ & Hb & _).
      exact Hb. }
    split.
    + intros j k l Hj Hk Hl.
      destruct (A1 j k l Hj Hk Hl) as [_ E]. unfold zat3 in *.
      rewrite <- E. apply B1; assumption.
    + intros Hb. rewrite Hb2 in Hb.
      destruct (A2 Hb) as (A21 & A22 & A23).
      rewrite <- Hb2 in Hb. destruct (B2 Hb) as (B21 & B22 & B23).
      unfold zopt_at2, zopt_at1 in *.
      split; [|split]; intros.
      * destruct (A21 j l) as [_ E]; try assumption. rewrite <- E.
        apply B21; assumption.
      * destruct (A22 k l) as [_ E]; try assumption. rewrite <- E.
        apply B22; assumption.
      * destruct (A23 l) as [_ E]; try assumption. rewrite <- E.
        apply B23; assumption.
Qed.

Lemma reset_and_accumulation_witness :
  let z := (zero_grads Examples.biased).1 in
  all_zero (gW z)
  /\ grads_are 3 2 2
       (backward_cpu sum_lr [Examples.X0; Examples.X1] [Examples.GY] z).1
       (ref_gW 3 2 Examples.X0 Examples.X1 Examples.GY 2)
       (ref_gV1 3 Examples.X0 Examples.GY 2)
       (ref_gV2 2 Examples.X1 Examples.GY 2)
       (ref_gb Examples.GY 2).
Proof.
  destruct (reset_and_accumulation sum_lr 3 2 2 Examples.biased
              2 Examples.X0 Examples.X1 Examples.GY
              2 Examples.X0' Examples.X1' Examples.GY
              eq_refl eq_refl eq_refl eq_refl eq_refl eq_refl)
    as ((_ & _ & _ & H1 & _) & _ & H2 & _).
  split; [exact H1|].
  exact (H2 sum_lr_exact eq_refl).
Defined.

(** C6 as stated fails in two ways.  The first pass of a freshly built
    layer adds to what the allocator left in the buffers (16 in gW[0,0,0]),
    a pass after a reset does not (9).  And float32 rounds: after a reset,
    one pass that contributes 4096 * 4096 * 1 = 2^24 to gW[0,0,0] and one
    that contributes 1 leave 2^24 there, not 2^24 + 1. *)
Lemma accumulation_keeps_junk_and_rounds :
  (__init__ [3; 2] 2 false (Some Examples.W322)
     (Some [Examples.V1_32; Examples.V2_22; Examples.b_2])
     Examples.no_rng Examples.junk7 = Ok Examples.biased
   /\ zat3 (gW (backward_cpu sum_lr [Examples.X0; Examples.X1] [Examples.GY]
                  Examples.biased).1) 0 0 0 = 16%Z
   /\ zat3 (gW (backward_cpu sum_lr [Examples.X0; Examples.X1] [Examples.GY]
                  (zero_grads Examples.biased).1).1) 0 0 0 = 9%Z
   /\ accumulators (backward_cpu sum_lr [Examples.X0; Examples.X1]
                      [Examples.GY] Examples.biased).1
      <> accumulators (backward_cpu sum_lr [Examples.X0; Examples.X1]
                         [Examples.GY] (zero_grads Examples.biased).1).1)
  /\ (let z := (zero_grads Examples.plain).1 in
      let first := (backward_cpu sum_lr [Examples.X0_4096; Examples.X1_4096]
                      [Examples.GY_1] z).1 in
      let second := (backward_cpu sum_lr [Examples.X0_1; Examples.X1_1]
                       [Examples.GY_1] z).1 in
      let both := (backward_cpu sum_lr [Examples.X0_1; Examples.X1_1]
                     [Examples.GY_1] first).1 in
      params_ok 3 2 2 z = true /\ grads_ok 3 2 2 z = true
      /\ valid_batch z 1 Examples.X0_4096 Examples.X1_4096 = true
      /\ valid_batch z 1 Examples.X0_1 Examples.X1_1 = true
      /\ has_shape [1; 2] Examples.GY_1 = true
      /\ zat3 (gW first) 0 0 0 = 16777216%Z
      /\ zat3 (gW second) 0 0 0 = 1%Z
      /\ zat3 (gW both) 0 0 0 = 16777216%Z).
Proof.
  split.
  - repeat split; try (vm_compute; reflexivity).
    intros H. vm_compute in H. discriminate.
  - cbv zeta. repeat split; vm_compute; reflexivity.
Qed.

(** ** Failures of the backward pass *)

(** C7, amended.  [check_type_backward] accepts everything: the shape of
    grad_y is never checked as such.  On a layer whose parameters have the
    shapes of the data model and that has an accumulator of the same shape
    for every parameter present, for a valid batch and grad_y of shape
    (N, out): with N >= 1 [backward_cpu] does not fail; with N = 0 it
    raises [ZeroDivisionError] and changes nothing. *)
Theorem backward_cpu_returns sop d1 d2 out N s x0 x1 gy :
  params_ok d1 d2 out s = true -> grads_ok d1 d2 out s = true ->
  valid_batch s N x0 x1 = true -> has_shape [N; out] gy = true ->
  (forall in_types out_types,
     check_type_backward s in_types out_types = Ok tt)
  /\ (0 < N -> is_ok (backward_cpu sop [x0; x1] [gy] s).2 = true)
  /\ (N = 0 ->
      backward_cpu sop [x0; x1] [gy] s = (s, Err ZeroDivisionError)).
Proof.
  intros Hp Hg Hv Hgy. split; [reflexivity|]. split.
  - intros HN.
    rewrite (backward_cpu_value sop d1 d2 out N) by assumption. reflexivity.
  - intros ->.
    destruct (valid_batch_inv _ _ _ _ _ _ _ Hp Hv) as (r0 & r1 & S0 & _).
    apply (backward_cpu_empty_batch _ _ _ _ _ _ S0).
Qed.

Lemma backward_cpu_returns_witness :
  (forall in_types out_types,
     check_type_backward Examples.biased in_types out_types = Ok tt)
  /\ is_ok (backward_cpu sum_lr [Examples.X0; Examples.X1] [Examples.GY]
              Examples.biased).2 = true.
Proof.
  destruct (backward_cpu_returns sum_lr 3 2 2 2 Examples.biased
              Examples.X0 Examples.X1 Examples.GY
              eq_refl eq_refl eq_refl eq_refl) as (H1 & H2 & _).
  exact (conj H1 (H2 (Nat.lt_0_succ 1))).
Defined.

(** C7 as stated fails in five ways.  With bias terms, a grad_y of shape
    (2, 1) instead of (2, 2) passes the type check and is broadcast into
    all four accumulators before [dot] raises [ValueError].  Without bias
    terms the same grad_y raises nothing.  A grad_y of the right shape for
    a batch without samples raises [ZeroDivisionError].  On the layer built
    with [nobias=True] and an explicit bias triple a grad_y of the right
    shape raises [TypeError], after gW has been updated.  And on a layer
    built with a first bias term of the wrong shape, which the constructor
    accepts, a grad_y of the right shape raises [ValueError], after gW has
    been updated. *)
Lemma backward_cpu_shape_not_checked :
  (check_type_backward Examples.biased
     [shape Examples.X0; shape Examples.X1] [shape Examples.GY_narrow] = Ok tt
   /\ (forall sop,
         (backward_cpu sop [Examples.X0; Examples.X1] [Examples.GY_narrow]
            Examples.biased).2 = Err ValueError)
   /\ data (gW (backward_cpu sum_lr [Examples.X0; Examples.X1]
                  [Examples.GY_narrow] Examples.biased).1)
      <> data (gW Examples.biased)
   /\ gb (backward_cpu sum_lr [Examples.X0; Examples.X1] [Examples.GY_narrow]
            Examples.biased).1
      = Some (Examples.from_ints [2] [13; 14]%Z)
   /\ gb Examples.biased = Some (Examples.from_ints [2] [10; 11]%Z))
  /\ (forall sop,
        is_ok (backward_cpu sop [Examples.X0; Examples.X1]
                 [Examples.GY_narrow] Examples.plain).2 = true)
  /\ (params_ok 3 2 2 Examples.biased = true
      /\ grads_ok 3 2 2 Examples.biased = true
      /\ valid_batch Examples.biased 0 Examples.X0_none Examples.X1_none = true
      /\ has_shape [0; 2] Examples.GY_none = true
      /\ forall sop,
           (backward_cpu sop [Examples.X0_none; Examples.X1_none]
              [Examples.GY_none] Examples.biased).2 = Err ZeroDivisionError)
  /\ (__init__ [3; 2] 2 true (Some Examples.W322)
        (Some [Examples.V1_32; Examples.V2_22; Examples.b_2])
        Examples.no_rng Examples.junk7 = Ok Examples.lopsided
      /\ valid_batch Examples.lopsided 2 Examples.X0 Examples.X1 = true
      /\ has_shape [2; 2] Examples.GY = true
      /\ (forall sop,
            (backward_cpu sop [Examples.X0; Examples.X1] [Examples.GY]
               Examples.lopsided).2 = Err TypeError)
      /\ data (gW (backward_cpu sum_lr [Examples.X0; Examples.X1]
                     [Examples.GY] Examples.lopsided).1)
         <> data (gW Examples.lopsided))
  /\ (__init__ [3; 2] 2 false (Some Examples.W322)
        (Some [Examples.V2_22; Examples.V2_22; Examples.b_2])
        Examples.no_rng Examples.junk7 = Ok Examples.misfit
      /\ valid_batch Examples.misfit 2 Examples.X0 Examples.X1 = true
      /\ has_shape [2; 2] Examples.GY = true
      /\ (forall sop,
            (backward_cpu sop [Examples.X0; Examples.X1] [Examples.GY]
               Examples.misfit).2 = Err ValueError)
      /\ data (gW (backward_cpu sum_lr [Examples.X0; Examples.X1]
                     [Examples.GY] Examples.misfit).1)
         <> data (gW Examples.misfit)).
Proof.
  repeat split; try (vm_compute; reflexivity);
    intros H; vm_compute in H; discriminate.
Qed.

(** ** Linearity of the forward pass *)

Lemma sum_upto_lin n a c f g :
  sum_upto n (fun i => (a * f i + c * g i)%Z)
  = (a * sum_upto n f + c * sum_upto n g)%Z.
Proof. induction n as [|n IH]; simpl; lia. Qed.

Lemma nth_zip_with (f : f32 -> f32 -> f32) l l' p :
  p < length l -> length l' = length l ->
  nth p (zip_with f l l') f0 = f (nth p l f0) (nth p l' f0).
Proof.
  revert l' p. induction l as [|u l IH]; intros [|v l'] [|p] Hp Hl;
    cbn in *; try lia; try reflexivity.
  apply IH; lia.
Qed.

Lemma forallb_nth {A} (P : A -> bool) l p d :
  forallb P l = true -> p < length l -> P (nth p l d) = true.
Proof.
  intros H Hp. rewrite forallb_forall in H. apply H, nth_In, Hp.
Qed.

(** A cell of a combination that stays exact. *)
Lemma lincomb_cell a c x x' p :
  lin_small a x c x' = true ->
  length (data x') = length (data x) -> p < length (data x) ->
  holds (nth p (data (lincomb a x c x')) f0)
    (zv a * zv (nth p (data x) f0) + zv c * zv (nth p (data x') f0)).
Proof.
  unfold lin_small. intros H Hl Hp.
  apply andb_prop in H as [H Hall]. apply andb_prop in H as [Ha Hc].
  apply (forallb_nth _ _ p (f0, f0)) in Hall;
    [|rewrite length_combine; lia].
  rewrite combine_nth in Hall by (symmetry; exact Hl).
  apply andb_prop in Hall as [Hall B3]. apply andb_prop in Hall as [Hall B2].
  apply andb_prop in Hall as [Hall B1]. apply andb_prop in Hall as [Hu Hv].
  apply Z.ltb_lt in B1, B2, B3.
  unfold lincomb. cbn [data]. rewrite nth_zip_with by assumption.
  destruct (fmul_exact _ _ Ha Hu B1) as [I1 E1].
  destruct (fmul_exact _ _ Hc Hv B2) as [I2 E2].
  rewrite <- E1, <- E2.
  apply fadd_exact.
  - apply small_intro; [exact I1 | rewrite E1; exact B1].
  - apply small_intro; [exact I2 | rewrite E2; exact B2].
  - rewrite E1, E2. exact B3.
Qed.

Lemma zflat_lincomb d a c x x' N n j :
  lin_small a x c x' = true ->
  length (data x) = N * d -> length (data x') = N * d -> n < N -> j < d ->
  zflat d (lincomb a x c x') n j
  = (zv a * zflat d x n j + zv c * zflat d x' n j)%Z.
Proof.
  intros Hs L L' Hn Hj. unfold zflat, flat.
  apply lincomb_cell; [exact Hs | congruence |].
  rewrite L. apply row_lt; assumption.
Qed.

(** A combination of two arrays of one shape is as valid as they are. *)
Ltac valid_lincomb :=
  unfold valid_batch, wfb, size, dim, lincomb; cbn [shape data];
  intros H H' Hs; rewrite Hs in H';
  repeat (apply andb_prop in H as [H ?]);
  repeat (apply andb_prop in H' as [H' ?]);
  repeat match goal with
         | Hq : (_ =? _) = true |- _ => apply Nat.eqb_eq in Hq
         end;
  rewrite length_zip_with;
  repeat (apply andb_true_intro; split); try assumption;
  apply Nat.eqb_eq; lia.

Lemma valid_batch_lincomb_l s N a c x0 x0' x1 :
  valid_batch s N x0 x1 = true -> valid_batch s N x0' x1 = true ->
  shape x0' = shape x0 ->
  valid_batch s N (lincomb a x0 c x0') x1 = true.
Proof.
  valid_lincomb.
Qed.

Lemma valid_batch_lincomb_r s N a c x0 x1 x1' :
  valid_batch s N x0 x1 = true -> valid_batch s N x0 x1' = true ->
  shape x1' = shape x1 ->
  valid_batch s N x0 (lincomb a x1 c x1') = true.
Proof.
  valid_lincomb.
Qed.

Lemma zero_filled_nth x p :
  zero_filled x = true -> zv (nth p (data x) f0) = 0%Z.
Proof.
  unfold zero_filled. revert p.
  induction (data x) as [|u l IH]; intros [|p] H; cbn [nth] in *;
    try reflexivity; cbn in H; apply andb_prop in H as [H1 H2].
  - destruct u; try discriminate. reflexivity.
  - apply IH, H2.
Qed.

(** Without bias, or with an all-zero one, only the trilinear term is left. *)
Lemma ref_forward_trilinear d1 d2 s x0 x1 n l :
  bias_vanishes s = true ->
  ref_forward d1 d2 s x0 x1 n l = ref_trilinear d1 d2 s x0 x1 n l.
Proof.
  unfold bias_vanishes, ref_forward, ref_bias. intros H.
  destruct (b s) as [bv|]; [|reflexivity].
  destruct (V1 s) as [v1|]; [|rewrite andb_false_r in H; discriminate].
  destruct (V2 s) as [v2|]; [|rewrite andb_false_r in H; discriminate].
  apply andb_prop in H as [H H2]. apply andb_prop in H as [Hb H1].
  unfold zopt_at2, zopt_at1. cbn [opt_at2 opt_at1]. unfold at2, at1.
  rewrite (zero_filled_nth bv) by assumption.
  rewrite (sum_upto_ext d1 _ (fun _ => 0%Z))
    by (intros; rewrite (zero_filled_nth v1) by assumption; lia).
  rewrite (sum_upto_ext d2 _ (fun _ => 0%Z))
    by (intros; rewrite (zero_filled_nth v2) by assumption; lia).
  rewrite !sum_upto_zero. lia.
Qed.

Lemma forward_cpu_empty_batch sop s x0 x1 r0 :
  shape x0 = 0 :: r0 -> forward_cpu sop s [x0; x1] = Err ZeroDivisionError.
Proof.
  intros S0. unfold forward_cpu. cbn [item lookup list_lookup rbind].
  rewrite (as_mat_empty _ _ S0). reflexivity.
Qed.

Lemma ref_trilinear_lin_l d1 d2 s a c x0 x0' x1 N n l :
  lin_small a x0 c x0' = true ->
  length (data x0) = N * d1 -> length (data x0') = N * d1 -> n < N ->
  ref_trilinear d1 d2 s (lincomb a x0 c x0') x1 n l
  = (zv a * ref_trilinear d1 d2 s x0 x1 n l
     + zv c * ref_trilinear d1 d2 s x0' x1 n l)%Z.
Proof.
  intros Hs L L' Hn. unfold ref_trilinear.
  rewrite <- sum_upto_lin. apply sum_upto_ext. intros j Hj.
  rewrite <- sum_upto_lin. apply sum_upto_ext. intros k Hk.
  rewrite (zflat_lincomb d1 a c x0 x0' N) by assumption. ring.
Qed.

Lemma ref_trilinear_lin_r d1 d2 s a c x0 x1 x1' N n l :
  lin_small a x1 c x1' = true ->
  length (data x1) = N * d2 -> length (data x1') = N * d2 -> n < N ->
  ref_trilinear d1 d2 s x0 (lincomb a x1 c x1') n l
  = (zv a * ref_trilinear d1 d2 s x0 x1 n l
     + zv c * ref_trilinear d1 d2 s x0 x1' n l)%Z.
Proof.
  intros Hs L L' Hn. unfold ref_trilinear.
  rewrite <- sum_upto_lin. apply sum_upto_ext. intros j Hj.
  rewrite <- sum_upto_lin. apply sum_upto_ext. intros k Hk.
  rewrite (zflat_lincomb d2 a c x1 x1' N) by assumption. ring.
Qed.

(** The output of the forward pass on small integers, without bias. *)
Lemma forward_cell_trilinear sop d1 d2 out N s x0 x1 n l :
  exact_on_small_integers sop -> bias_vanishes s = true ->
  fwd_small d1 d2 s x0 x1 = true -> n < N -> l < out ->
  holds
    (at2 (mk_nd [N; out]
            (tab (N * out)
               (fun p => fl_forward sop d1 d2 s x0 x1 (p / out) (p mod out))))
       n l)
    (ref_trilinear d1 d2 s x0 x1 n l).
Proof.
  intros Hsop Hz Hsm Hn Hl. rewrite at2_tab by assumption.
  rewrite div_row, mod_row by assumption.
  rewrite <- ref_forward_trilinear by exact Hz.
  apply fl_forward_exact; assumption.
Qed.

(** A cell of a combination of two outputs. *)
Lemma lincomb_table_cell a c N out (f g : nat -> f32) n l :
  lin_small a (mk_nd [N; out] (tab (N * out) f))
    c (mk_nd [N; out] (tab (N * out) g)) = true ->
  n < N -> l < out ->
  holds (at2 (lincomb a (mk_nd [N; out] (tab (N * out) f))
                c (mk_nd [N; out] (tab (N * out) g))) n l)
    (zv a * zv (at2 (mk_nd [N; out] (tab (N * out) f)) n l)
     + zv c * zv (at2 (mk_nd [N; out] (tab (N * out) g)) n l)).
Proof.
  intros Hls Hn Hl. unfold at2, dim. cbn [lincomb shape nth].
  apply lincomb_cell; [exact Hls | |]; cbn [data]; rewrite !length_tab;
    [reflexivity | apply row_lt; assumption].
Qed.

(** C9, amended.  On a layer whose parameters have the shapes of the data
    model and whose bias terms are absent, or all zero, for valid batches
    of one shape: with N = 0 every forward pass raises the same
    [ZeroDivisionError]; with N >= 1 every forward pass returns, and
    forward(a*x0 + c*x0', x1) = a*forward(x0, x1) + c*forward(x0', x1) cell
    by cell, and likewise in the second input for a fixed x0, whenever a,
    c, the inputs and W hold integers small enough for the combination and
    the three forward passes to stay below 2^24 in magnitude; the float32
    combination of the two outputs then holds the same integers provided
    it stays in that range too. *)
Theorem forward_cpu_linear sop d1 d2 out N s a c x0 x0' x1 x1' :
  params_ok d1 d2 out s = true -> bias_vanishes s = true ->
  valid_batch s N x0 x1 = true ->
  valid_batch s N x0' x1 = true -> shape x0' = shape x0 ->
  valid_batch s N x0 x1' = true -> shape x1' = shape x1 ->
  (N = 0 ->
   forward_cpu sop s [x0; x1] = Err ZeroDivisionError
   /\ forward_cpu sop s [x0'; x1] = Err ZeroDivisionError
   /\ forward_cpu sop s [x0; x1'] = Err ZeroDivisionError
   /\ forward_cpu sop s [lincomb a x0 c x0'; x1] = Err ZeroDivisionError
   /\ forward_cpu sop s [x0; lincomb a x1 c x1'] = Err ZeroDivisionError)
  /\ (0 < N ->
      exists y y0 y1 l0 l1,
        forward_cpu sop s [x0; x1] = Ok [y]
        /\ forward_cpu sop s [x0'; x1] = Ok [y0]
        /\ forward_cpu sop s [x0; x1'] = Ok [y1]
        /\ forward_cpu sop s [lincomb a x0 c x0'; x1] = Ok [l0]
        /\ forward_cpu sop s [x0; lincomb a x1 c x1'] = Ok [l1]
        /\ (exact_on_small_integers sop ->
            fwd_small d1 d2 s x0 x1 = true ->
            (lin_small a x0 c x0' = true ->
             fwd_small d1 d2 s x0' x1 = true ->
             fwd_small d1 d2 s (lincomb a x0 c x0') x1 = true ->
             forall n l, n < N -> l < out ->
               holds (at2 l0 n l) (zv a * zat2 y n l + zv c * zat2 y0 n l)
               /\ (lin_small a y c y0 = true ->
                   holds (at2 (lincomb a y c y0) n l) (zat2 l0 n l)))
            /\ (lin_small a x1 c x1' = true ->
                fwd_small d1 d2 s x0 x1' = true ->
                fwd_small d1 d2 s x0 (lincomb a x1 c x1') = true ->
                forall n l, n < N -> l < out ->
                  holds (at2 l1 n l) (zv a * zat2 y n l + zv c * zat2 y1 n l)
                  /\ (lin_small a y c y1 = true ->
                      holds (at2 (lincomb a y c y1) n l) (zat2 l1 n l))))).
Proof.
  intros Hp Hz Hv Hv0 S0' Hv1 S1'.
  pose proof (valid_batch_lincomb_l s N a c x0 x0' x1 Hv Hv0 S0') as Hvl.
  pose proof (valid_batch_lincomb_r s N a c x0 x1 x1' Hv Hv1 S1') as Hvr.
  destruct (valid_batch_inv _ _ _ _ _ _ _ Hp Hv)
    as (r0 & r1 & S0 & S1 & P0 & P1 & L0 & L1).
  destruct (valid_batch_inv _ _ _ _ _ _ _ Hp Hv0) as (_ & _ & _ & _ & _ & _ & L0' & _).
  destruct (valid_batch_inv _ _ _ _ _ _ _ Hp Hv1) as (_ & _ & _ & _ & _ & _ & _ & L1').
  split.
  - intros ->.
    rewrite !(forward_cpu_empty_batch sop s _ _ r0)
      by (unfold lincomb; cbn [shape]; congruence).
    repeat split.
  - intros HN.
    rewrite !(forward_cpu_value sop d1 d2 out N) by assumption.
    do 5 eexists. do 5 (split; [reflexivity|]).
    intros Hsop Hsm.
    assert (Hcell : forall u v n l, fwd_small d1 d2 s u v = true ->
      n < N -> l < out ->
      holds (at2 (mk_nd [N; out]
                    (tab (N * out) (fun p =>
                       fl_forward sop d1 d2 s u v (p / out) (p mod out)))) n l)
        (ref_trilinear d1 d2 s u v n l)).
    { intros; apply forward_cell_trilinear; assumption. }
    split.
    + intros Hls Hsm0 Hsml n l Hn Hl.
      destruct (Hcell _ _ n l Hsm Hn Hl) as [_ E].
      destruct (Hcell _ _ n l Hsm0 Hn Hl) as [_ E0].
      pose proof (Hcell _ _ n l Hsml Hn Hl) as Hl0.
      rewrite (ref_trilinear_lin_l d1 d2 s a c x0 x0' x1 N) in Hl0
        by assumption.
      unfold zat2. rewrite E, E0. split; [exact Hl0|].
      intros Hlo. rewrite (proj2 Hl0), <- E, <- E0.
      apply lincomb_table_cell; assumption.
    + intros Hls Hsm1 Hsml n l Hn Hl.
      destruct (Hcell _ _ n l Hsm Hn Hl) as [_ E].
      destruct (Hcell _ _ n l Hsm1 Hn Hl) as [_ E1].
      pose proof (Hcell _ _ n l Hsml Hn Hl) as Hl1.
      rewrite (ref_trilinear_lin_r d1 d2 s a c x0 x1 x1' N) in Hl1
        by assumption.
      unfold zat2. rewrite E, E1. split; [exact Hl1|].
      intros Hlo. rewrite (proj2 Hl1), <- E, <- E1.
      apply lincomb_table_cell; assumption.
Qed.

Lemma forward_cpu_linear_witness :
  exists y y0 l0,
    forward_cpu sum_lr Examples.zero_bias [Examples.X0; Examples.X1] = Ok [y]
    /\ forward_cpu sum_lr Examples.zero_bias [Examples.X0'; Examples.X1]
       = Ok [y0]
    /\ forward_cpu sum_lr Examples.zero_bias
         [lincomb (of_Z 2) Examples.X0 (of_Z (-3)) Examples.X0'; Examples.X1]
       = Ok [l0]
    /\ forall n l, n < 2 -> l < 2 ->
         holds (at2 l0 n l)
           (zv (of_Z 2) * zat2 y n l + zv (of_Z (-3)) * zat2 y0 n l).
Proof.
  destruct (proj2 (forward_cpu_linear sum_lr 3 2 2 2 Examples.zero_bias
                     (of_Z 2) (of_Z (-3))
                     Examples.X0 Examples.X0' Examples.X1 Examples.X1'
                     eq_refl eq_refl eq_refl eq_refl eq_refl eq_refl eq_refl)
              (Nat.lt_0_succ 1))
    as (y & y0 & y1 & l0 & l1 & H1 & H2 & _ & H4 & _ & H6).
  exists y, y0, l0.
  split; [exact H1|]. split; [exact H2|]. split; [exact H4|].
  destruct (H6 sum_lr_exact eq_refl) as [Hl _].
  intros n l Hn Hl'.
  exact (proj1 (Hl eq_refl eq_refl eq_refl n l Hn Hl')).
Defined.

(** C9 as stated fails: float32 rounds.  On the bias-free layer with
    x1 = [4097, 0], the input [4097, 0, 0] = 1 * [4096, 0, 0] + 1 * [1, 0, 0]
    gives [83927040, 117497856], the two parts give [83906560, 117469184]
    and [20485, 28679], whose sum is [83927045, 117497863] and, as float32,
    [83927048, 117497864]. *)
Lemma forward_cpu_not_linear :
  params_ok 3 2 2 Examples.plain = true
  /\ bias_vanishes Examples.plain = true
  /\ valid_batch Examples.plain 1 Examples.X0_4096 Examples.X1_4097 = true
  /\ valid_batch Examples.plain 1 Examples.X0_1 Examples.X1_4097 = true
  /\ lincomb (of_Z 1) Examples.X0_4096 (of_Z 1) Examples.X0_1
     = Examples.X0_4097
  /\ forward_cpu sum_lr Examples.plain [Examples.X0_4097; Examples.X1_4097]
     = Ok [Examples.from_ints [1; 2] [83927040; 117497856]%Z]
  /\ forward_cpu sum_lr Examples.plain [Examples.X0_4096; Examples.X1_4097]
     = Ok [Examples.from_ints [1; 2] [83906560; 117469184]%Z]
  /\ forward_cpu sum_lr Examples.plain [Examples.X0_1; Examples.X1_4097]
     = Ok [Examples.from_ints [1; 2] [20485; 28679]%Z]
  /\ lincomb (of_Z 1) (Examples.from_ints [1; 2] [83906560; 117469184]%Z)
       (of_Z 1) (Examples.from_ints [1; 2] [20485; 28679]%Z)
     = Examples.from_ints [1; 2] [83927048; 117497864]%Z.
Proof.
  repeat split; vm_compute; reflexivity.
Qed.

(** ** The device path *)

(** C4 fails on the code.  The first input of a valid batch may have more
    than two axes; [forward_cpu] flattens each sample, [forward_gpu] takes
    [x[0].shape[1]] for the flattened length, builds too short an
    outer-product matrix and the matrix product raises, on every device. *)
Theorem forward_gpu_higher_rank_input :
  params_ok 3 2 2 Examples.plain = true
  /\ valid_batch Examples.plain 2 Examples.X0_rank3 Examples.X1 = true
  /\ forward_cpu sum_lr Examples.plain [Examples.X0_rank3; Examples.X1]
     = Ok [Examples.from_ints [2; 2] [5; 7; 1428; 1624]%Z]
  /\ (forall sop,
        forward_cpu sop Examples.plain [Examples.X0_rank3; Examples.X1]
        = forward_cpu sop Examples.plain [Examples.X0; Examples.X1])
  /\ forall dev,
       forward_gpu Examples.plain [Examples.X0_rank3; Examples.X1] dev
       = Err ValueError.
Proof.
  repeat split; vm_compute; reflexivity.
Qed.

(** ** The device path on matrices *)

(** *** C integers that do not overflow *)

Lemma int32_nat x : (Z.of_nat x < 2 ^ 31)%Z -> int32 (Z.of_nat x) = Z.of_nat x.
Proof.
  intros H. unfold int32.
  change (2 ^ 32)%Z with 4294967296%Z.
  change (2 ^ 31)%Z with 2147483648%Z in *.
  rewrite Z.mod_small by lia. lia.
Qed.

Lemma div_le_self x y : x / y <= x.
Proof.
  destruct y as [|y]; [cbn; lia|].
  apply Nat.Div0.div_le_upper_bound. nia.
Qed.

Lemma idiv_nat dev x y :
  0 < y -> (Z.of_nat x < 2 ^ 31)%Z ->
  idiv dev (Z.of_nat x) (Z.of_nat y) = Z.of_nat (x / y).
Proof.
  intros Hy H. unfold idiv.
  destruct (Z.eqb_spec (Z.of_nat y) 0) as [E|_]; [lia|].
  rewrite Z.quot_div_nonneg, <- Nat2Z.inj_div by lia.
  apply int32_nat. pose proof (div_le_self x y). lia.
Qed.

Lemma irem_nat dev x y :
  0 < y -> (Z.of_nat x < 2 ^ 31)%Z ->
  irem dev (Z.of_nat x) (Z.of_nat y) = Z.of_nat (x mod y).
Proof.
  intros Hy H. unfold irem.
  destruct (Z.eqb_spec (Z.of_nat y) 0) as [E|_]; [lia|].
  rewrite Z.rem_mod_nonneg, <- Nat2Z.inj_mod by lia.
  apply int32_nat. pose proof (Nat.Div0.mod_le x y). lia.
Qed.

Lemma imul_nat x y :
  (Z.of_nat (x * y) < 2 ^ 31)%Z -> imul (Z.of_nat x) (Z.of_nat y) = Z.of_nat (x * y).
Proof. intros H. unfold imul. rewrite <- Nat2Z.inj_mul. apply int32_nat, H. Qed.

Lemma iplus_nat x y :
  (Z.of_nat (x + y) < 2 ^ 31)%Z -> iplus (Z.of_nat x) (Z.of_nat y) = Z.of_nat (x + y).
Proof. intros H. unfold iplus. rewrite <- Nat2Z.inj_add. apply int32_nat, H. Qed.

Lemma iminus_nat x y :
  y <= x -> (Z.of_nat x < 2 ^ 31)%Z ->
  iminus (Z.of_nat x) (Z.of_nat y) = Z.of_nat (x - y).
Proof.
  intros Hle H. unfold iminus. rewrite <- Nat2Z.inj_sub by exact Hle.
  apply int32_nat. lia.
Qed.

(** A read inside the array. *)
Lemma fetch_nat wild v k :
  k < length v -> fetch wild v (Z.of_nat k) = nth k v f0.
Proof.
  intros Hk. unfold fetch.
  destruct (Z.leb_spec 0 (Z.of_nat k)); [|lia].
  destruct (Z.ltb_spec (Z.of_nat k) (Z.of_nat (length v))); [|lia].
  cbn [andb]. rewrite Nat2Z.id. reflexivity.
Qed.

(** *** The kernels *)

(** The cell the outer-product kernel writes at index i = (n*d1 + j)*d2 + k
    is e1[n*d1 + j] * e2[n*d2 + k]. *)
Lemma row_wise_outer_product_cell dev e1 e2 d1 d2 N i y :
  i < N * d1 * d2 -> (Z.of_nat (N * d1 * d2) < 2 ^ 31)%Z ->
  length e1 = N * d1 -> length e2 = N * d2 ->
  row_wise_outer_product dev e1 e2 (Z.of_nat d1) (Z.of_nat d2) (Z.of_nat i) y
  = <[i := fmul (nth (i / d2) e1 f0)
                (nth (i / (d1 * d2) * d2 + i mod d2) e2 f0)]> y.
Proof.
  intros Hi HB Le1 Le2. unfold row_wise_outer_product.
  assert (Hd1 : 0 < d1) by (destruct d1; lia).
  assert (Hd2 : 0 < d2) by (destruct d2; lia).
  assert (Hn : i / (d1 * d2) < N)
    by (apply Nat.Div0.div_lt_upper_bound; lia).
  set (n := i / (d1 * d2)) in *.
  assert (Hle : n * d1 * d2 <= i)
    by (subst n; pose proof (Nat.Div0.mul_div_le i (d1 * d2)); lia).
  assert (HJ : (i - n * d1 * d2) / d2 = (i / d2) mod d1).
  { replace (i - n * d1 * d2) with (i mod (d2 * d1)).
    - rewrite Nat.Div0.mod_mul_r.
      replace (i mod d2 + d2 * ((i / d2) mod d1))
        with ((i / d2) mod d1 * d2 + i mod d2) by lia.
      apply div_row, Nat.mod_upper_bound. lia.
    - subst n. rewrite (Nat.mul_comm d2 d1).
      pose proof (Nat.div_mod_eq i (d1 * d2)). lia. }
  assert (HI : n * d1 + (i / d2) mod d1 = i / d2).
  { pose proof (Nat.div_mod_eq (i / d2) d1) as E.
    rewrite Nat.Div0.div_div, (Nat.mul_comm d2 d1) in E. fold n in E. lia. }
  assert (Hjk : i / d2 < N * d1)
    by (apply Nat.Div0.div_lt_upper_bound; lia).
  assert (Hk : i mod d2 < d2) by (apply Nat.mod_upper_bound; lia).
  rewrite !idiv_nat, Nat.Div0.div_div
    by (try assumption; pose proof (div_le_self i d1); lia).
  fold n.
  rewrite !imul_nat by nia.
  rewrite iminus_nat by lia.
  rewrite idiv_nat by (assumption || lia).
  rewrite irem_nat by (assumption || lia).
  rewrite !iplus_nat by nia.
  rewrite !fetch_nat by nia.
  rewrite Nat2Z.id, HJ, HI. reflexivity.
Qed.

Lemma linear_bias_cell dev bv m N i y :
  i < N * m -> (Z.of_nat (N * m) < 2 ^ 31)%Z ->
  length bv = m -> length y = N * m ->
  linear_bias dev bv (Z.of_nat m) (Z.of_nat i) y
  = <[i := fadd (nth i y f0) (nth (i mod m) bv f0)]> y.
Proof.
  intros Hi HB Lb Ly. unfold linear_bias.
  assert (Hm : 0 < m) by (destruct m; lia).
  rewrite irem_nat by (assumption || lia).
  rewrite !fetch_nat, Nat2Z.id;
    [reflexivity | rewrite Lb; apply Nat.mod_upper_bound; lia | lia].
Qed.

(** A kernel that replaces cell i by a function of i and of the old cell
    turns the buffer into the table of that function. *)
Lemma elementwise_cells body (g : nat -> f32 -> f32) y :
  wf y ->
  (forall i buf, i < size y -> length buf = size y ->
     body (Z.of_nat i) buf = <[i := g i (nth i buf f0)]> buf) ->
  elementwise body y
  = mk_nd (shape y) (tab (size y) (fun i => g i (nth i (data y) f0))).
Proof.
  unfold wf, elementwise. intros Hwf Hbody. f_equal.
  set (G := fun i => g i (nth i (data y) f0)).
  assert (H : forall k, k <= size y ->
    foldl (fun buf i => body (Z.of_nat i) buf) (data y) (seq 0 k)
    = tab k G ++ drop k (data y)).
  { induction k as [|k IH]; intros Hk.
    - reflexivity.
    - rewrite seq_S, foldl_snoc, IH by lia. cbn [Nat.add].
      rewrite Hbody
        by (try lia; rewrite length_app, length_tab, length_drop; lia).
      assert (Hlk : is_Some (data y !! k))
        by (apply lookup_lt_is_Some; lia).
      destruct Hlk as [v Hv].
      rewrite (drop_S _ _ _ Hv).
      rewrite app_nth2 by (rewrite length_tab; lia).
      rewrite length_tab, Nat.sub_diag. cbn [nth].
      rewrite insert_app_r_alt by (rewrite length_tab; lia).
      rewrite length_tab, Nat.sub_diag. cbn [insert list_insert].
      unfold tab. rewrite seq_S, map_app. cbn [map Nat.add].
      rewrite <- app_assoc. cbn [app]. do 3 f_equal.
      unfold G. f_equal. symmetry. apply nth_lookup_Some with (d := f0) in Hv.
      exact Hv. }
  rewrite H by lia. rewrite drop_ge by lia. apply app_nil_r.
Qed.

(** *** The stages of [forward_gpu] *)

Lemma as_vec_ok x : _as_vec x = Ok (mk_nd [size x] (data x)).
Proof.
  unfold _as_vec, reshape. cbn [prod foldr].
  rewrite Nat.mul_1_r, Nat.eqb_refl. reflexivity.
Qed.

Lemma cuda_empty_ok dev k sh :
  0 < prod sh ->
  cuda_empty dev k sh = Ok (mk_nd sh (tab (prod sh) (fresh dev k))).
Proof.
  intros H. unfold cuda_empty.
  destruct (Nat.eqb_spec (prod sh) 0); [lia | reflexivity].
Qed.

(** Stage (a): the flattened outer products, one row per sample. *)
Lemma outer_product_buffer dev e1 e2 d1 d2 N y :
  (Z.of_nat (N * d1 * d2) < 2 ^ 31)%Z ->
  length e1 = N * d1 -> length e2 = N * d2 ->
  shape y = [N * d1 * d2] -> wf y ->
  elementwise
    (row_wise_outer_product dev e1 e2 (Z.of_nat d1) (Z.of_nat d2)) y
  = mk_nd [N * d1 * d2]
      (tab (N * d1 * d2) (fun i =>
         fmul (nth (i / d2) e1 f0)
              (nth (i / (d1 * d2) * d2 + i mod d2) e2 f0))).
Proof.
  intros HB Le1 Le2 Sy Wy.
  assert (Hsz : size y = N * d1 * d2)
    by (unfold size; rewrite Sy; cbn [prod foldr]; lia).
  rewrite (elementwise_cells _
             (fun i _ => fmul (nth (i / d2) e1 f0)
                              (nth (i / (d1 * d2) * d2 + i mod d2) e2 f0))).
  - rewrite Sy, Hsz. reflexivity.
  - exact Wy.
  - intros i buf Hi _. rewrite Hsz in Hi.
    apply (row_wise_outer_product_cell dev e1 e2 d1 d2 N); assumption.
Qed.

Lemma cu_matmul_2d dev a c n K m :
  shape a = [n; K] -> shape c = [K; m] ->
  cu_matmul dev a c
  = Ok (mk_nd [n; m]
          (tab (n * m) (fun r =>
             gemm dev (tab K (fun k => [at2 a (r / m) k; at2 c k (r mod m)]))))).
Proof.
  intros Ha Hc. unfold cu_matmul, as_row, ndim. rewrite Ha, Hc.
  cbn [length Nat.eqb andb]. rewrite Ha, Hc. cbn [length Nat.eqb andb].
  apply dot_2d; assumption.
Qed.

(** Stage (b): a cell of the product with the flattened tensor. *)
Lemma outer_product_matmul g d1 d2 out N s x0 x1 n l :
  shape (W s) = [d1; d2; out] -> n < N -> l < out ->
  g (tab (d1 * d2) (fun q =>
       [at2 (mk_nd [N; d1 * d2]
               (tab (N * d1 * d2) (fun i =>
                  fmul (nth (i / d2) (data x0) f0)
                       (nth (i / (d1 * d2) * d2 + i mod d2) (data x1) f0)))) n q;
        at2 (mk_nd [d1 * d2; out] (data (W s))) q l]))
  = fl_gpu_trilinear g d1 d2 s x0 x1 n l.
Proof.
  intros SW Hn Hl. unfold fl_gpu_trilinear, fl_outer. f_equal.
  apply tab_ext. intros q Hq.
  assert (Hd2 : 0 < d2) by (destruct d2; lia).
  pose proof (Nat.mod_upper_bound q d2 ltac:(lia)) as Hk.
  assert (Hj : q / d2 < d1) by (apply Nat.Div0.div_lt_upper_bound; lia).
  unfold at2 at 1, dim. cbn [shape data nth].
  rewrite nth_tab by nia.
  unfold at2, at3, dim, flat. rewrite SW. cbn [shape data nth].
  replace ((n * (d1 * d2) + q) / d2) with (n * d1 + q / d2).
  2:{ replace (n * (d1 * d2) + q) with ((n * d1) * d2 + q) by lia.
      rewrite Nat.div_add_l by lia. reflexivity. }
  rewrite (div_row n (d1 * d2) q) by lia.
  replace ((n * (d1 * d2) + q) mod d2) with (q mod d2).
  2:{ replace (n * (d1 * d2) + q) with (q + (n * d1) * d2) by lia.
      rewrite Nat.Div0.mod_add. reflexivity. }
  replace ((q / d2 * d2 + q mod d2) * out + l) with (q * out + l)
    by (rewrite row_decomp; reflexivity).
  reflexivity.
Qed.

Lemma culinalg_add_dot_2d dev a c y n K m :
  shape a = [n; K] -> shape c = [K; m] -> shape y = [n; m] ->
  culinalg_add_dot dev a (Some c) y
  = Ok (mk_nd [n; m]
          (tab (n * m) (fun p =>
             fadd (gemm dev (tab K (fun k =>
                     [at2 a (p / m) k; at2 c k (p mod m)])))
                  (nth p (data y) f0)))).
Proof.
  intros Ha Hc Hy. unfold culinalg_add_dot.
  rewrite (cu_matmul_2d dev a c n K m Ha Hc). cbn [rbind shape data].
  rewrite Hy, bool_decide_eq_true_2 by reflexivity.
  unfold size. rewrite Hy. cbn [prod foldr]. rewrite Nat.mul_1_r.
  do 2 f_equal. apply tab_ext. intros p Hp. rewrite nth_tab by assumption.
  reflexivity.
Qed.

Lemma linear_bias_buffer dev bv y N m :
  shape y = [N; m] -> length (data y) = N * m -> length bv = m ->
  (Z.of_nat (N * m) < 2 ^ 31)%Z ->
  elementwise (linear_bias dev bv (Z.of_nat m)) y
  = mk_nd [N; m]
      (tab (N * m) (fun i => fadd (nth i (data y) f0) (nth (i mod m) bv f0))).
Proof.
  intros Sy Ly Lb HB.
  assert (Hsz : size y = N * m)
    by (unfold size; rewrite Sy; cbn [prod foldr]; lia).
  rewrite (elementwise_cells _ (fun i v => fadd v (nth (i mod m) bv f0))).
  - rewrite Sy, Hsz. reflexivity.
  - unfold wf. congruence.
  - intros i buf Hi Lbuf. rewrite Hsz in Hi, Lbuf.
    apply (linear_bias_cell dev bv m N); assumption.
Qed.

(** The array [forward_gpu] returns for a batch given as matrices with
    extents that are not zero, whatever the device memory held. *)
Lemma forward_gpu_value dev d1 d2 out N s x0 x1 :
  params_ok d1 d2 out s = true -> valid_batch s N x0 x1 = true -> 0 < N ->
  shape x0 = [N; d1] -> shape x1 = [N; d2] ->
  0 < d1 -> 0 < d2 -> 0 < out ->
  (Z.of_nat (N * d1 * d2) < 2 ^ 31)%Z -> (Z.of_nat (N * out) < 2 ^ 31)%Z ->
  forward_gpu s [x0; x1] dev
  = Ok [mk_nd [N; out]
          (tab (N * out)
             (fun p => fl_gpu (gemm dev) d1 d2 s x0 x1 (p / out) (p mod out)))].
Proof.
  intros Hp Hv HN S0 S1 Hd1 Hd2 Hout HB1 HB2.
  destruct (params_ok_inv _ _ _ _ Hp) as (Hin & SW & LW & Hb).
  destruct (valid_batch_inv _ _ _ _ _ _ _ Hp Hv)
    as (r0 & r1 & _ & _ & _ & _ & L0 & L1).
  unfold forward_gpu. cbn [item lookup list_lookup rbind].
  rewrite !as_vec_ok. cbn [rbind data].
  unfold shape_at. rewrite S0, S1, SW. cbn [lookup list_lookup rbind].
  rewrite (cuda_empty_ok dev 0 [N * d1 * d2]) by (cbn [prod foldr]; nia).
  cbn [rbind].
  rewrite (outer_product_buffer dev _ _ d1 d2 N);
    [| assumption | assumption | assumption | reflexivity
     | unfold wf, size; cbn [shape data]; apply length_tab].
  unfold reshape at 1. unfold size at 1. cbn [shape data prod foldr].
  replace (N * (d1 * d2 * 1) =? N * d1 * d2 * 1) with true
    by (symmetry; apply Nat.eqb_eq; lia).
  cbn [rbind].
  unfold reshape at 1. unfold size at 1. rewrite SW. cbn [prod foldr].
  replace (d1 * d2 * (out * 1) =? d1 * (d2 * (out * 1))) with true
    by (symmetry; apply Nat.eqb_eq; lia).
  cbn [rbind].
  rewrite (cuda_empty_ok dev 1 [N; out]) by (cbn [prod foldr]; nia).
  cbn [rbind]. unfold culinalg_dot.
  rewrite (cu_matmul_2d dev _ _ N (d1 * d2) out) by reflexivity.
  cbn [rbind shape].
  rewrite bool_decide_eq_true_2 by reflexivity.
  unfold fl_gpu.
  destruct (b s) as [bv|] eqn:Eb.
  - destruct Hb as (Sb & Lb & v1 & v2 & E1 & E2 & Sv1 & Lv1 & Sv2 & Lv2).
    rewrite (as_mat_ok _ _ _ S0 HN), (as_mat_ok _ _ _ S1 HN).
    cbn [prod foldr rbind]. rewrite !Nat.mul_1_r. rewrite E1, E2.
    rewrite (culinalg_add_dot_2d dev _ _ _ N d1 out)
      by (reflexivity || assumption).
    cbn [rbind].
    rewrite (culinalg_add_dot_2d dev _ _ _ N d2 out)
      by (reflexivity || assumption).
    cbn [rbind data].
    replace (size bv) with out
      by (unfold size; rewrite Sb; cbn [prod foldr]; lia).
    rewrite (linear_bias_buffer dev _ _ N out)
      by (try reflexivity; try assumption; cbn [data]; apply length_tab).
    cbn [data]. do 3 f_equal. apply tab_ext. intros p Hpp.
    rewrite !nth_tab by assumption.
    pose proof (div_lt_rows _ _ _ Hpp). pose proof (mod_lt_cols _ _ _ Hpp).
    rewrite (outer_product_matmul (gemm dev) d1 d2 out N) by assumption.
    cbn [opt_at2]. unfold at1.
    change (at2 (mk_nd [N; d1] (data x0))) with (flat d1 x0).
    change (at2 (mk_nd [N; d2] (data x1))) with (flat d2 x1).
    reflexivity.
  - cbn [rbind]. do 3 f_equal. apply tab_ext. intros p Hpp.
    apply (outer_product_matmul (gemm dev) d1 d2 out N); try assumption.
    + eapply div_lt_rows; eassumption.
    + eapply mod_lt_cols; eassumption.
Qed.

(** *** The device path on small integers *)

Section ExactDevice.
Local Open Scope Z_scope.
Variable g : sum_of_products.
Hypothesis Hg : exact_on_small_integers g.

Lemma fl_outer_exact d1 d2 x0 x1 n q A B :
  ints x0 = true -> ints x1 = true ->
  amax x0 <= A -> amax x1 <= B -> A * B < 2 ^ 24 ->
  holds (fl_outer d1 d2 x0 x1 n q)
    (zflat d1 x0 n (q / d2)%nat * zflat d2 x1 n (q mod d2)%nat)
  /\ Z.abs (zflat d1 x0 n (q / d2)%nat * zflat d2 x1 n (q mod d2)%nat) <= A * B.
Proof.
  intros I0 I1 HA HB Hb. unfold fl_outer, zflat.
  destruct (cell_ok x0 (n * d1 + q / d2)%nat I0) as [J0 K0].
  destruct (cell_ok x1 (n * d2 + q mod d2)%nat I1) as [J1 K1].
  fold (flat d1 x0 n (q / d2)%nat) in J0, K0.
  fold (flat d2 x1 n (q mod d2)%nat) in J1, K1.
  pose proof (amax_pos x0). pose proof (amax_pos x1).
  set (u := flat d1 x0 n (q / d2)%nat) in *.
  set (v := flat d2 x1 n (q mod d2)%nat) in *.
  assert (Hp : Z.abs (zv u * zv v) <= A * B) by (rewrite Z.abs_mul; nia).
  split; [|exact Hp].
  apply fmul_exact; [apply small_intro | apply small_intro |];
    try assumption; nia.
Qed.

Lemma fl_gpu_exact d1 d2 s x0 x1 n l :
  fwd_small d1 d2 s x0 x1 = true ->
  holds (fl_gpu g d1 d2 s x0 x1 n l) (ref_forward d1 d2 s x0 x1 n l).
Proof.
  unfold fwd_small. intros H.
  apply andb_prop in H as [H Hbud]. apply andb_prop in H as [H Ib].
  apply andb_prop in H as [H I2]. apply andb_prop in H as [H I1].
  apply andb_prop in H as [H IW]. apply andb_prop in H as [Ix0 Ix1].
  apply Z.ltb_lt in Hbud.
  pose proof (amax_pos x0) as PA. pose proof (amax_pos x1) as PB.
  pose proof (amax_pos (W s)) as PC. pose proof (oamax_pos (V1 s)) as PC1.
  pose proof (oamax_pos (V2 s)) as PC2. pose proof (oamax_pos (b s)) as PCb.
  set (A := amax x0) in *. set (B := amax x1) in *. set (C := amax (W s)) in *.
  set (C1 := oamax (V1 s)) in *. set (C2 := oamax (V2 s)) in *.
  set (Cb := oamax (b s)) in *.
  assert (Hn1 : 0 <= Z.of_nat d1 * A * C1) by nia.
  assert (Hn2 : 0 <= Z.of_nat d2 * B * C2) by nia.
  assert (Hn3 : 0 <= Z.of_nat (d1 * d2) * A * B * C) by nia.
  assert (Ht : holds (fl_gpu_trilinear g d1 d2 s x0 x1 n l)
                 (ref_trilinear d1 d2 s x0 x1 n l)
               /\ Z.abs (ref_trilinear d1 d2 s x0 x1 n l)
                  <= Z.of_nat (d1 * d2) * (A * B * C)).
  { destruct (Nat.eq_dec (d1 * d2)%nat 0%nat) as [E0|E0].
    - unfold fl_gpu_trilinear, ref_trilinear.
      rewrite <- (sum_upto_pair d1 d2
        (fun j k => zflat d1 x0 n j * zflat d2 x1 n k * zat3 (W s) j k l)).
      rewrite E0. cbn [tab seq map sum_upto]. split; [|cbn; lia].
      apply (Hg []); [constructor | cbn; lia].
    - assert (HAB : A * B < 2 ^ 24) by nia.
      destruct (sop_exact g (d1 * d2)
                  (fun q => [fl_outer d1 d2 x0 x1 n q;
                             at3 (W s) (q / d2)%nat (q mod d2)%nat l])
                  (A * B * C)) as [Hs Bs]; try assumption; try lia.
      + intros q _.
        destruct (fl_outer_exact d1 d2 x0 x1 n q A B) as [[Jo _] _];
          try assumption; try lia.
        repeat constructor; [exact Jo | apply cell_ok, IW].
      + intros q _.
        destruct (fl_outer_exact d1 d2 x0 x1 n q A B) as [[_ Eo] Ko];
          try assumption; try lia.
        apply wprod2; [rewrite Eo; exact Ko | nia | apply cell_ok, IW | lia].
      + rewrite (sum_upto_ext (d1 * d2) _
                   (fun q => zflat d1 x0 n (q / d2)%nat
                             * zflat d2 x1 n (q mod d2)%nat
                             * zat3 (W s) (q / d2)%nat (q mod d2)%nat l))
          in Hs, Bs.
        2,3: intros q _;
          destruct (fl_outer_exact d1 d2 x0 x1 n q A B) as [[_ Eo] _];
          try assumption; try lia;
          unfold zprod; cbn [foldr]; rewrite Eo; unfold zat3; ring.
        rewrite (sum_upto_pair d1 d2
          (fun j k => zflat d1 x0 n j * zflat d2 x1 n k * zat3 (W s) j k l))
          in Hs, Bs.
        split; [exact Hs | exact Bs]. }
  destruct Ht as [Ht Bt].
  unfold fl_gpu, ref_forward.
  destruct (b s) as [bv|] eqn:Eb; [|exact Ht].
  destruct (sop2_exact g Hg d1
              (fun j => flat d1 x0 n j) (fun j => opt_at2 (V1 s) j l) A C1)
    as [H1 B1]; try assumption; try lia;
    try (intros q; apply cell_ok; assumption);
    try (intros q; apply ocell2_ok; assumption).
  destruct (sop2_exact g Hg d2
              (fun k => flat d2 x1 n k) (fun k => opt_at2 (V2 s) k l) B C2)
    as [H2 B2]; try assumption; try lia;
    try (intros q; apply cell_ok; assumption);
    try (intros q; apply ocell2_ok; assumption).
  destruct (ocell1_ok (Some bv) l Ib) as [J1 J2].
  cbn [opt_at1] in J1, J2. subst Cb. cbn [oamax] in *.
  set (t := ref_trilinear d1 d2 s x0 x1 n l) in *.
  set (u1 := sum_upto d1 _) in H1, B1.
  set (u2 := sum_upto d2 _) in H2, B2.
  assert (Hr : ref_bias d1 d2 s x0 x1 n l = u1 + u2 + zv (at1 bv l)).
  { unfold ref_bias. rewrite Eb. reflexivity. }
  rewrite Hr.
  replace (t + (u1 + u2 + zv (at1 bv l))) with (u2 + (u1 + t) + zv (at1 bv l))
    by ring.
  apply holds_fadd; [apply holds_fadd; [|apply holds_fadd|..]|..];
    try assumption; try (split; [assumption | reflexivity]); lia.
Qed.

End ExactDevice.

(** X17.  For a batch given as two matrices, with N >= 1 samples, extents
    d1, d2, out >= 1 and buffers whose indices fit a C int, the device path
    returns an array of the shape the CPU path returns, whatever the device
    memory held and whatever a kernel would read outside an array; its
    cells are the float32 products e1[n,j]*e2[n,k] contracted with W by the
    device's matrix product, the bias products added in front.  Whenever
    inputs and parameters hold integers small enough for every partial
    result to stay below 2^24 in magnitude, the cells of both paths hold
    the reference formula exactly, so the outputs agree. *)
Theorem forward_gpu_matches_cpu_on_matrices sop dev d1 d2 out N s x0 x1 :
  params_ok d1 d2 out s = true -> valid_batch s N x0 x1 = true -> 0 < N ->
  shape x0 = [N; d1] -> shape x1 = [N; d2] ->
  0 < d1 -> 0 < d2 -> 0 < out ->
  (Z.of_nat (N * d1 * d2) < 2 ^ 31)%Z -> (Z.of_nat (N * out) < 2 ^ 31)%Z ->
  exists y y',
    forward_cpu sop s [x0; x1] = Ok [y]
    /\ forward_gpu s [x0; x1] dev = Ok [y']
    /\ shape y' = shape y
    /\ (forall n l, n < N -> l < out ->
          at2 y' n l = fl_gpu (gemm dev) d1 d2 s x0 x1 n l)
    /\ (exact_on_small_integers sop -> exact_on_small_integers (gemm dev) ->
        fwd_small d1 d2 s x0 x1 = true ->
        forall n l, n < N -> l < out ->
          holds (at2 y n l) (ref_forward d1 d2 s x0 x1 n l)
          /\ holds (at2 y' n l) (ref_forward d1 d2 s x0 x1 n l)).
Proof.
  intros Hp Hv HN S0 S1 Hd1 Hd2 Hout HB1 HB2.
  rewrite (forward_gpu_value dev d1 d2 out N) by assumption.
  rewrite (forward_cpu_value sop d1 d2 out N) by assumption.
  do 2 eexists. split; [reflexivity|]. split; [reflexivity|].
  split; [reflexivity|]. split.
  - intros n l Hn Hl. rewrite at2_tab by assumption.
    rewrite div_row, mod_row by assumption. reflexivity.
  - intros Hs Hg Hsm n l Hn Hl. rewrite !at2_tab by assumption.
    rewrite !div_row, !mod_row by assumption. split.
    + apply fl_forward_exact; assumption.
    + apply fl_gpu_exact; assumption.
Qed.

Lemma forward_gpu_matches_cpu_on_matrices_witness :
  exists y y',
    forward_cpu sum_lr Examples.biased [Examples.X0; Examples.X1] = Ok [y]
    /\ forward_gpu Examples.biased [Examples.X0; Examples.X1] Examples.dev7
       = Ok [y']
    /\ forall n l, n < 2 -> l < 2 ->
         holds (at2 y n l)
           (ref_forward 3 2 Examples.biased Examples.X0 Examples.X1 n l)
         /\ holds (at2 y' n l)
              (ref_forward 3 2 Examples.biased Examples.X0 Examples.X1 n l).
Proof.
  destruct (forward_gpu_matches_cpu_on_matrices sum_lr Examples.dev7
              3 2 2 2 Examples.biased Examples.X0 Examples.X1
              eq_refl eq_refl (Nat.lt_0_succ 1) eq_refl eq_refl
              (Nat.lt_0_succ 2) (Nat.lt_0_succ 1) (Nat.lt_0_succ 1)
              eq_refl eq_refl)
    as (y & y' & H1 & H2 & _ & _ & H3).
  exists y, y'. split; [exact H1|]. split; [exact H2|].
  exact (H3 sum_lr_exact sum_lr_exact eq_refl).
Defined.

(** * Further properties of the code *)

(** ** Flattening *)

Lemma as_mat_errors x e :
  _as_mat x = Err e -> e = IndexError \/ e = ZeroDivisionError.
Proof.
  destruct (shape x) as [|[|s0] r] eqn:Sx.
  - unfold _as_mat. rewrite Sx. intros [= <-]. left. reflexivity.
  - rewrite (as_mat_empty _ _ Sx). intros [= <-]. right. reflexivity.
  - rewrite (as_mat_ok _ _ _ Sx) by lia. discriminate.
Qed.

(** X1.  [_as_mat] never fails in the reshape: it raises [IndexError] on a
    zero-dimensional array, [ZeroDivisionError] on an array whose first
    extent is 0, and nothing else.  When it returns, the result is a
    two-dimensional array with the same buffer, size and first extent;
    flattening it again changes nothing, and [_as_vec] of it is [_as_vec]
    of the original. *)
Theorem as_mat_outcome x :
  match _as_mat x with
  | Ok m =>
      shape m = [dim 0 x; size x / dim 0 x] /\ data m = data x
      /\ size m = size x /\ 0 < dim 0 x
      /\ _as_mat m = Ok m /\ _as_vec m = _as_vec x
  | Err e =>
      (e = IndexError /\ shape x = [])
      \/ (e = ZeroDivisionError /\ exists r, shape x = 0 :: r)
  end.
Proof.
  destruct (shape x) as [|s0 r] eqn:Sx.
  - unfold _as_mat. rewrite Sx. left. split; reflexivity.
  - destruct s0 as [|s0].
    + rewrite (as_mat_empty _ _ Sx). right. split; [reflexivity | eauto].
    + rewrite (as_mat_ok _ _ _ Sx) by lia.
      assert (Hsz : size x = S s0 * prod r)
        by (unfold size; rewrite Sx; reflexivity).
      unfold dim. rewrite Sx. cbn [nth shape data].
      assert (Hq : size x / S s0 = prod r)
        by (rewrite Hsz, Nat.mul_comm, Nat.div_mul; lia).
      assert (Hm : size (mk_nd [S s0; prod r] (data x)) = size x)
        by (rewrite Hsz; unfold size, prod; cbn [shape foldr]; lia).
      rewrite Hq. repeat split; try lia; try exact Hm.
      * rewrite (as_mat_ok _ (S s0) [prod r]) by (reflexivity || lia).
        cbn [prod foldr data]. rewrite Nat.mul_1_r. reflexivity.
      * rewrite !as_vec_ok, Hm. reflexivity.
Qed.

Lemma as_mat_same_flattening x x' n r r' :
  shape x = n :: r -> shape x' = n :: r' -> prod r = prod r' ->
  data x' = data x -> _as_mat x' = _as_mat x.
Proof.
  intros S S' P D. unfold _as_mat, reshape, size. rewrite S, S', D.
  cbn [prod foldr]. fold (prod r). fold (prod r'). rewrite P. reflexivity.
Qed.

(** X2.  The passes see only the per-sample flattening of an input: two
    arrays with the same buffer and batch size whose trailing axes multiply
    to the same length (say (N, 2, 3) and (N, 6)) give the same outcome of
    [forward_cpu] and of [backward_cpu], in either input position, on any
    layer. *)
Theorem passes_see_flattened_samples sop s x x' z gy n r r' :
  shape x = n :: r -> shape x' = n :: r' -> prod r = prod r' ->
  data x' = data x ->
  forward_cpu sop s [x'; z] = forward_cpu sop s [x; z]
  /\ forward_cpu sop s [z; x'] = forward_cpu sop s [z; x]
  /\ backward_cpu sop [x'; z] gy s = backward_cpu sop [x; z] gy s
  /\ backward_cpu sop [z; x'] gy s = backward_cpu sop [z; x] gy s.
Proof.
  intros S S' P D.
  pose proof (as_mat_same_flattening x x' n r r' S S' P D) as E.
  unfold forward_cpu, backward_cpu, mbind, lift.
  cbn [item lookup list_lookup rbind]. rewrite E. repeat split.
Qed.

Lemma passes_see_flattened_samples_witness :
  forward_cpu sum_lr Examples.plain [Examples.X0_rank3; Examples.X1]
  = forward_cpu sum_lr Examples.plain [Examples.X0; Examples.X1]
  /\ forward_cpu sum_lr Examples.plain [Examples.X1; Examples.X0_rank3]
     = forward_cpu sum_lr Examples.plain [Examples.X1; Examples.X0]
  /\ backward_cpu sum_lr [Examples.X0_rank3; Examples.X1] [Examples.GY]
       Examples.plain
     = backward_cpu sum_lr [Examples.X0; Examples.X1] [Examples.GY]
         Examples.plain
  /\ backward_cpu sum_lr [Examples.X1; Examples.X0_rank3] [Examples.GY]
       Examples.plain
     = backward_cpu sum_lr [Examples.X1; Examples.X0] [Examples.GY]
         Examples.plain.
Proof.
  exact (passes_see_flattened_samples sum_lr Examples.plain Examples.X0
           Examples.X0_rank3 Examples.X1 [Examples.GY] 2 [3] [1; 3]
           eq_refl eq_refl eq_refl eq_refl).
Defined.

(** ** Inputs the passes reject *)

(** X3.  On any layer, a batch in which an input has first extent 0 makes
    both CPU passes raise [ZeroDivisionError]; [backward_cpu] leaves the
    layer as it was, whatever the output gradient. *)
Theorem empty_batch_raises sop s x0 x1 gy r :
  shape x0 = 0 :: r
  \/ ((exists n r0, shape x0 = S n :: r0) /\ shape x1 = 0 :: r) ->
  forward_cpu sop s [x0; x1] = Err ZeroDivisionError
  /\ backward_cpu sop [x0; x1] gy s = (s, Err ZeroDivisionError).
Proof.
  intros [S0 | [(n & r0 & S0) S1]].
  - split; [eapply forward_cpu_empty_batch | eapply backward_cpu_empty_batch];
      exact S0.
  - unfold forward_cpu, backward_cpu, mbind, lift.
    cbn [item lookup list_lookup rbind].
    rewrite (as_mat_ok _ _ _ S0) by lia. cbn [rbind].
    rewrite (as_mat_empty _ _ S1). split; reflexivity.
Qed.

Lemma empty_batch_raises_witness :
  forward_cpu sum_lr Examples.biased [Examples.X0_none; Examples.X1_none]
  = Err ZeroDivisionError
  /\ backward_cpu sum_lr [Examples.X0_none; Examples.X1_none]
       [Examples.GY_none] Examples.biased
     = (Examples.biased, Err ZeroDivisionError).
Proof.
  exact (empty_batch_raises sum_lr Examples.biased Examples.X0_none
           Examples.X1_none [Examples.GY_none] [3] (or_introl eq_refl)).
Defined.

(** X4.  Given fewer than two input arrays, [forward_cpu] and
    [backward_cpu] raise the same exception, [IndexError] or (from
    flattening the one array there is) [ZeroDivisionError], and
    [backward_cpu] leaves the layer as it was. *)
Theorem too_few_inputs_raise sop s x gy :
  length x < 2 ->
  exists e,
    (e = IndexError \/ e = ZeroDivisionError)
    /\ forward_cpu sop s x = Err e
    /\ backward_cpu sop x gy s = (s, Err e).
Proof.
  intros Hx. destruct x as [|x0 [|x1 x]]; cbn [length] in Hx; try lia.
  - exists IndexError. repeat split. left. reflexivity.
  - unfold forward_cpu, backward_cpu, mbind, lift.
    cbn [item lookup list_lookup rbind].
    destruct (_as_mat x0) as [m|e] eqn:E.
    + exists IndexError. repeat split. left. reflexivity.
    + exists e. repeat split. eapply as_mat_errors, E.
Qed.

Lemma too_few_inputs_raise_witness :
  exists e,
    (e = IndexError \/ e = ZeroDivisionError)
    /\ forward_cpu sum_lr Examples.biased [Examples.X0] = Err e
    /\ backward_cpu sum_lr [Examples.X0] [Examples.GY] Examples.biased
       = (Examples.biased, Err e).
Proof.
  exact (too_few_inputs_raise sum_lr Examples.biased [Examples.X0]
           [Examples.GY] (Nat.lt_succ_diag_r 1)).
Defined.

(** ** What the updating methods leave alone *)

Lemma fill0_fill0 x : fill0 (fill0 x) = fill0 x.
Proof. unfold fill0. cbn [shape data]. rewrite map_map. reflexivity. Qed.

(** X5.  [zero_grads] is idempotent on every layer: a second call leaves
    the layer of the first and has the same outcome (also when that is the
    [AttributeError] of a missing buffer). *)
Theorem zero_grads_idempotent s :
  zero_grads (zero_grads s).1 = zero_grads s.
Proof.
  unfold zero_grads, mbind, lift, self_, assign, mret. cbv beta iota zeta.
  destruct s as [w gw v1 g1 v2 g2 b0 g3 ish].
  cbn [gb gV1 gV2 gW set_gW set_gV1 set_gV2 set_gb W V1 V2 b in_shape].
  destruct g3 as [g3|]; [|cbn; rewrite fill0_fill0; reflexivity].
  destruct g1 as [g1|]; [|cbn; rewrite fill0_fill0; reflexivity].
  destruct g2 as [g2|]; cbn; rewrite !fill0_fill0; reflexivity.
Qed.

Lemma zero_grads_shapes s :
  shape (gW (zero_grads s).1) = shape (gW s)
  /\ opt_shape (gV1 (zero_grads s).1) = opt_shape (gV1 s)
  /\ opt_shape (gV2 (zero_grads s).1) = opt_shape (gV2 s)
  /\ opt_shape (gb (zero_grads s).1) = opt_shape (gb s).
Proof.
  unfold zero_grads, mbind, lift, self_, assign, mret. cbv beta iota zeta.
  destruct s as [w gw v1 g1 v2 g2 b0 g3 ish].
  cbn [gb gV1 gV2 gW set_gW set_gV1 set_gV2 set_gb W V1 V2 b in_shape].
  destruct g3 as [g3|]; [|repeat split].
  destruct g1 as [g1|]; [|repeat split].
  destruct g2 as [g2|]; repeat split.
Qed.

(** X6.  Whatever their arguments, and whether they return or raise,
    [zero_grads] and [backward_cpu] change no parameter (W, V1, V2, b) and
    not the configured in_shape, and delete no gradient buffer.
    [zero_grads] creates none either and keeps every shape.
    [backward_cpu] keeps the shape of gW and of every bias gradient buffer
    that was there; where there was none, it leaves none or one without
    elements (what [None + t] is for an increment t without elements). *)
Theorem updates_touch_only_accumulator_contents sop x gy s :
  (same_params s (zero_grads s).1
   /\ shape (gW (zero_grads s).1) = shape (gW s)
   /\ opt_shape (gV1 (zero_grads s).1) = opt_shape (gV1 s)
   /\ opt_shape (gV2 (zero_grads s).1) = opt_shape (gV2 s)
   /\ opt_shape (gb (zero_grads s).1) = opt_shape (gb s))
  /\ (same_params s (backward_cpu sop x gy s).1
      /\ shape (gW (backward_cpu sop x gy s).1) = shape (gW s)
      /\ buffer_kept (gV1 s) (gV1 (backward_cpu sop x gy s).1)
      /\ buffer_kept (gV2 s) (gV2 (backward_cpu sop x gy s).1)
      /\ buffer_kept (gb s) (gb (backward_cpu sop x gy s).1)).
Proof.
  split.
  - split; [apply zero_grads_keeps | apply zero_grads_shapes].
  - destruct (backward_cpu_frame sop x gy s) as (H1 & H2 & H3 & H4 & H5 & _).
    repeat split; assumption || apply H1.
Qed.

Lemma forward_cpu_same sop s s' x :
  same_params s s' -> forward_cpu sop s' x = forward_cpu sop s x.
Proof.
  intros (HW & H1 & H2 & Hb & _). unfold forward_cpu.
  rewrite HW, H1, H2, Hb. reflexivity.
Qed.

Lemma forward_gpu_same s s' x dev :
  same_params s s' -> forward_gpu s' x dev = forward_gpu s x dev.
Proof.
  intros (HW & H1 & H2 & Hb & _). unfold forward_gpu.
  rewrite HW, H1, H2, Hb. reflexivity.
Qed.

(** X7.  The forward passes read the parameters only: after any
    [zero_grads] or [backward_cpu] call, returning or raising, [forward_cpu]
    and [forward_gpu] give on every input what they gave before. *)
Theorem forward_blind_to_accumulators sop s x gy z dev :
  forward_cpu sop (backward_cpu sop x gy s).1 z = forward_cpu sop s z
  /\ forward_cpu sop (zero_grads s).1 z = forward_cpu sop s z
  /\ forward_gpu (backward_cpu sop x gy s).1 z dev = forward_gpu s z dev
  /\ forward_gpu (zero_grads s).1 z dev = forward_gpu s z dev.
Proof.
  destruct (backward_cpu_frame sop x gy s) as (Hb & _).
  destruct (zero_grads_keeps s) as (Hz & _).
  repeat split;
    (apply forward_cpu_same || apply forward_gpu_same); assumption.
Qed.

(** ** How the backward pass fails *)

(** X8.  On a layer that has bias terms but no gV1 (the one [nobias=True]
    with an explicit bias triple builds), with d1 >= 1 and out >= 1,
    [backward_cpu] on a valid batch of N >= 1 samples adds the float32
    contraction to gW and then raises [TypeError] at [self.gV1 += ...]: no
    input gradient is returned. *)
Theorem backward_cpu_without_bias_buffers sop d1 d2 out N s x0 x1 gy :
  params_ok d1 d2 out s = true -> has_shape [d1; d2; out] (gW s) = true ->
  b s <> None -> gV1 s = None -> 0 < d1 -> 0 < out ->
  valid_batch s N x0 x1 = true -> has_shape [N; out] gy = true -> 0 < N ->
  backward_cpu sop [x0; x1] [gy] s
  = (set_gW (acc_gW sop d1 d2 out N x0 x1 gy (gW s)) s, Err TypeError).
Proof.
  intros Hp HgW Hb HgV1 Hd1 Hout Hv Hgy HN.
  destruct (valid_batch_inv _ _ _ _ _ _ _ Hp Hv)
    as (r0 & r1 & S0 & S1 & P0 & P1 & L0 & L1).
  destruct (params_ok_inv _ _ _ _ Hp) as (Hin & SW & LW & Hbias).
  apply has_shape_inv in HgW as [SgW LgW].
  apply has_shape_inv in Hgy as [Sgy Lgy].
  pose proof (gW_update sop d1 d2 out N x0 x1 gy (gW s) Sgy SgW) as Hup.
  unfold backward_cpu, mbind, lift, self_, assign, mret.
  cbn [item lookup list_lookup]. cbv beta iota zeta.
  rewrite (as_mat_ok _ _ _ S0 HN), P0. cbv beta iota zeta.
  rewrite (as_mat_ok _ _ _ S1 HN), P1. cbv beta iota zeta.
  destruct (einsum_ij_ik_il_jkl sop _ _ gy) as [c|e] eqn:Ec;
    cbn [rbind] in Hup; [|discriminate].
  cbv beta iota zeta. rewrite Hup. cbv beta iota zeta.
  destruct (b s) as [bv|]; [|congruence]. cbv beta iota zeta.
  rewrite (transpose_2d _ N d1) by reflexivity.
  rewrite (dot_2d _ _ _ d1 N out) by (reflexivity || assumption).
  rewrite HgV1. cbn [iadd_attr]. unfold size. cbn [shape prod foldr].
  destruct (Nat.eqb_spec (d1 * (out * 1)) 0) as [E|_]; [nia|].
  reflexivity.
Qed.

Lemma backward_cpu_without_bias_buffers_witness :
  backward_cpu sum_lr [Examples.X0; Examples.X1] [Examples.GY]
    Examples.lopsided
  = (set_gW (acc_gW sum_lr 3 2 2 2 Examples.X0 Examples.X1 Examples.GY
               (gW Examples.lopsided)) Examples.lopsided,
     Err TypeError).
Proof.
  apply (backward_cpu_without_bias_buffers sum_lr 3 2 2 2);
    reflexivity || discriminate || lia.
Defined.

Lemma bdim_to_one a : bdim a 1 = Ok a.
Proof.
  unfold bdim. destruct (Nat.eqb_spec a 1) as [->|]; [reflexivity|].
  reflexivity.
Qed.

(** X9.  On a layer without bias terms, [backward_cpu] on a valid batch of
    N >= 1 samples is all or nothing, whatever is passed as output
    gradient: if the call raises, the layer is as it was before. *)
Theorem backward_cpu_bias_free_all_or_nothing sop d1 d2 out N s x0 x1 gy :
  params_ok d1 d2 out s = true -> has_shape [d1; d2; out] (gW s) = true ->
  b s = None -> valid_batch s N x0 x1 = true -> 0 < N ->
  is_ok (backward_cpu sop [x0; x1] gy s).2 = false ->
  (backward_cpu sop [x0; x1] gy s).1 = s.
Proof.
  intros Hp HgW Hb Hv HN.
  destruct (valid_batch_inv _ _ _ _ _ _ _ Hp Hv)
    as (r0 & r1 & S0 & S1 & P0 & P1 & L0 & L1).
  destruct (params_ok_inv _ _ _ _ Hp) as (Hin & SW & LW & _).
  apply has_shape_inv in HgW as [SgW LgW].
  unfold backward_cpu, mbind, lift, self_, assign, mret.
  cbn [item lookup list_lookup]. cbv beta iota zeta.
  rewrite (as_mat_ok _ _ _ S0 HN), P0. cbv beta iota zeta.
  rewrite (as_mat_ok _ _ _ S1 HN), P1. cbv beta iota zeta.
  rewrite Hb.
  destruct gy as [|g gy]; [reflexivity|].
  cbn [item lookup list_lookup]. cbv beta iota zeta.
  unfold einsum_ij_ik_il_jkl, einsum_ik_jkl_il_ij, einsum_ij_jkl_il_ik.
  rewrite SW. cbn [shape].
  destruct (shape g) as [|i3 [|l3 [|? ?]]] eqn:Sg; cbv beta iota zeta;
    [reflexivity | reflexivity | | reflexivity].
  rewrite !bdim_same. cbn [rbind].
  destruct (bdim N i3) as [i|e] eqn:Ei; [|reflexivity]. cbn [rbind].
  cbv beta iota zeta.
  match goal with
  | |- context [iadd (gW s) ?c] =>
      destruct (iadd (gW s) c) as [gw|e] eqn:Ea; [|reflexivity]
  end.
  cbv beta iota zeta.
  assert (Hl : bdim out l3 = Ok out).
  { unfold iadd in Ea. rewrite SgW in Ea. cbn [shape] in Ea.
    destruct (broadcastable [d1; d2; out] [d1; d2; l3]) eqn:Eb;
      [|discriminate].
    clear Ea. unfold broadcastable in Eb. cbn in Eb.
    rewrite !Nat.eqb_refl in Eb. cbn in Eb. rewrite andb_true_r in Eb.
    apply orb_prop in Eb as [E | E]; apply Nat.eqb_eq in E; subst l3.
    - apply bdim_same.
    - apply bdim_to_one. }
  rewrite Hl. cbn [rbind]. cbv beta iota zeta. discriminate.
Qed.

Lemma backward_cpu_bias_free_all_or_nothing_witness :
  (backward_cpu sum_lr [Examples.X0; Examples.X1] [Examples.GY_wide]
     Examples.plain).1
  = Examples.plain.
Proof.
  apply (backward_cpu_bias_free_all_or_nothing sum_lr 3 2 2 2);
    reflexivity || apply Nat.lt_0_succ.
Defined.

(** X18.  The invariant of C8 cannot be sharpened to "gV1, gV2 and gb are
    present or absent together": the constructor builds from
    [nobias=True], d1 = 0 and an explicit bias triple a layer on which one
    [backward_cpu] call on a valid batch of one sample creates gV1 (an
    array without elements, the value of [None + t] for an increment
    without elements) and then raises [TypeError] at gV2, leaving gV1
    present and gV2 and gb absent. *)
Theorem backward_cpu_can_create_a_buffer sop :
  __init__ [0; 2] 2 true (Some Examples.W022)
    (Some [Examples.V1_02; Examples.V2_22; Examples.b_2])
    Examples.no_rng Examples.junk7 = Ok Examples.hollow
  /\ params_ok 0 2 2 Examples.hollow = true
  /\ valid_batch Examples.hollow 1 Examples.X0_hollow Examples.X1_1 = true
  /\ has_shape [1; 2] Examples.GY_1 = true
  /\ gV1 Examples.hollow = None
  /\ (let r := backward_cpu sop [Examples.X0_hollow; Examples.X1_1]
                 [Examples.GY_1] Examples.hollow in
      r.2 = Err TypeError
      /\ reachable sop r.1
      /\ gV1 r.1 = Some (mk_nd [0; 2] [])
      /\ gV2 r.1 = None /\ gb r.1 = None).
Proof.
  assert (Hi : __init__ [0; 2] 2 true (Some Examples.W022)
                 (Some [Examples.V1_02; Examples.V2_22; Examples.b_2])
                 Examples.no_rng Examples.junk7 = Ok Examples.hollow)
    by reflexivity.
  split; [exact Hi|]. do 4 (split; [reflexivity|]).
  cbv zeta. split; [reflexivity|]. split.
  - apply reach_backward_cpu. eapply reach_init. exact Hi.
  - repeat split.
Qed.

(** ** The constructor *)

(** X12.  The constructor raises nothing but [AssertionError], and it
    succeeds exactly when [in_shape] has two entries, an explicit [initialW]
    has shape (in_shape[0], in_shape[1], out_size) and an explicit
    [initial_bias] has three entries; the shapes of the bias arrays are not
    looked at. *)
Theorem init_outcome ish out nobias iW ib rng junk :
  is_ok (__init__ ish out nobias iW ib rng junk)
  = (length ish =? 2)
    && match iW with
       | Some w0 => bool_decide (shape w0 = [nth 0 ish 0; nth 1 ish 0; out])
       | None => true
       end
    && match ib with
       | Some l => length l =? 3
       | None => true
       end
  /\ forall e, __init__ ish out nobias iW ib rng junk = Err e ->
               e = AssertionError.
Proof.
  unfold __init__.
  destruct (length ish =? 2); [|split; [reflexivity | intros e [= <-]; reflexivity]].
  destruct iW as [w0|];
    [destruct (bool_decide (shape w0 = [nth 0 ish 0; nth 1 ish 0; out]));
     [|split; [reflexivity | intros e [= <-]; reflexivity]]|];
    cbn [rbind andb];
    (destruct ib as [l|];
     [destruct (length l =? 3);
      [|split; [reflexivity | intros e [= <-]; reflexivity]]|];
     cbn [rbind]; cbv beta iota zeta;
     destruct nobias; cbn [negb rbind]; cbv beta iota zeta;
     (split; [reflexivity | discriminate])).
Qed.

Lemma has_shape_empty_like junk x sh :
  shape x = sh -> has_shape sh (empty_like junk x) = true.
Proof.
  intros <-. unfold empty_like, size. apply has_shape_tab. reflexivity.
Qed.

Lemma has_shape_zeros sh : has_shape sh (zeros sh) = true.
Proof. unfold zeros. apply has_shape_tab. reflexivity. Qed.

Lemma has_shape_intro sh x : shape x = sh -> wf x -> has_shape sh x = true.
Proof.
  intros <- Hwf. unfold has_shape, wfb.
  rewrite bool_decide_eq_true_2 by reflexivity.
  apply Nat.eqb_eq, Hwf.
Qed.

Lemma zero_filled_zeros sh : zero_filled (zeros sh) = true.
Proof.
  unfold zero_filled, zeros, tab. cbn [data].
  induction (seq 0 (prod sh)) as [|i l IH]; [reflexivity | exact IH].
Qed.

(** X13.  A layer the constructor returns satisfies the data model the
    passes rely on, provided the arrays handed to it do: W is
    (d1, d2, out); the bias terms, if any, are (d1, out), (d2, out), (out);
    unless [nobias] is set with an explicit bias, there is a gradient
    buffer of the same shape for each parameter present and no other; and
    without an explicit bias the bias terms are absent or all zero. *)
Theorem init_establishes_data_model d1 d2 out nobias iW ib rng junk s :
  __init__ [d1; d2] out nobias iW ib rng junk = Ok s ->
  (forall w0, iW = Some w0 -> wf w0) ->
  (forall l, ib = Some l ->
     exists v1 v2 bv,
       l = [v1; v2; bv] /\ has_shape [d1; out] v1 = true
       /\ has_shape [d2; out] v2 = true /\ has_shape [out] bv = true) ->
  params_ok d1 d2 out s = true
  /\ (nobias = false \/ ib = None -> grads_ok d1 d2 out s = true)
  /\ (ib = None -> bias_vanishes s = true).
Proof.
  intros H HiW Hib. unfold __init__ in H. cbn [length Nat.eqb nth] in H.
  assert (Hw : exists w, has_shape [d1; d2; out] w = true /\
    match iW with
    | Some w0 =>
        if bool_decide (shape w0 = [d1; d2; out]) then Ok w0
        else Err AssertionError
    | None => Ok (mk_nd [d1; d2; out] (tab (d1 * d2 * out) rng))
    end = Ok w \/ exists e,
    match iW with
    | Some w0 =>
        if bool_decide (shape w0 = [d1; d2; out]) then Ok w0
        else Err AssertionError
    | None => Ok (mk_nd [d1; d2; out] (tab (d1 * d2 * out) rng))
    end = Err e).
  { destruct iW as [w0|].
    - destruct (bool_decide (shape w0 = [d1; d2; out])) eqn:E.
      + apply bool_decide_eq_true in E. exists w0. left.
        split; [apply has_shape_intro; auto | reflexivity].
      + exists w0. right. eexists. reflexivity.
    - eexists. left. split; [|reflexivity].
      apply has_shape_tab. cbn. lia. }
  destruct Hw as (w & [[HW Ew] | [e Ew]]); rewrite Ew in H; [|discriminate].
  cbn [rbind] in H.
  pose proof (has_shape_inv _ _ HW) as [SW _].
  destruct ib as [l|].
  - destruct (Hib l eq_refl) as (v1 & v2 & bv & -> & H1 & H2 & H3).
    cbn [length Nat.eqb rbind lookup list_lookup] in H.
    cbv beta iota zeta in H.
    pose proof (has_shape_inv _ _ H1) as [S1 _].
    pose proof (has_shape_inv _ _ H2) as [S2 _].
    pose proof (has_shape_inv _ _ H3) as [S3 _].
    destruct nobias; cbn [negb] in H; injection H as <-;
      unfold params_ok, grads_ok;
      cbn [W gW V1 gV1 V2 gV2 b gb in_shape opt_has_shape _empty_like];
      rewrite HW, H1, H2, H3, bool_decide_eq_true_2 by reflexivity;
      (split; [reflexivity|]); (split; [|discriminate]).
    + intros [Hn | Hn]; discriminate.
    + intros _.
      rewrite !has_shape_empty_like by assumption. reflexivity.
  - destruct nobias; cbn [negb rbind] in H; cbv beta iota zeta in H;
      injection H as <-;
      unfold params_ok, grads_ok, bias_vanishes;
      cbn [W gW V1 gV1 V2 gV2 b gb in_shape opt_has_shape _empty_like present];
      rewrite HW, bool_decide_eq_true_2 by reflexivity.
    + rewrite has_shape_empty_like by assumption. repeat split.
    + rewrite !has_shape_zeros, !zero_filled_zeros.
      rewrite !has_shape_empty_like by (reflexivity || assumption).
      repeat split.
Qed.

Lemma init_establishes_data_model_witness :
  params_ok 3 2 2 Examples.biased = true
  /\ (false = false \/ Some [Examples.V1_32; Examples.V2_22; Examples.b_2] = None ->
      grads_ok 3 2 2 Examples.biased = true)
  /\ (Some [Examples.V1_32; Examples.V2_22; Examples.b_2] = None ->
      bias_vanishes Examples.biased = true).
Proof.
  apply (init_establishes_data_model 3 2 2 false (Some Examples.W322)
           (Some [Examples.V1_32; Examples.V2_22; Examples.b_2])
           Examples.no_rng Examples.junk7 Examples.biased eq_refl).
  - intros w0 [= <-]. reflexivity.
  - intros l [= <-]. do 3 eexists. repeat split.
Defined.
